(** * mita: label resolution and the periodic reconciliation tasks

    A shallow embedding of [mita/util.py], [mita/async.py] and
    [mita/providers/openstack.py], with the properties of the queue
    classifier, the provisioner, the idle reporter, the orphan reaper and
    the volume wait stated over it. *)

From stdpp Require Import gmap list strings.
From Stdlib Require Import ZArith NArith Lia.

Open Scope Z_scope.

(** ** Python values *)

(** A Python text string is a sequence of code points. *)
Abbreviation str := (list N).

(** An ASCII literal as a text string. *)
Definition u (s : string) : str :=
  (λ a, Ascii.N_of_ascii a) <$> String.list_ascii_of_string s.

(** U+2018 and U+2019, the quotes Jenkins puts around names. *)
Definition lsquo : N := 8216%N.
Definition rsquo : N := 8217%N.

Inductive exn :=
  | IndexError
  | KeyError
  | CloudNodeNotFound
  | RuntimeError
  | InvalidRequestError
  | AttributeError
  | External (tag : str).

Inductive result (A : Type) :=
  | Ok (a : A)
  | Raise (e : exn).
Arguments Ok {A} a.
Arguments Raise {A} e.

Global Instance exn_eq_dec : EqDecision exn.
Proof. solve_decision. Defined.
Global Instance result_eq_dec `{EqDecision A} : EqDecision (result A).
Proof. solve_decision. Defined.

Definition rbind {A B} (r : result A) (k : A → result B) : result B :=
  match r with Ok a => k a | Raise e => Raise e end.

Notation "'let*' x := r 'in' k" := (rbind r (λ x, k))
  (at level 10, x name, r at level 100, k at level 200).

(** Truth value of [None], of a string and of a list. *)
Definition truthy {A} (o : option (list A)) : bool :=
  match o with Some (_ :: _) => true | _ => false end.

(** [a or b] on optional strings. *)
Definition py_or {A} (a b : option (list A)) : option (list A) :=
  if truthy a then a else b.

(** [l[i]], negative indices counting from the end. *)
Definition py_index {A} (l : list A) (i : Z) : result A :=
  let j := if i <? 0 then i + Z.of_nat (length l) else i in
  if j <? 0 then Raise IndexError
  else match l !! Z.to_nat j with Some x => Ok x | None => Raise IndexError end.

(** ** String methods *)

Fixpoint startswith (s prefix : str) {struct prefix} : bool :=
  match prefix, s with
  | [], _ => true
  | p :: prefix', c :: s' => (p =? c)%N && startswith s' prefix'
  | _ :: _, [] => false
  end.

Definition endswith (s suffix : str) : bool :=
  startswith (reverse s) (reverse suffix).

(** [sub in s] *)
Fixpoint contains (s sub : str) : bool :=
  startswith s sub ||
  match s with [] => false | _ :: s' => contains s' sub end.

(** [s.replace(c, new)] for a one-character [c]. *)
Definition replace_char (c : N) (new : str) (s : str) : str :=
  mbind (M := list) (λ x, if (x =? c)%N then new else [x]) s.

(** [str.isspace] on one code point. *)
Definition isspace (c : N) : bool :=
  ((9 <=? c) && (c <=? 13) || (28 <=? c) && (c <=? 32) ||
   (c =? 133) || (c =? 160) || (c =? 5760) ||
   (8192 <=? c) && (c <=? 8202) || (c =? 8232) || (c =? 8233) ||
   (c =? 8239) || (c =? 8287) || (c =? 12288))%N.

(** [s.split()]: the maximal runs of non-whitespace; [cur] is the run being
    read, reversed. *)
Fixpoint split_ws_go (cur : str) (s : str) : list str :=
  match s with
  | [] => match cur with [] => [] | _ => [reverse cur] end
  | c :: s' =>
      if isspace c then
        match cur with
        | [] => split_ws_go [] s'
        | _ => reverse cur :: split_ws_go [] s'
        end
      else split_ws_go (c :: cur) s'
  end.

Definition split_ws (s : str) : list str := split_ws_go [] s.

(** [s.split(sep)] for a non-empty [sep]: leftmost matches, not overlapping;
    [skip] counts the characters of a matched separator still to pass. *)
Fixpoint split_go (sep : str) (skip : nat) (cur : str) (s : str) : list str :=
  match s with
  | [] => [reverse cur]
  | c :: s' =>
      match skip with
      | S k => split_go sep k cur s'
      | O =>
          if startswith s sep
          then reverse cur :: split_go sep (length sep - 1) [] s'
          else split_go sep 0 (c :: cur) s'
      end
  end.

Definition split (s sep : str) : list str := split_go sep 0 [] s.

(** [s.strip(chars)] *)
Fixpoint dropwhile_b {A} (f : A → bool) (l : list A) : list A :=
  match l with
  | [] => []
  | x :: l' => if f x then dropwhile_b f l' else l
  end.

Definition strip_chars (chars : str) (s : str) : str :=
  let drop := dropwhile_b (λ c, bool_decide (c ∈ chars)) in
  reverse (drop (reverse (drop s))).

(** [s.strip()] *)
Definition strip (s : str) : str :=
  reverse (dropwhile_b isspace (reverse (dropwhile_b isspace s))).

(** [s.encode('ascii', errors='ignore')] *)
Definition encode_ascii_ignore (s : str) : str :=
  filter (λ c, (c < 128)%N) s.

(** [os.path.join(a, b)] on POSIX. *)
Definition os_path_join (a b : str) : str :=
  if startswith b (u "/") then b
  else if bool_decide (a = []) || endswith a (u "/") then a ++ b
  else a ++ u "/" ++ b.

Definition mapM_result {A B} (f : A → result B) : list A → result (list B) :=
  fix go l :=
    match l with
    | [] => Ok []
    | x :: l' => let* y := f x in let* ys := go l' in Ok (y :: ys)
    end.

(** ** mita/util.py *)

(** An entry of the [nodes] configuration: the labels of the node type and
    its launch parameters. *)
Record NodeConfig := {
  labels : list str;
  launch : list (str * str)
}.

(** The [nodes] configuration, in its iteration order. *)
Abbreviation Catalog := (list (str * NodeConfig)).

Definition sanitize_string (string : str) (strip_ : bool) : str :=
  let to_remove := [lsquo; rsquo] in
  let string := foldl (λ string i, replace_char i [] string) string to_remove in
  if strip_ then strip string else string.

Definition job_from_url (url : str) : str :=
  List.last (split (strip_chars (u "/") url) (u "/")) [].

Definition get_key (_dict : Catalog) (key : option str) (fallback : bool)
  : option str :=
  match key with
  | None | Some [] => None
  | Some key =>
      if bool_decide (key ∈ _dict.*1) then Some key
      else if fallback then List.find (λ name, contains key name) _dict.*1
      else None
  end.

(** The marker of the fifth reason: [doesn’t have label]. *)
Definition doesnt_have_label : str :=
  u "doesn" ++ [rsquo] ++ u "t have label".

(** The local functions of [is_stuck]. *)
Module stuck.
Definition busy_summary (string : str) : bool :=
  startswith string (u "Waiting for").
Definition offline_label_summary (string : str) : bool :=
  startswith string (u "All nodes of label").
Definition offline_node_summary (string : str) : bool :=
  endswith string (u "is offline").
Definition offline_node_label_summary (string : str) : bool :=
  startswith string (u "There are no nodes").
Definition node_does_not_have_label (string : str) : bool :=
  contains string doesnt_have_label.
End stuck.

Definition is_stuck (string : str) : bool :=
  (fix loop summaries :=
     match summaries with
     | [] => false
     | summary :: rest => if summary string : bool then true else loop rest
     end)
    [stuck.busy_summary; stuck.offline_label_summary;
     stuck.offline_node_summary; stuck.offline_node_label_summary;
     stuck.node_does_not_have_label].

(** The processors [match_node] chooses from. *)
Inductive processor :=
  | from_label_
  | from_offline_label_
  | from_offline_node_
  | from_offline_node_label_
  | from_node_without_label_.

(** The lambdas of [match_node]. *)
Module lambdas.
Definition busy_summary (string : str) : option processor :=
  if startswith string (u "Waiting for") then Some from_label_ else None.
Definition offline_label_summary (string : str) : option processor :=
  if startswith string (u "All nodes of label")
  then Some from_offline_label_ else None.
Definition offline_node_summary (string : str) : option processor :=
  if endswith string (u "is offline") then Some from_offline_node_ else None.
Definition offline_node_label_summary (string : str) : option processor :=
  if startswith string (u "There are no nodes")
  then Some from_offline_node_label_ else None.
Definition node_does_not_have_label (string : str) : option processor :=
  if contains string doesnt_have_label
  then Some from_node_without_label_ else None.
End lambdas.

(** The processor [match_node] calls on [string], if any. *)
Definition match_node_processor (string : str) : option processor :=
  (fix loop summaries :=
     match summaries with
     | [] => None
     | summary :: rest =>
         match summary string : option processor with
         | Some processor => Some processor
         | None => loop rest
         end
     end)
    [lambdas.busy_summary; lambdas.offline_label_summary;
     lambdas.offline_node_summary; lambdas.offline_node_label_summary;
     lambdas.node_does_not_have_label].

(** Modelled from the spec: [mita/label_eval.py] (the function
    [matching_nodes]) is not among the sources. The spec has an expression
    join labels with [&&]; a node type matches when all the labels of the
    expression are in its configured label set, and the matches come in
    catalog order. *)
Definition matching_nodes (expr : str) (nodes : Catalog) : list str :=
  let wanted := split expr (u "&&") in
  (List.filter
     (λ entry, forallb (λ l, bool_decide (l ∈ labels entry.2)) wanted)
     nodes).*1.

(** What the HTTP request for a job's [config.xml] gives:
    an error status, or the parsed document, of which the text of the
    [assignedNode] element is read: [None] without such an element,
    [Some None] for one without text. *)
Inductive job_config_response :=
  | HttpError
  | JobConfig (assignedNode : option (option str)).

(** What [conn.get_node_config(name)] of the Jenkins connection gives, once
    [ElementTree.fromstring] has read it: Jenkins' not-found exception,
    another exception of the library or of the parser, named by its class,
    or the children of the root element with their tag and their text,
    which is [None] for an element without text such as
    [<label></label>]. *)
Inductive node_config_response :=
  | NodeNotFound
  | NodeConfigFails (class : str)
  | NodeConfigXml (children : list (str * option str)).

(** The labels [match_node_from_matrix_job_name] reads off a job name such
    as [ARCH=x86_64,DIST=xenial,MACHINE_SIZE=huge]. *)
Definition matrix_job_labels (job_name : str) : result (list str) :=
  let labels_ := split job_name (u ",") in
  let* labels_ :=
    mapM_result (λ label, py_index (split label (u "=")) 1) labels_ in
  let labels_ := elements (list_to_set labels_ : gset str) in
  Ok labels_.

Section Util.

(** [pecan.conf['nodes']] *)
Variable conf_nodes : Catalog.

(** [conn.get_node_config(name)] of the Jenkins connection, parsed *)
Variable jenkins_node_config : str → node_config_response.

(** [requests.get(config_url, ...)] *)
Variable http_get_job_config : str → job_config_response.

Definition get_nodes : Catalog := conf_nodes.

(** [configured_nodes or get_nodes()] *)
Definition or_get_nodes (configured_nodes : option Catalog) : Catalog :=
  match configured_nodes with
  | Some (entry :: rest) => entry :: rest
  | _ => get_nodes
  end.

(** [node.text.split()] raises [AttributeError] when the text is [None]. *)
Definition get_node_labels (node_name : str) : result (list str) :=
  let node_name := encode_ascii_ignore node_name in
  match jenkins_node_config node_name with
  | NodeNotFound => Ok []
  | NodeConfigFails class => Raise (External class)
  | NodeConfigXml xml_object =>
      match List.find (λ node, bool_decide (node.1 = u "label")) xml_object with
      | Some node =>
          match node.2 with
          | Some text => Ok (split_ws text)
          | None => Raise AttributeError
          end
      | None => Ok []
      end
  end.

Definition match_node_from_label (label : str)
    (configured_nodes : option Catalog) : option str :=
  let configured_nodes := or_get_nodes configured_nodes in
  fst <$> List.find (λ entry, bool_decide (label ∈ labels entry.2))
            configured_nodes.

Definition match_node_from_labels (labels_ : option (list str))
    (configured_nodes : option Catalog) : option str :=
  match labels_ with
  | None | Some [] => None
  | Some labels_ =>
      let configured_nodes := or_get_nodes configured_nodes in
      let labels_exist (config : list str) :=
        forallb (λ l, bool_decide (l ∈ config)) labels_ in
      fst <$> List.find (λ entry, labels_exist (labels entry.2))
                configured_nodes
  end.

Definition match_node_from_label_expr (expr : option str)
    (configured_nodes : option Catalog) : option str :=
  match expr with
  | None | Some [] => None
  | Some expr =>
      let configured_nodes := or_get_nodes configured_nodes in
      let matches := matching_nodes expr configured_nodes in
      match matches with
      | first :: _ => Some first
      | [] => None
      end
  end.

Definition from_label (string : str) : result (option str) :=
  match py_index (split_ws string) (-1) with
  | Raise _ => Ok None
  | Ok node_or_label =>
      let node_or_label := sanitize_string node_or_label false in
      let node_from_label := match_node_from_label node_or_label None in
      let configured_nodes := get_nodes in
      let match_ :=
        py_or (get_key configured_nodes (Some node_or_label) true)
              (get_key configured_nodes node_from_label true) in
      let match_ :=
        match match_ with
        | None =>
            let clean_node := hd [] (split node_or_label (u "__")) in
            get_key configured_nodes (Some clean_node) true
        | Some _ => match_
        end in
      match match_ with
      | None =>
          let matched_node :=
            match_node_from_label_expr (Some node_or_label)
              (Some configured_nodes) in
          if truthy matched_node then Ok matched_node
          else
            let* labels_ := get_node_labels node_or_label in
            Ok (match_node_from_labels (Some labels_) None)
      | Some _ => Ok match_
      end
  end.

Definition from_offline_node_label (string : str) : result (option str) :=
  let string := sanitize_string string false in
  let* label := py_index (split_ws string) (-1) in
  let matched_node := match_node_from_label label None in
  match matched_node with
  | None =>
      let nodes := get_nodes in
      let matched_node := match_node_from_label_expr (Some label) (Some nodes) in
      if truthy matched_node then Ok matched_node else Ok matched_node
  | Some _ => Ok matched_node
  end.

Definition from_offline_label (string : str) : result (option str) :=
  let string := sanitize_string string false in
  let* label := py_index (split_ws string) (-3) in
  let single_label_match := match_node_from_label label None in
  if negb (truthy single_label_match) then from_offline_node_label label
  else Ok single_label_match.

Definition from_offline_node (string : str) : result (option str) :=
  let* node := py_index (split_ws string) 0 in
  let configured_nodes := get_nodes in
  let match_ := get_key configured_nodes (Some node) true in
  match match_ with
  | None =>
      let node := hd [] (split node (u "__")) in
      Ok (if bool_decide (node ∈ configured_nodes.*1) then Some node else None)
  | Some _ => Ok match_
  end.

Definition from_offline_executor (node : option str) : option str :=
  match node with
  | None => None
  | Some node =>
      let configured_nodes := get_nodes in
      let match_ := get_key configured_nodes (Some node) true in
      match match_ with
      | None =>
          let node := hd [] (split node (u "__")) in
          if bool_decide (node ∈ configured_nodes.*1) then Some node else None
      | Some _ => match_
      end
  end.

Definition from_node_without_label (string : str) : result (option str) :=
  let messages := split string (u ";") in
  (fix loop messages :=
     match messages with
     | [] => Ok None
     | message :: rest =>
         if contains message doesnt_have_label then
           let* node := from_label message in
           if negb (truthy node) then loop rest else Ok node
         else loop rest
     end) messages.

Definition run_processor (p : processor) (string : str)
  : result (option str) :=
  match p with
  | from_label_ => from_label string
  | from_offline_label_ => from_offline_label string
  | from_offline_node_ => from_offline_node string
  | from_offline_node_label_ => from_offline_node_label string
  | from_node_without_label_ => from_node_without_label string
  end.

Definition match_node (string : str) : result (option str) :=
  match match_node_processor string with
  | Some processor => run_processor processor string
  | None => Ok None
  end.

Definition match_node_from_job_config (job_url : str) : option str :=
  let config_url := os_path_join job_url (u "config.xml") in
  match http_get_job_config config_url with
  | HttpError => None
  | JobConfig None => None
  | JobConfig (Some label_expression) =>
      match_node_from_label_expr label_expression None
  end.

Definition match_node_from_matrix_job_name (job_name : str)
  : result (option str) :=
  let* labels_ := matrix_job_labels job_name in
  let node := match_node_from_labels (Some labels_) None in
  Ok node.

End Util.

(** ** State and exceptions *)

(** A computation on a state [S] that returns or raises. *)
Definition M (S A : Type) : Type := S → result A * S.

Definition ret {S A} (a : A) : M S A := λ s, (Ok a, s).
Definition raise {S A} (e : exn) : M S A := λ s, (Raise e, s).
Definition bind {S A B} (m : M S A) (k : A → M S B) : M S B :=
  λ s, match m s with
       | (Ok a, s') => k a s'
       | (Raise e, s') => (Raise e, s')
       end.

Notation "'do' x <- m ; k" := (bind m (λ x, k))
  (at level 10, x name, m at level 100, k at level 200).
Notation "'do_' m ; k" := (bind m (λ _, k))
  (at level 10, m at level 100, k at level 200).

(** [try: m  except Exception as e: handler e] *)
Definition try_except {S A} (m : M S A) (handler : exn → M S A) : M S A :=
  λ s, match m s with
       | (Ok a, s') => (Ok a, s')
       | (Raise e, s') => handler e s'
       end.

(** [for x in l: body x] *)
Definition for_each {S A} (body : A → M S unit) : list A → M S unit :=
  fix go l :=
    match l with
    | [] => ret tt
    | x :: l' => do_ body x; go l'
    end.

(** ** mita/providers/openstack.py *)

(** The state of a node or of a volume as libcloud reports it: a name or a
    number. *)
Inductive state_value :=
  | StateName (s : str)
  | StateNumber (n : Z).

Global Instance state_value_eq_dec : EqDecision state_value.
Proof. solve_decision. Defined.

(** A libcloud node: name, state and [str(node)]. *)
Record CloudNode := {
  node_name : str;
  node_state : state_value;
  node_str : str
}.

(** A libcloud [StorageVolume], or the [UnavailableVolume] below. *)
Record Volume := {
  volume_name : str;
  volume_state : state_value
}.

Definition UnavailableVolume (name : str) : Volume :=
  {| volume_name := name; volume_state := StateName (u "notfound") |}.

(** What a call of the libcloud driver gives: a value or an exception of
    the library, named by its class. [CloudNodeNotFound] is declared by
    mita, the library cannot raise it. *)
Inductive driver_result (A : Type) :=
  | Returns (a : A)
  | Fails (class : str).
Arguments Returns {A} a.
Arguments Fails {A} class.

Section OpenStack.

(** The world outside the process: the cloud, Jenkins, the clock. *)
Variable World : Type.

(** The driver [get_driver()] builds. *)
Variable list_nodes : World → driver_result (list CloudNode) * World.
Variable driver_destroy_node : CloudNode → World → driver_result bool * World.
Variable list_volumes : World → driver_result (list Volume) * World.
Variable driver_destroy_volume : Volume → World → driver_result bool * World.
(** [node.destroy()] *)
Variable node_destroy : CloudNode → World → driver_result bool * World.
(** [time.sleep] *)
Variable sleep : Z → World → World.

Definition call {A} (op : World → driver_result A * World) : M World A :=
  λ w, match op w with
       | (Returns a, w') => (Ok a, w')
       | (Fails class, w') => (Raise (External class), w')
       end.

Definition purge : M World (option bool) :=
  do nodes <- call list_nodes;
  do destroyed <-
    (fix loop nodes (destroyed : Z) : M World Z :=
       match nodes with
       | [] => ret destroyed
       | node :: rest =>
           let error_integer :=
             bool_decide (node_state node = StateNumber 7) in
           let error_repr := contains (node_str node) (u "state=ERROR") in
           let error_string :=
             bool_decide (node_state node = StateName (u "error")) in
           if error_integer || error_repr || error_string then
             do_ call (node_destroy node);
             loop rest (destroyed + 1)
           else loop rest destroyed
       end) nodes 0;
  if destroyed =? 0 then ret None else ret (Some true).

Definition get_volume (name : str) : M World Volume :=
  do volumes <- call list_volumes;
  match List.filter (λ v, bool_decide (volume_name v = name)) volumes with
  | v :: _ => ret v
  | [] => ret (UnavailableVolume name)
  end.

(** The [while] loop of [_wait_until_volume_available]; gives the volume and
    the counter it ends with, [None] when [fuel] iterations were not
    enough. *)
Fixpoint wait_loop (fuel : nat) (ok_states : list state_value)
    (volume : Volume) (tries : Z) : M World (option (Volume * Z)) :=
  if bool_decide (volume_state volume ∈ ok_states) then
    match fuel with
    | O => ret None
    | S fuel' =>
        do_ (λ w, (Ok tt, sleep 3 w));
        do volume <- get_volume (volume_name volume);
        let tries := tries + 1 in
        if tries >? 10 then ret (Some (volume, tries))
        else if bool_decide (volume_state volume = StateName (u "notfound"))
        then ret (Some (volume, tries))
        else wait_loop fuel' ok_states volume tries
    end
  else ret (Some (volume, tries)).

Definition _wait_until_volume_available (fuel : nat) (volume : Volume)
    (maybe_in_use : bool) : M World (option bool) :=
  let ok_states := [StateName (u "creating"); StateNumber 3] in
  let tries := 0 in
  let ok_states :=
    if maybe_in_use then ok_states ++ [StateName (u "in_use")]
    else ok_states in
  do r <- wait_loop fuel ok_states volume tries;
  match r with
  | None => ret None
  | Some (volume, _) =>
      if negb (bool_decide
                 (volume_state volume ∈
                    [StateName (u "available"); StateNumber 0]))
      then ret (Some true)
      else ret (Some true)
  end.

Definition destroy_volume (name : str) : M World unit :=
  do volume <- get_volume name;
  if negb (bool_decide (volume_state volume = StateName (u "notfound")))
  then do_ call (driver_destroy_volume volume); ret tt
  else ret tt.

Definition destroy_node (name : str) : M World unit :=
  do nodes <- call list_nodes;
  (fix loop nodes : M World unit :=
     match nodes with
     | [] => raise CloudNodeNotFound
     | node :: rest =>
         if bool_decide (node_name node = name) then
           try_except
             (do result <- call (driver_destroy_node node);
              if negb result then raise RuntimeError
              else do_ destroy_volume name; ret tt)
             (λ e, raise e)
         else loop rest
     end) nodes.

End OpenStack.

(** A provider module as [providers.get] hands it out. *)
Record Provider (World : Type) := {
  provider_destroy_node : str → M World unit;
  provider_purge : M World (option bool)
}.
Arguments provider_destroy_node {World} _ _.
Arguments provider_purge {World} _.

Definition openstack {World : Type}
    (list_nodes : World → driver_result (list CloudNode) * World)
    (driver_destroy_node : CloudNode → World → driver_result bool * World)
    (list_volumes : World → driver_result (list Volume) * World)
    (driver_destroy_volume : Volume → World → driver_result bool * World)
    (node_destroy : CloudNode → World → driver_result bool * World)
  : Provider World :=
  {| provider_destroy_node :=
       destroy_node World list_nodes driver_destroy_node list_volumes
         driver_destroy_volume;
     provider_purge := purge World list_nodes node_destroy |}.

(** ** Dates *)

(** A naive [datetime], in microseconds since the epoch. *)
Definition datetime := Z.

(** A [timedelta], normalised as Python keeps it:
    [0 <= seconds < 86400] and [0 <= microseconds < 1000000]. *)
Record timedelta := {
  days : Z;
  seconds : Z;
  microseconds : Z
}.

Definition timedelta_of_microseconds (us : Z) : timedelta :=
  {| days := us / 1000000 / 86400;
     seconds := (us / 1000000) mod 86400;
     microseconds := us mod 1000000 |}.

(** [a - b] on datetimes. *)
Definition datetime_sub (a b : datetime) : timedelta :=
  timedelta_of_microseconds (a - b).

Definition total_microseconds (d : timedelta) : Z :=
  (days d * 86400 + seconds d) * 1000000 + microseconds d.

(** ** mita/async.py *)

(** A row of [models.Node]. *)
Record Node := {
  identifier : str;
  jenkins_name : option str;
  cloud_name : str;
  provider : str;
  created : datetime
}.

(** What a task asks of the services around it. *)
Inductive event :=
  | DestroyNode (provider : str) (name : str)
  | NodeDelete (node : Node)
  | Commit
  | Rollback
  | Purge (provider : str).

Global Instance datetime_eq_dec : EqDecision datetime := Z.eq_dec.
Global Instance Node_eq_dec : EqDecision Node.
Proof. solve_decision. Defined.
Global Instance event_eq_dec : EqDecision event.
Proof. solve_decision. Defined.

Section Reaper.

Variable World : Type.

(** [models.Node.query.all()] *)
Variable query_all : World → result (list Node) * World.
(** [conn.node_exists(name)] of the Jenkins connection *)
Variable jenkins_node_exists : str → World → driver_result bool * World.
(** [datetime.utcnow()] *)
Variable utcnow : World → datetime * World.
(** [providers.get(name)] *)
Variable providers_get : str → Provider World.
(** The keys of [pecan.conf.provider] *)
Variable providers_conf : list str.

(** The state of a pass: the world and the requests made so far. *)
Definition pass : Type := World * list event.

Definition in_world {A} (m : M World A) : M pass A :=
  λ s, let '(r, w') := m s.1 in (r, (w', s.2)).

Definition emit (e : event) : M pass unit :=
  λ s, (Ok tt, (s.1, s.2 ++ [e])).

(** What [check_orphaned] does with a node that is not in Jenkins and
    is past the grace period. *)
Definition destroy_orphan (node : Node) : M pass unit :=
  let provider_ := providers_get (provider node) in
  try_except
    (do_ emit (DestroyNode (provider node) (cloud_name node));
     in_world (provider_destroy_node provider_ (cloud_name node)))
    (λ e,
       match e with
       | CloudNodeNotFound => do_ emit (NodeDelete node); emit Commit
       | _ => ret tt
       end).

(** The body of the loop over the registry in [check_orphaned]. *)
Definition reap (node : Node) : M pass unit :=
  do in_jenkins <-
    (match jenkins_name node with
     | Some (c :: name) =>
         in_world (call World (jenkins_node_exists (c :: name)))
     | _ => ret false
     end);
  if in_jenkins : bool then ret tt
  else
    do now <- in_world (λ w, let '(t, w') := utcnow w in (Ok t, w'));
    let difference := datetime_sub now (created node) in
    if seconds difference >? 900 then destroy_orphan node
    else ret tt.

Definition check_orphaned : M pass unit :=
  do listed <-
    try_except
      (do nodes <- in_world query_all; ret (Some nodes))
      (λ e, match e with
            | InvalidRequestError => do_ emit Rollback; ret None
            | _ => raise e
            end);
  match listed with
  | None => ret tt
  | Some nodes =>
      do_ for_each reap nodes;
      for_each
        (λ provider_name,
           let provider_ := providers_get provider_name in
           do_ emit (Purge provider_name);
           do_ in_world (provider_purge provider_); ret tt)
        providers_conf
  end.

End Reaper.

(** A request the tasks send to the mita API: [requests.post(url, data)]. *)
Record post := {
  post_url : str;
  post_data : option (NodeConfig * str * nat)
}.

(** An entry of the Jenkins queue: [task['why']], [task['task']['name']]
    and [task['task']['url']]. *)
Record Task := {
  why : option str;
  task_name : str;
  task_url : str
}.

(** What [conn.get_queue_info()] gives: a list of entries, or another
    value that counts as false. *)
Inductive queue_info :=
  | QueueItems (items : list Task)
  | QueueOther.

Section Tasks.

(** [pecan.conf]: the node types and the address of the API *)
Variable conf_nodes : Catalog.
Variable server_host : str.
Variable server_port : str.

(** The Jenkins connection and the HTTP requests of [mita.util] *)
Variable jenkins_node_config : str → node_config_response.
Variable http_get_job_config : str → job_config_response.

Definition get_mita_api (endpoint : option str) (args : list str)
  : result str :=
  let server := server_host in
  let port := server_port in
  let base := u "http://" ++ server ++ u ":" ++ port ++ u "/api" in
  let endpoints := [(u "nodes", base ++ u "/nodes/")] in
  let url := base in
  let* url :=
    match endpoint with
    | Some (c :: e) =>
        match List.find (λ kv, bool_decide (kv.1 = c :: e)) endpoints with
        | Some kv => Ok kv.2
        | None => Raise KeyError
        end
    | _ => Ok url
    end in
  Ok (foldl os_path_join url args).

(** One run of [check_idling], given the names [conn.get_nodes()] lists
    and the [idle] entry of [conn.get_node_info(name)]: the requests it
    posts, in order. *)
Definition check_idling (ci_nodes : list str) (node_idle : str → bool)
  : result (list post) :=
  let mita_nodes :=
    List.filter (λ n, (1 <? length (split n (u "__")))%nat) ci_nodes in
  match mita_nodes with
  | _ :: _ =>
      mapM_result
        (λ n,
           let uuid := List.last (split n (u "__")) [] in
           if node_idle n then
             let* node_endpoint :=
               get_mita_api (Some (u "nodes")) [uuid; u "idle"] in
             Ok {| post_url := node_endpoint; post_data := None |}
           else
             let* node_endpoint :=
               get_mita_api (Some (u "nodes")) [uuid; u "active"] in
             Ok {| post_url := node_endpoint; post_data := None |})
        mita_nodes
  | [] => Ok []
  end.

(** [conn.get_job_info(name)] returns, rather than raising a
    [JenkinsException] *)
Variable jenkins_has_job : str → bool.

(** The body of the loop over the queue in [check_queue]: the node type
    the entry adds to [needed_nodes], if any. *)
Definition needed_node (task : Task) : result (option str) :=
  match why task with
  | None => Ok None
  | Some why_ =>
      if is_stuck why_ then
        let* node_name :=
          match_node conf_nodes jenkins_node_config why_ in
        let* node_name :=
          if negb (truthy node_name) then
            let job_url := task_url task in
            let job_name := job_from_url job_url in
            if jenkins_has_job job_name
            then Ok (match_node_from_job_config conf_nodes
                       http_get_job_config job_url)
            else match_node_from_matrix_job_name conf_nodes job_name
          else Ok node_name in
        if truthy node_name then Ok node_name else Ok None
      else Ok None
  end.

(** [needed_nodes] after one more entry that needs [node_name]. *)
Definition count_node (needed_nodes : gmap str nat) (node_name : str)
  : gmap str nat :=
  match needed_nodes !! node_name with
  | Some (S n) => <[node_name := S (S n)]> needed_nodes
  | _ => <[node_name := 1%nat]> needed_nodes
  end.

(** The loop over the queue. *)
Fixpoint scan_queue (needed_nodes : gmap str nat) (tasks : list Task)
  : result (gmap str nat) :=
  match tasks with
  | [] => Ok needed_nodes
  | task :: rest =>
      let* node_name := needed_node task in
      match node_name with
      | Some node_name => scan_queue (count_node needed_nodes node_name) rest
      | None => scan_queue needed_nodes rest
      end
  end.

(** The loop over [needed_nodes.items()]: the requests posted, and the
    exception that ended the loop, if one did. *)
Fixpoint post_needed (node_endpoint : str) (items : list (str * nat))
  : list post * option exn :=
  match items with
  | [] => ([], None)
  | (node_name, count) :: rest =>
      match List.find (λ kv, bool_decide (kv.1 = node_name)) conf_nodes with
      | None => ([], Some KeyError)
      | Some (_, configured_node) =>
          let request :=
            {| post_url := node_endpoint;
               post_data := Some (configured_node, node_name, count) |} in
          let '(posted, e) := post_needed node_endpoint rest in
          (request :: posted, e)
      end
  end.

(** One run of [check_queue] on what [conn.get_queue_info()] gave. *)
Definition check_queue (result_ : queue_info) : list post * option exn :=
  let needed_nodes : result (gmap str nat) :=
    match result_ with
    | QueueItems (task :: rest) => scan_queue ∅ (task :: rest)
    | QueueItems [] => Ok ∅
    | QueueOther => Ok ∅
    end in
  match needed_nodes with
  | Raise e => ([], Some e)
  | Ok needed_nodes =>
      match get_mita_api (Some (u "nodes")) [] with
      | Raise e => ([], Some e)
      | Ok node_endpoint =>
          post_needed node_endpoint (map_to_list needed_nodes)
      end
  end.

End Tasks.

(** ** Notions the statements use *)

(** [sub] occurs in [s]. *)
Definition infix_of (sub s : str) : Prop :=
  ∃ before after, s = before ++ sub ++ after.

(** The first [label] element of a node's configuration has no text. *)
Definition first_label_without_text (xml_object : list (str * option str))
  : Prop :=
  ∃ before after,
    xml_object = before ++ (u "label", None) :: after ∧
    ∀ child, child ∈ before → child.1 ≠ u "label".

(** [e] is what reading the configuration of some node raises: the
    [AttributeError] of a [label] element without text, or the exception
    of the library. *)
Definition raised_by_node_config
    (jenkins_node_config : str → node_config_response) (e : exn) : Prop :=
  (e = AttributeError ∧
   ∃ name xml_object,
     jenkins_node_config name = NodeConfigXml xml_object ∧
     first_label_without_text xml_object) ∨
  (∃ name class,
     e = External class ∧ jenkins_node_config name = NodeConfigFails class).

(** How many entries of the queue add [node_name] to [needed_nodes]. *)
Definition times_needed (needed : Task → result (option str))
    (node_name : str) (tasks : list Task) : nat :=
  length (List.filter
            (λ task, bool_decide (needed task = Ok (Some node_name))) tasks).

(** The node type a request to create nodes names. *)
Definition post_node_name (p : post) : option str :=
  (λ data, data.1.2) <$> post_data p.

(** The requests of consecutive runs of [check_idling] in which Jenkins
    lists the one node [name], with the idle flag each run observes. *)
Definition idle_passes (server_host server_port : str) (name : str)
    (observed : list bool) : result (list post) :=
  let* posted :=
    mapM_result
      (λ idle, check_idling server_host server_port [name] (λ _, idle))
      observed in
  Ok (concat posted).

(** The address of the [nodes] endpoint of the API, followed by [parts]. *)
Definition api_nodes (server_host server_port : str) (parts : list str) : str :=
  foldl os_path_join
    ((u "http://" ++ server_host ++ u ":" ++ server_port ++ u "/api")
       ++ u "/nodes/")
    parts.

(** The requests [mark idle] and [mark active] for a node. *)
Definition mark_idle (server_host server_port uuid : str) : post :=
  {| post_url := api_nodes server_host server_port [uuid; u "idle"];
     post_data := None |}.
Definition mark_active (server_host server_port uuid : str) : post :=
  {| post_url := api_nodes server_host server_port [uuid; u "active"];
     post_data := None |}.

(** The reports a reporter would send that reports a node only when its
    idle flag differs from the one of the previous poll. *)
Fixpoint reports_on_change (idle active : post) (previous : option bool)
    (observed : list bool) : list post :=
  match observed with
  | [] => []
  | flag :: rest =>
      let report := if flag then idle else active in
      if bool_decide (previous = Some flag)
      then reports_on_change idle active (Some flag) rest
      else report :: reports_on_change idle active (Some flag) rest
  end.

(** ** A small world to run the tasks in *)

Record cloud := {
  clock : datetime;
  registry : list Node;
  jenkins_names : list str;
  cloud_nodes : list CloudNode;
  (** what the next calls of [list_volumes] will give *)
  volume_polls : list (list Volume)
}.

Definition cloud_list_nodes (w : cloud) : driver_result (list CloudNode) * cloud :=
  (Returns (cloud_nodes w), w).

Definition cloud_remove_node (node : CloudNode) (w : cloud) : cloud :=
  {| clock := clock w; registry := registry w;
     jenkins_names := jenkins_names w;
     cloud_nodes :=
       List.filter (λ n, negb (bool_decide (node_name n = node_name node)))
         (cloud_nodes w);
     volume_polls := volume_polls w |}.

Definition cloud_destroy_node (node : CloudNode) (w : cloud)
  : driver_result bool * cloud :=
  (Returns true, cloud_remove_node node w).

Definition cloud_list_volumes (w : cloud) : driver_result (list Volume) * cloud :=
  match volume_polls w with
  | [] => (Returns [], w)
  | volumes :: later =>
      (Returns volumes,
       {| clock := clock w; registry := registry w;
          jenkins_names := jenkins_names w; cloud_nodes := cloud_nodes w;
          volume_polls := later |})
  end.

Definition cloud_destroy_volume (v : Volume) (w : cloud)
  : driver_result bool * cloud :=
  (Returns true, w).

Definition cloud_sleep (t : Z) (w : cloud) : cloud :=
  {| clock := clock w + t * 1000000; registry := registry w;
     jenkins_names := jenkins_names w; cloud_nodes := cloud_nodes w;
     volume_polls := volume_polls w |}.

Definition cloud_query_all (w : cloud) : result (list Node) * cloud :=
  (Ok (registry w), w).

Definition cloud_node_exists (name : str) (w : cloud)
  : driver_result bool * cloud :=
  (Returns (bool_decide (name ∈ jenkins_names w)), w).

Definition cloud_utcnow (w : cloud) : datetime * cloud := (clock w, w).

Definition cloud_openstack : Provider cloud :=
  openstack cloud_list_nodes cloud_destroy_node cloud_list_volumes
    cloud_destroy_volume cloud_destroy_node.

(** A registry node that never joined Jenkins, created [age] microseconds
    before [now]. *)
Definition orphan (now age : Z) : Node :=
  {| identifier := u "b56d0e4a";
     jenkins_name := None;
     cloud_name := u "centos6__b56d0e4a";
     provider := u "openstack";
     created := now - age |}.

(** A world at time [now] whose registry holds [nodes] and whose cloud runs
    a machine for each of them. *)
Definition cloud_with (now : datetime) (nodes : list Node) : cloud :=
  {| clock := now;
     registry := nodes;
     jenkins_names := [];
     cloud_nodes :=
       (λ n, {| node_name := cloud_name n;
                node_state := StateName (u "running");
                node_str := u "<Node>" |}) <$> nodes;
     volume_polls := [] |}.

(** One run of [check_orphaned] in that world: the requests it makes. *)
Definition run_check_orphaned (w : cloud) : result unit * list event :=
  let '(r, s) :=
    check_orphaned cloud cloud_query_all cloud_node_exists cloud_utcnow
      (λ _, cloud_openstack) [u "openstack"] (w, []) in
  (r, s.2).

(** The catalog of the examples. *)
Definition centos6 : NodeConfig :=
  {| labels := [u "centos6"; u "x86_64"]; launch := [] |}.
Definition trusty : NodeConfig :=
  {| labels := [u "amd64"; u "trusty"]; launch := [] |}.
Definition example_nodes : Catalog :=
  [(u "centos6", centos6); (u "trusty", trusty)].

(** A Jenkins that knows no node and no job. *)
Definition no_node_config (name : str) : node_config_response :=
  NodeNotFound.
Definition no_job_config (url : str) : job_config_response := HttpError.

(** A Jenkins whose nodes have a [label] element without text. *)
Definition empty_label_config (name : str) : node_config_response :=
  NodeConfigXml [(u "name", Some name); (u "label", None)].

(** A catalog whose only key is the empty string, and a busy reason whose
    last word is a lone quote. *)
Definition empty_key_nodes : Catalog :=
  [([], {| labels := []; launch := [] |})].
Definition quote_reason : str := u "Waiting for " ++ [rsquo].

(** A node this service added to Jenkins, and the address of the API. *)
Definition managed_name : str := u "10.0.0.1__centos6__b56d0e4a".
Definition api_host : str := u "0.0.0.0".
Definition api_port : str := u "8080".

(** A volume, and a cloud in which it stays in the state [creating]. *)
Definition data_volume (state : str) : Volume :=
  {| volume_name := u "centos6__b56d0e4a"; volume_state := StateName state |}.
Definition cloud_stuck_creating : cloud :=
  {| clock := 0; registry := []; jenkins_names := []; cloud_nodes := [];
     volume_polls := replicate 20 [data_volume (u "creating")] |}.

(** A time of day for the examples, and a number of seconds in
    microseconds. *)
Definition example_now : datetime := 1700000000 * 1000000.
Definition seconds_ago (s : Z) : Z := s * 1000000.

(** Entries of the queue: two wait for [centos6], one for a node with the
    labels of [trusty], one has no reason yet, one waits for a node that
    matches nothing and belongs to a job Jenkins does not know by the last
    part of its address. *)
Definition waiting_for (name : str) : Task :=
  {| why := Some (u "Waiting for next available executor on " ++ name);
     task_name := u "build";
     task_url := u "http://jenkins/job/build/" |}.
Definition settling : Task :=
  {| why := None; task_name := u "build";
     task_url := u "http://jenkins/job/build/" |}.
Definition example_queue : list Task :=
  [waiting_for (u "centos6"); settling; waiting_for (u "trusty");
   waiting_for (u "centos6")].
Definition unmatched_queue : list Task :=
  [waiting_for (u "centos6"); waiting_for (u "static-slave")].
Definition no_job (name : str) : bool := false.

(** ** More of mita/util.py and mita/providers/openstack.py *)

Global Instance state_value_countable : Countable state_value.
Proof.
  refine (inj_countable'
            (λ v, match v with StateName s => inl s | StateNumber n => inr n end)
            (λ x, match x with inl s => StateName s | inr n => StateNumber n end)
            _).
  by intros [].
Defined.

(** [node_state_map], given the items of [types.NodeState.__dict__]: the
    names with their values, which are names or numbers. *)
Definition node_state_map (items : list (str * state_value))
  : gmap state_value state_value :=
  foldl
    (λ mapping kv,
       let mapping := <[StateName kv.1 := kv.2]> mapping in
       <[kv.2 := StateName kv.1]> mapping)
    ∅ items.

(** [get_jenkins_name], given the names [conn.get_nodes()] lists. *)
Definition get_jenkins_name (nodes : list str) (uuid : str) : option str :=
  List.find (λ name, contains name uuid) nodes.

(** The keyword arguments of [create_node]; [storage] may be left out. *)
Record create_kw := {
  kw_name : str;
  kw_size : str;
  kw_image_name : str;
  kw_script : str;
  kw_keyname : str;
  kw_storage : option Z
}.

(** An image and a size of the provider, by name. *)
Record NodeImage := { image_name : str }.
Record NodeSize := { size_name : str }.

Section Cleanup.

Variable World : Type.
(** [conn.node_exists(name)] and [conn.delete_node(name)] of the Jenkins
    connection *)
Variable jenkins_node_exists : str → World → driver_result bool * World.
Variable jenkins_delete_node : str → World → driver_result unit * World.

Definition delete_jenkins_node (name : option str) : M World unit :=
  match name with
  | Some (c :: name') =>
      do found <- call World (jenkins_node_exists (c :: name'));
      if found : bool
      then do_ call World (jenkins_delete_node (c :: name')); ret tt
      else ret tt
  | _ => ret tt
  end.

Definition delete_provider_node (provider_ : Provider World) (name : str)
  : M World unit :=
  try_except (provider_destroy_node provider_ name)
    (λ e, match e with
          | CloudNodeNotFound => ret tt
          | _ => ret tt
          end).

End Cleanup.

Section OpenStackCreate.

Variable World : Type.
Variable list_images : World → driver_result (list NodeImage) * World.
Variable list_sizes : World → driver_result (list NodeSize) * World.
(** [driver.create_node(name, image, size, ex_userdata, ex_keyname)]; the
    node may come back as a value that counts as false. *)
Variable driver_create_node :
  str → NodeImage → NodeSize → str → str →
  World → driver_result (option CloudNode) * World.
Variable create_volume : Z → str → World → driver_result Volume * World.
Variable list_volumes : World → driver_result (list Volume) * World.
Variable wait_until_running :
  list CloudNode → World → driver_result unit * World.
(** [driver.attach_volume(node, volume, device) is True] *)
Variable attach_volume :
  CloudNode → Volume → str → World → driver_result bool * World.
Variable sleep : Z → World → World.
(** The classes of exceptions that are subclasses of [ssl.SSLError], which
    [except SSLError] catches with [SSLError] itself *)
Variable subclass_of_SSLError : str → bool.

(** [create_node] on its keyword arguments; [None] when [fuel] was not
    enough for the wait. *)
Definition create_node (fuel : nat) (kw : create_kw)
  : M World (option unit) :=
  let name := kw_name kw in
  do images <- call World list_images;
  do sizes <- call World list_sizes;
  let available_sizes :=
    List.filter (λ s, bool_decide (size_name s = kw_size kw)) sizes in
  match available_sizes with
  | [] => ret (Some tt)
  | size :: _ =>
      let storage := kw_storage kw in
      let matching_images :=
        List.filter (λ i, bool_decide (image_name i = kw_image_name kw))
          images in
      match matching_images with
      | [] => ret (Some tt)
      | image :: _ =>
          do new_node <-
            try_except
              (call World
                 (driver_create_node name image size (kw_script kw)
                    (kw_keyname kw)))
              (λ e, match e with
                    | External class =>
                        if bool_decide (class = u "SSLError")
                           || subclass_of_SSLError class
                        then ret None else raise e
                    | _ => raise e
                    end);
          match new_node with
          | None => ret (Some tt)
          | Some new_node =>
              match storage with
              | Some gb =>
                  if gb =? 0 then ret (Some tt)
                  else
                    do new_volume <- call World (create_volume gb name);
                    do waited <-
                      _wait_until_volume_available World list_volumes sleep
                        fuel new_volume true;
                    match waited with
                    | None => ret None
                    | Some _ =>
                        do_ call World (wait_until_running [new_node]);
                        do attached <-
                          call World
                            (attach_volume new_node new_volume (u "/dev/vdb"));
                        if attached : bool then ret (Some tt)
                        else raise RuntimeError
                    end
              | None => ret (Some tt)
              end
          end
      end
  end.

End OpenStackCreate.

(** The reasons Jenkins gives for a label [label], as the docstring of
    [check_queue] lists them. *)
Definition offline_label_reason (label : str) : str :=
  u "All nodes of label " ++ [lsquo] ++ label ++ [rsquo] ++ u " are offline".
Definition no_nodes_reason (label : str) : str :=
  u "There are no nodes with the label " ++ [lsquo] ++ label ++ [rsquo].

(** A record of deletion in a list of requests comes right after the
    request to destroy that node, and a commit follows it. *)
Inductive reaped : list event → Prop :=
  | reaped_nil : reaped []
  | reaped_destroy (node : Node) (rest : list event) :
      reaped rest →
      reaped (DestroyNode (provider node) (cloud_name node) :: rest)
  | reaped_delete (node : Node) (rest : list event) :
      reaped rest →
      reaped (DestroyNode (provider node) (cloud_name node)
                :: NodeDelete node :: Commit :: rest)
  | reaped_purge (name : str) (rest : list event) :
      reaped rest → reaped (Purge name :: rest)
  | reaped_rollback (rest : list event) :
      reaped rest → reaped (Rollback :: rest).

(** Two machines, one of them in the state [error], and a cloud that runs
    [machines] and whose next listings of volumes are [polls]. *)
Definition running_machine : CloudNode :=
  {| node_name := u "centos6__b56d0e4a";
     node_state := StateName (u "running");
     node_str := u "<Node: name=centos6__b56d0e4a, state=RUNNING>" |}.
Definition failed_machine : CloudNode :=
  {| node_name := u "trusty__77c2a1f0";
     node_state := StateName (u "error");
     node_str := u "<Node: name=trusty__77c2a1f0, state=ERROR>" |}.
Definition cloud_running (machines : list CloudNode)
    (polls : list (list Volume)) : cloud :=
  {| clock := 0; registry := []; jenkins_names := [];
     cloud_nodes := machines; volume_polls := polls |}.

(** A provider with one image and one size, which creates what it is asked
    for. *)
Definition cloud_list_images (w : cloud)
  : driver_result (list NodeImage) * cloud :=
  (Returns [{| image_name := u "CentOS 6" |}], w).
Definition cloud_list_sizes (w : cloud)
  : driver_result (list NodeSize) * cloud :=
  (Returns [{| size_name := u "m1.small" |}], w).
Definition cloud_create_node (name : str) (image : NodeImage)
    (size : NodeSize) (script keyname : str) (w : cloud)
  : driver_result (option CloudNode) * cloud :=
  let node := {| node_name := name; node_state := StateName (u "pending");
                 node_str := u "<Node: state=PENDING>" |} in
  (Returns (Some node),
   {| clock := clock w; registry := registry w;
      jenkins_names := jenkins_names w;
      cloud_nodes := cloud_nodes w ++ [node];
      volume_polls := volume_polls w |}).
Definition cloud_create_volume (gb : Z) (name : str) (w : cloud)
  : driver_result Volume * cloud :=
  (Returns {| volume_name := name; volume_state := StateName (u "creating") |},
   w).
Definition cloud_wait_until_running (nodes : list CloudNode) (w : cloud)
  : driver_result unit * cloud :=
  (Returns tt, w).
Definition cloud_attach_volume (node : CloudNode) (volume : Volume)
    (device : str) (w : cloud) : driver_result bool * cloud :=
  (Returns true, w).

(** The subclasses of [ssl.SSLError] in the [ssl] module. *)
Definition ssl_subclass (class : str) : bool :=
  bool_decide (class ∈ [u "SSLZeroReturnError"; u "SSLWantReadError";
                        u "SSLWantWriteError"; u "SSLSyscallError";
                        u "SSLEOFError"]).

(** The keyword arguments for a [centos6] machine with 10 GB of storage. *)
Definition small_centos6 : create_kw :=
  {| kw_name := u "centos6__b56d0e4a";
     kw_size := u "m1.small";
     kw_image_name := u "CentOS 6";
     kw_script := u "#!/bin/bash";
     kw_keyname := u "jenkins";
     kw_storage := Some 10 |}.

(** Some of the states of [types.NodeState]. *)
Definition example_states : list (str * state_value) :=
  [(u "RUNNING", StateNumber 0); (u "REBOOTING", StateNumber 1);
   (u "TERMINATED", StateNumber 2); (u "ERROR", StateName (u "error"))].

(** The same machine in a size the provider does not have. *)
Definition huge_centos6 : create_kw :=
  {| kw_name := u "centos6__b56d0e4a";
     kw_size := u "m1.huge";
     kw_image_name := u "CentOS 6";
     kw_script := u "#!/bin/bash";
     kw_keyname := u "jenkins";
     kw_storage := Some 10 |}.

(** ** The string methods meet their meaning *)

Lemma startswith_prefix (s p : str) :
  startswith s p = true ↔ p `prefix_of` s.
Proof.
  revert s. induction p as [|c p IH]; intros s; simpl.
  - split; [intros _; apply prefix_nil | done].
  - destruct s as [|d s].
    + split; [done | intros H; by apply prefix_nil_not in H].
    + rewrite andb_true_iff, N.eqb_eq, IH. split.
      * intros [-> H]. by apply prefix_cons.
      * intros H. split.
        -- by apply prefix_cons_inv_1 in H.
        -- by apply prefix_cons_inv_2 in H.
Qed.

Lemma endswith_suffix (s p : str) :
  endswith s p = true ↔ p `suffix_of` s.
Proof.
  unfold endswith. rewrite startswith_prefix.
  symmetry. apply suffix_prefix_reverse.
Qed.

Lemma contains_infix (s sub : str) :
  contains s sub = true ↔ infix_of sub s.
Proof.
  induction s as [|c s IH].
  - simpl. rewrite orb_false_r, startswith_prefix. split.
    + intros [k ->]. by exists [], k.
    + intros (before & after & H).
      destruct before; [by exists after | done].
  - cbn [contains]. rewrite orb_true_iff, startswith_prefix, IH. split.
    + intros [[k ->] | (before & after & ->)].
      * by exists [], k.
      * by exists (c :: before), after.
    + intros (before & after & H). destruct before as [|d before].
      * left. by exists after.
      * right. injection H as -> ->. by exists before, after.
Qed.

Lemma contains_false_infix (s sub : str) :
  contains s sub = false ↔ ¬ infix_of sub s.
Proof.
  rewrite <- contains_infix. destruct (contains s sub); naive_solver.
Qed.

(** The first element a test accepts, as a fact about the list. *)
Lemma find_Some_first {A} (f : A → bool) (l : list A) (x : A) :
  List.find f l = Some x ↔
  ∃ before after, l = before ++ x :: after ∧ f x = true ∧
                  ∀ y, y ∈ before → f y = false.
Proof.
  induction l as [|a l IH]; simpl.
  - split; [done | intros (before & after & H & _); by destruct before].
  - destruct (f a) eqn:Ha.
    + split.
      * intros [= ->]. exists [], l. split_and!; [done .. |].
        intros y Hy. by apply elem_of_nil in Hy.
      * intros (before & after & H & Hx & Hbefore).
        destruct before as [|b before].
        -- by injection H as ->.
        -- injection H as -> _. rewrite Hbefore in Ha; [done | left].
    + rewrite IH. split.
      * intros (before & after & -> & Hx & Hbefore).
        exists (a :: before), after. split_and!; [done .. |].
        intros y [-> | Hy]%elem_of_cons; auto.
      * intros (before & after & H & Hx & Hbefore).
        destruct before as [|b before].
        -- injection H as -> _. congruence.
        -- injection H as -> ->. exists before, after. split_and!; [done .. |].
           intros y Hy. apply Hbefore. by right.
Qed.

Lemma find_None_all {A} (f : A → bool) (l : list A) :
  List.find f l = None ↔ ∀ y, y ∈ l → f y = false.
Proof.
  induction l as [|a l IH]; simpl.
  - split; [intros _ y Hy; by apply elem_of_nil in Hy | done].
  - destruct (f a) eqn:Ha.
    + split; [done | intros H; rewrite H in Ha; [done | left]].
    + rewrite IH. split.
      * intros H y [-> | Hy]%elem_of_cons; auto.
      * intros H y Hy. apply H. by right.
Qed.

Lemma py_index_last {A} (l : list A) (x : A) :
  last l = Some x → py_index l (-1) = Ok x.
Proof.
  intros H. unfold py_index. change (-1 <? 0) with true. cbv beta iota zeta.
  assert (length l ≠ 0%nat) as Hlen by (by destruct l).
  destruct (Z.ltb_spec (-1 + Z.of_nat (length l)) 0) as [?|_]; [lia |].
  rewrite last_lookup in H.
  replace (Z.to_nat (-1 + Z.of_nat (length l))) with (pred (length l)) by lia.
  by rewrite H.
Qed.

(** ** The queue classifier *)

(** Unfold the five tests and decide them one after the other. *)
Ltac unfold_summaries :=
  unfold match_node_processor, is_stuck, lambdas.busy_summary,
    lambdas.offline_label_summary, lambdas.offline_node_summary,
    lambdas.offline_node_label_summary, lambdas.node_does_not_have_label,
    stuck.busy_summary, stuck.offline_label_summary,
    stuck.offline_node_summary, stuck.offline_node_label_summary,
    stuck.node_does_not_have_label.



(** ** Looking a name up in the catalog *)

(** C5: for a non-empty lookup key, [get_key] returns the key itself when
    it is a key of the catalog; otherwise, with the fallback on, it returns
    the first key of the catalog that occurs in the lookup key, and [None]
    when no key does. *)
Theorem get_key_verbatim_or_first_substring (_dict : Catalog) (key : str) :
  key ≠ [] →
  (key ∈ _dict.*1 → get_key _dict (Some key) true = Some key) ∧
  (key ∉ _dict.*1 →
   (∀ name,
      get_key _dict (Some key) true = Some name ↔
      ∃ before after,
        _dict.*1 = before ++ name :: after ∧ infix_of name key ∧
        ∀ other, other ∈ before → ¬ infix_of other key) ∧
   (get_key _dict (Some key) true = None ↔
    ∀ name, name ∈ _dict.*1 → ¬ infix_of name key)).
Proof.
  intros Hkey. destruct key as [|c key]; [done |]. unfold get_key. split.
  - intros Hin. by rewrite bool_decide_true.
  - intros Hnotin. rewrite bool_decide_false by done. split.
    + intros name. rewrite find_Some_first.
      setoid_rewrite contains_infix. setoid_rewrite contains_false_infix.
      done.
    + rewrite find_None_all. by setoid_rewrite contains_false_infix.
Qed.

(** The lookup of [10.0.0.1__centos6__huge] in a catalog whose only key is
    [centos6]. *)
Lemma get_key_fallback_centos6 :
  get_key [(u "centos6", centos6)] (Some (u "10.0.0.1__centos6__huge")) true
  = Some (u "centos6").
Proof.
  apply (get_key_verbatim_or_first_substring
           [(u "centos6", centos6)] (u "10.0.0.1__centos6__huge")).
  - done.
  - apply (proj1 (bool_decide_eq_false _)). by vm_compute.
  - exists [], []. split_and!.
    + done.
    + by exists (u "10.0.0.1__"), (u "__huge").
    + intros other Hother. by apply elem_of_nil in Hother.
Defined.

(** ** The busy resolver *)

Lemma match_node_busy (conf_nodes : Catalog)
    (jenkins_node_config : str → node_config_response) (string : str) :
  u "Waiting for" `prefix_of` string →
  match_node conf_nodes jenkins_node_config string =
  from_label conf_nodes jenkins_node_config string.
Proof.
  intros H%startswith_prefix. unfold match_node. unfold_summaries.
  by rewrite H.
Qed.

(** C3, as amended: for a reason that starts with [Waiting for] and whose
    last word, rid of the curly quotes, is a non-empty key of the catalog,
    [from_label] (and [match_node] through it) returns that key. *)
Theorem from_label_returns_catalog_key (conf_nodes : Catalog)
    (jenkins_node_config : str → node_config_response)
    (string token : str) :
  u "Waiting for" `prefix_of` string →
  last (split_ws string) = Some token →
  sanitize_string token false ∈ conf_nodes.*1 →
  sanitize_string token false ≠ [] →
  from_label conf_nodes jenkins_node_config string
  = Ok (Some (sanitize_string token false)) ∧
  match_node conf_nodes jenkins_node_config string
  = Ok (Some (sanitize_string token false)).
Proof.
  intros Hbusy Hlast Hin Hne.
  assert (from_label conf_nodes jenkins_node_config string
          = Ok (Some (sanitize_string token false))) as Hfrom.
  { unfold from_label. rewrite (py_index_last _ _ Hlast).
    destruct (sanitize_string token false) as [|c key] eqn:Hkey; [done |].
    unfold get_nodes.
    assert (get_key conf_nodes (Some (c :: key)) true = Some (c :: key)) as ->.
    { unfold get_key. by rewrite bool_decide_true. }
    done. }
  split; [done |]. by rewrite match_node_busy, Hfrom.
Qed.

(** The reason [Waiting for next available executor on centos6] against
    the catalog of the examples. *)
Lemma from_label_centos6 :
  from_label example_nodes no_node_config
    (u "Waiting for next available executor on centos6")
  = Ok (Some (u "centos6")) ∧
  match_node example_nodes no_node_config
    (u "Waiting for next available executor on centos6")
  = Ok (Some (u "centos6")).
Proof.
  apply (from_label_returns_catalog_key example_nodes no_node_config
           (u "Waiting for next available executor on centos6") (u "centos6")).
  - by exists (u " next available executor on centos6").
  - by vm_compute.
  - apply (bool_decide_unpack _). by vm_compute.
  - done.
Defined.

(** C3 fails for the empty key: the last word of [quote_reason] is a lone
    quote, without it the word is the empty string, which is a key of
    [empty_key_nodes]; [from_label] returns [None] all the same. *)
Lemma from_label_empty_key_unresolved :
  u "Waiting for" `prefix_of` quote_reason ∧
  last (split_ws quote_reason) = Some [rsquo] ∧
  sanitize_string [rsquo] false ∈ empty_key_nodes.*1 ∧
  from_label empty_key_nodes no_node_config quote_reason = Ok None ∧
  from_label empty_key_nodes no_node_config quote_reason
  ≠ Ok (Some (sanitize_string [rsquo] false)).
Proof.
  split_and!.
  - by exists (u " " ++ [rsquo]).
  - by vm_compute.
  - apply (bool_decide_unpack _). by vm_compute.
  - by vm_compute.
  - by vm_compute.
Qed.

(** ** Label expressions and label lists *)

(** Characters that do not start the separator go to the current piece. *)
Lemma split_go_passes (d : N) (sep a cur rest : str) :
  d ∉ a →
  split_go (d :: sep) 0 cur (a ++ rest)
  = split_go (d :: sep) 0 (reverse a ++ cur) rest.
Proof.
  revert cur. induction a as [|c a IH]; intros cur Ha; [done |].
  apply not_elem_of_cons in Ha as [Hc Ha].
  cbn [app split_go startswith].
  rewrite (proj2 (N.eqb_neq d c)) by done. cbn [andb].
  rewrite IH by done.
  by rewrite reverse_cons, <- app_assoc.
Qed.

Lemma split_and_two (a b : str) :
  38%N ∉ a → 38%N ∉ b → split (a ++ u "&&" ++ b) (u "&&") = [a; b].
Proof.
  intros Ha Hb. unfold split. change (u "&&") with [38%N; 38%N].
  rewrite split_go_passes by done.
  cbn [app split_go startswith length Nat.sub].
  rewrite N.eqb_refl. cbn [andb].
  rewrite <- (app_nil_r b), split_go_passes by done.
  cbn [split_go]. by rewrite !app_nil_r, !reverse_involutive.
Qed.

Lemma head_filter_find {A} (f : A → bool) (l : list A) :
  head (List.filter f l) = List.find f l.
Proof.
  induction l as [|x l IH]; [done |]. simpl. by destruct (f x).
Qed.

Lemma or_get_nodes_same (conf_nodes : Catalog) :
  or_get_nodes conf_nodes (Some conf_nodes) = conf_nodes.
Proof. by destruct conf_nodes. Qed.

(** [match_node_from_label_expr] returns the first match. *)
Lemma match_node_from_label_expr_find (conf_nodes : Catalog) (c : N)
    (expr : str) (configured_nodes : option Catalog) :
  match_node_from_label_expr conf_nodes (Some (c :: expr)) configured_nodes
  = fst <$>
    List.find
      (λ entry,
         forallb (λ l, bool_decide (l ∈ labels entry.2))
           (split (c :: expr) (u "&&")))
      (or_get_nodes conf_nodes configured_nodes).
Proof.
  unfold match_node_from_label_expr, matching_nodes.
  rewrite <- head_filter_find.
  by destruct (List.filter _ _).
Qed.

(** C4: against the configured catalog, the expression [a&&b] resolves
    exactly when some entry carries both labels, and the node type it
    resolves to is the first such entry of the catalog. The labels hold no
    [&]. *)
Theorem label_expr_resolves_iff_superset (conf_nodes : Catalog) (a b : str) :
  38%N ∉ a → 38%N ∉ b →
  (is_Some (match_node_from_label_expr conf_nodes
              (Some (a ++ u "&&" ++ b)) (Some conf_nodes)) ↔
   ∃ entry, entry ∈ conf_nodes ∧ a ∈ labels entry.2 ∧ b ∈ labels entry.2) ∧
  (∀ node,
     match_node_from_label_expr conf_nodes
       (Some (a ++ u "&&" ++ b)) (Some conf_nodes) = Some node ↔
     ∃ before config after,
       conf_nodes = before ++ (node, config) :: after ∧
       (a ∈ labels config ∧ b ∈ labels config) ∧
       ∀ entry, entry ∈ before →
                ¬ (a ∈ labels entry.2 ∧ b ∈ labels entry.2)) ∧
  match_node_from_label_expr conf_nodes (Some (a ++ u "&&" ++ b)) None
  = match_node_from_label_expr conf_nodes
      (Some (a ++ u "&&" ++ b)) (Some conf_nodes).
Proof.
  intros Ha Hb.
  pose (both := λ entry : str * NodeConfig,
          bool_decide (a ∈ labels entry.2) &&
          (bool_decide (b ∈ labels entry.2) && true)).
  assert (∀ entry, both entry = true ↔
                   a ∈ labels entry.2 ∧ b ∈ labels entry.2) as Hboth.
  { intros entry. unfold both.
    rewrite !andb_true_iff, !bool_decide_eq_true. tauto. }
  assert (∀ entry, both entry = false ↔
                   ¬ (a ∈ labels entry.2 ∧ b ∈ labels entry.2)) as Hnot.
  { intros entry. rewrite <- Hboth. by destruct (both entry). }
  assert (∀ configured_nodes,
            match_node_from_label_expr conf_nodes
              (Some (a ++ u "&&" ++ b)) configured_nodes
            = fst <$> List.find both
                        (or_get_nodes conf_nodes configured_nodes)) as Hfind.
  { intros configured_nodes.
    destruct (a ++ u "&&" ++ b) as [|c expr] eqn:Hexpr.
    { by destruct a. }
    rewrite match_node_from_label_expr_find, <- Hexpr.
    by rewrite split_and_two. }
  rewrite !Hfind, or_get_nodes_same. split_and!.
  - rewrite fmap_is_Some. split.
    + intros [entry (before & after & -> & Hentry & _)%find_Some_first].
      exists entry. split; [| by apply Hboth].
      apply elem_of_app. right. left.
    + intros (entry & Hin & Hentry).
      destruct (List.find both conf_nodes) as [found|] eqn:Hfound; [done |].
      rewrite find_None_all in Hfound.
      apply Hboth in Hentry. by rewrite (Hfound entry Hin) in Hentry.
  - intros node. rewrite fmap_Some. split.
    + intros ([node' config] & Hfound & ->). simpl.
      apply find_Some_first in Hfound as (before & after & -> & Hentry & Hbefore).
      exists before, config, after.
      split; [done |]. split; [by apply (Hboth (node', config)) |].
      intros entry Hin. apply Hnot. by apply Hbefore.
    + intros (before & config & after & -> & Hentry & Hbefore).
      exists (node, config). split; [| done].
      apply find_Some_first. exists before, after.
      split; [done |]. split; [by apply Hboth |].
      intros entry Hin. apply Hnot. by apply Hbefore.
  - by destruct conf_nodes.
Qed.

(** The expression [amd64&&trusty] against the catalog of the examples. *)
Lemma label_expr_amd64_trusty :
  match_node_from_label_expr example_nodes
    (Some (u "amd64" ++ u "&&" ++ u "trusty")) (Some example_nodes)
  = Some (u "trusty").
Proof.
  assert (38%N ∉ u "amd64") as Ha
    by (apply (proj1 (bool_decide_eq_false _)); by vm_compute).
  assert (38%N ∉ u "trusty") as Hb
    by (apply (proj1 (bool_decide_eq_false _)); by vm_compute).
  destruct (label_expr_resolves_iff_superset example_nodes _ _ Ha Hb)
    as (_ & Hfirst & _).
  apply Hfirst. exists [(u "centos6", centos6)], trusty, [].
  split; [done |]. split; [split |].
  - apply (bool_decide_unpack _). by vm_compute.
  - apply (bool_decide_unpack _). by vm_compute.
  - intros entry ->%list_elem_of_singleton [H _]. revert H.
    apply (proj1 (bool_decide_eq_false _)). by vm_compute.
Defined.

(** C10: [match_node_from_labels] matches nothing when the list of labels
    is absent or empty, whatever the catalog, although an empty list of
    labels is contained in the labels of every entry; so a node type that
    [match_node_from_matrix_job_name] returns was chosen for a label the
    job name gave: the labels read off the name are not empty and the
    entry of that node type has them all. *)
Theorem match_node_from_labels_needs_a_label (conf_nodes : Catalog)
    (configured_nodes : option Catalog) :
  match_node_from_labels conf_nodes None configured_nodes = None ∧
  match_node_from_labels conf_nodes (Some []) configured_nodes = None ∧
  (∀ config : list str, forallb (λ l, bool_decide (l ∈ config)) [] = true) ∧
  ∀ job_name node,
    match_node_from_matrix_job_name conf_nodes job_name = Ok (Some node) →
    ∃ labels_ config,
      matrix_job_labels job_name = Ok labels_ ∧ labels_ ≠ [] ∧
      (node, config) ∈ conf_nodes ∧ ∀ l, l ∈ labels_ → l ∈ labels config.
Proof.
  split_and!; [done .. |].
  intros job_name node. unfold match_node_from_matrix_job_name.
  destruct (matrix_job_labels job_name) as [labels_|e]; [| done]. simpl.
  intros [= Hnode]. destruct labels_ as [|l0 labels_]; [done |].
  unfold match_node_from_labels, or_get_nodes, get_nodes in Hnode.
  apply fmap_Some in Hnode as ([node' config] & Hfound & ->).
  apply find_Some_first in Hfound as (before & after & -> & Hall & _).
  exists (l0 :: labels_), config. split_and!; [done | done | |].
  - apply elem_of_app. right. left.
  - intros l Hl. rewrite forallb_forall in Hall.
    apply (bool_decide_eq_true_1 (l ∈ labels config)), (Hall l).
    by apply list_elem_of_In.
Qed.

(** The matrix job name [ARCH=x86_64,DIST=centos6] against the catalog of
    the examples. *)
Lemma matrix_job_name_centos6 :
  ∃ labels_ config,
    matrix_job_labels (u "ARCH=x86_64,DIST=centos6") = Ok labels_ ∧
    labels_ ≠ [] ∧ (u "centos6", config) ∈ example_nodes ∧
    ∀ l, l ∈ labels_ → l ∈ labels config.
Proof.
  destruct (match_node_from_labels_needs_a_label example_nodes None)
    as (_ & _ & _ & Hmatrix).
  apply Hmatrix. by vm_compute.
Defined.

(** ** The idle reporter *)

Lemma get_mita_api_nodes (server_host server_port : str) (args : list str) :
  get_mita_api server_host server_port (Some (u "nodes")) args
  = Ok (api_nodes server_host server_port args).
Proof. reflexivity. Qed.

(** One run on one node of this service posts one report, for the flag it
    observes. *)
Lemma check_idling_one (server_host server_port name : str) (idle : bool) :
  (1 < length (split name (u "__")))%nat →
  check_idling server_host server_port [name] (λ _, idle)
  = Ok [if idle
        then mark_idle server_host server_port
               (List.last (split name (u "__")) [])
        else mark_active server_host server_port
               (List.last (split name (u "__")) [])].
Proof.
  intros Hname%Nat.ltb_lt. unfold check_idling. cbn [List.filter].
  rewrite Hname. cbn [mapM_result]. rewrite !get_mita_api_nodes.
  by destruct idle.
Qed.

(** C7, as amended: every run of [check_idling] reports a node of this
    service once, idle or active as the run observes it, whatever the
    previous run observed; so idle and then not idle gives [mark idle]
    and then [mark active], once each. *)
Theorem idle_passes_report_every_poll (server_host server_port name : str)
    (observed : list bool) :
  (1 < length (split name (u "__")))%nat →
  idle_passes server_host server_port name observed
  = Ok ((λ idle : bool,
           if idle
           then mark_idle server_host server_port
                  (List.last (split name (u "__")) [])
           else mark_active server_host server_port
                  (List.last (split name (u "__")) []))
          <$> observed) ∧
  idle_passes server_host server_port name [true; false]
  = Ok [mark_idle server_host server_port
          (List.last (split name (u "__")) []);
        mark_active server_host server_port
          (List.last (split name (u "__")) [])].
Proof.
  intros Hname.
  assert (∀ flags,
            idle_passes server_host server_port name flags
            = Ok ((λ idle : bool,
                     if idle
                     then mark_idle server_host server_port
                            (List.last (split name (u "__")) [])
                     else mark_active server_host server_port
                            (List.last (split name (u "__")) []))
                    <$> flags)) as Hall.
  { unfold idle_passes. induction flags as [|idle flags IH]; [done |].
    cbn [mapM_result]. rewrite check_idling_one by done. cbn [rbind].
    destruct (mapM_result _ flags) as [posted|e]; [| done].
    cbn [rbind] in *. injection IH as IH.
    rewrite fmap_cons. cbn [concat app]. by rewrite IH. }
  split; [apply Hall | apply (Hall [true; false])].
Qed.

(** Two runs on [managed_name], idle and then active. *)
Lemma idle_passes_idle_then_active :
  idle_passes api_host api_port managed_name [true; false]
  = Ok [mark_idle api_host api_port (u "b56d0e4a");
        mark_active api_host api_port (u "b56d0e4a")].
Proof.
  apply (idle_passes_report_every_poll api_host api_port managed_name
           [true; false]).
  apply Nat.ltb_lt. by vm_compute.
Defined.

(** C7 fails where it rules out a repeated report: two runs that both find
    the node idle post [mark idle] twice, while a reporter that reports
    changes only would post it once. *)
Lemma idle_passes_repeat_unchanged :
  idle_passes api_host api_port managed_name [true; true]
  = Ok [mark_idle api_host api_port (u "b56d0e4a");
        mark_idle api_host api_port (u "b56d0e4a")] ∧
  reports_on_change (mark_idle api_host api_port (u "b56d0e4a"))
    (mark_active api_host api_port (u "b56d0e4a")) None [true; true]
  = [mark_idle api_host api_port (u "b56d0e4a")] ∧
  idle_passes api_host api_port managed_name [true; true]
  ≠ Ok (reports_on_change (mark_idle api_host api_port (u "b56d0e4a"))
          (mark_active api_host api_port (u "b56d0e4a")) None [true; true]).
Proof. split_and!; by vm_compute. Qed.

(** ** The OpenStack provider *)

Section OpenStackFacts.

Variable World : Type.
Variable list_nodes : World → driver_result (list CloudNode) * World.
Variable driver_destroy_node : CloudNode → World → driver_result bool * World.
Variable list_volumes : World → driver_result (list Volume) * World.
Variable driver_destroy_volume : Volume → World → driver_result bool * World.
Variable node_destroy : CloudNode → World → driver_result bool * World.
Variable sleep : Z → World → World.

(** A call of the driver returns or raises an exception of the library. *)
Lemma call_outcome {A} (op : World → driver_result A * World) (w : World) :
  (∃ a w', op w = (Returns a, w') ∧ call World op w = (Ok a, w')) ∨
  (∃ class w', op w = (Fails class, w') ∧
               call World op w = (Raise (External class), w')).
Proof.
  unfold call. destruct (op w) as [[a|class] w']; [left | right]; eauto.
Qed.

Lemma get_volume_outcome (name : str) (w : World) :
  (∃ v w', get_volume World list_volumes name w = (Ok v, w')) ∨
  (∃ class w', list_volumes w = (Fails class, w') ∧
               get_volume World list_volumes name w
               = (Raise (External class), w')).
Proof.
  unfold get_volume, bind.
  destruct (call_outcome list_volumes w)
    as [(volumes & w' & _ & ->) | (class & w' & H & ->)].
  - left. destruct (List.filter _ volumes); unfold ret; eauto.
  - right. eauto.
Qed.

(** One iteration of the loop. *)
Lemma wait_loop_step (fuel : nat) (ok_states : list state_value)
    (volume : Volume) (tries : Z) (w : World) :
  wait_loop World list_volumes sleep (S fuel) ok_states volume tries w
  = if bool_decide (volume_state volume ∈ ok_states) then
      match get_volume World list_volumes (volume_name volume) (sleep 3 w)
      with
      | (Ok v, w') =>
          if tries + 1 >? 10 then (Ok (Some (v, tries + 1)), w')
          else if bool_decide (volume_state v = StateName (u "notfound"))
          then (Ok (Some (v, tries + 1)), w')
          else wait_loop World list_volumes sleep fuel ok_states v
                 (tries + 1) w'
      | (Raise e, w') => (Raise e, w')
      end
    else (Ok (Some (volume, tries)), w).
Proof.
  cbn [wait_loop]. unfold bind, ret.
  destruct (bool_decide (volume_state volume ∈ ok_states)); [| done].
  destruct (get_volume World list_volumes (volume_name volume) (sleep 3 w))
    as [[v|e] w']; [| done].
  destruct (tries + 1 >? 10); [done |].
  by destruct (bool_decide (volume_state v = StateName (u "notfound"))).
Qed.

(** The loop ends within the eleven polls the counter allows: it is
    never out of fuel, and what it raises comes from the driver. *)
Lemma wait_loop_bounded (fuel : nat) (ok_states : list state_value)
    (volume : Volume) (tries : Z) (w : World) :
  0 ≤ tries ≤ 10 → 11 - tries ≤ Z.of_nat fuel →
  (∃ final polls w',
     wait_loop World list_volumes sleep fuel ok_states volume tries w
     = (Ok (Some (final, polls)), w') ∧ tries ≤ polls ≤ 11) ∨
  (∃ class w1 w',
     list_volumes w1 = (Fails class, w') ∧
     wait_loop World list_volumes sleep fuel ok_states volume tries w
     = (Raise (External class), w')).
Proof.
  revert volume tries w.
  induction fuel as [|fuel IH]; intros volume tries w Htries Hfuel; [lia |].
  rewrite wait_loop_step.
  destruct (bool_decide (volume_state volume ∈ ok_states)).
  2: { left. exists volume, tries, w. split; [done | lia]. }
  destruct (get_volume_outcome (volume_name volume) (sleep 3 w))
    as [(v & w' & Hv) | (class & w' & Hfails & Hv)]; rewrite Hv.
  2: { right. by exists class, (sleep 3 w), w'. }
  destruct (Z.gtb_spec (tries + 1) 10) as [Hmax | Hmore].
  { left. exists v, (tries + 1), w'. split; [done | lia]. }
  destruct (bool_decide (volume_state v = StateName (u "notfound"))).
  { left. exists v, (tries + 1), w'. split; [done | lia]. }
  destruct (IH v (tries + 1) w' ltac:(lia) ltac:(lia))
    as [(final & polls & w'' & -> & Hpolls) | (class & w1 & w'' & H & ->)].
  - left. exists final, polls, w''. split; [done | lia].
  - right. by exists class, w1, w''.
Qed.

(** C9: the wait for a volume ends, whatever states the polls observe:
    with fuel for the eleven iterations the counter allows (a first poll
    and ten more), the loop is never cut short, it polls at most eleven
    times, and the function then returns [True], available or not; only
    an exception of the driver ends it otherwise. When the listing of
    volumes never fails, it returns [True]. *)
Theorem wait_until_volume_available_terminates (fuel : nat)
    (volume : Volume) (maybe_in_use : bool) (w : World) :
  (11 ≤ fuel)%nat →
  ((∃ final polls w',
      wait_loop World list_volumes sleep fuel
        (if maybe_in_use
         then [StateName (u "creating"); StateNumber 3]
                ++ [StateName (u "in_use")]
         else [StateName (u "creating"); StateNumber 3])
        volume 0 w
      = (Ok (Some (final, polls)), w') ∧ 0 ≤ polls ≤ 11 ∧
      _wait_until_volume_available World list_volumes sleep fuel volume
        maybe_in_use w = (Ok (Some true), w')) ∨
   (∃ class w1 w',
      list_volumes w1 = (Fails class, w') ∧
      _wait_until_volume_available World list_volumes sleep fuel volume
        maybe_in_use w = (Raise (External class), w'))) ∧
  ((∀ w1, ∃ volumes w2, list_volumes w1 = (Returns volumes, w2)) →
   ∃ w',
     _wait_until_volume_available World list_volumes sleep fuel volume
       maybe_in_use w = (Ok (Some true), w')).
Proof.
  intros Hfuel.
  assert ((∃ final polls w',
      wait_loop World list_volumes sleep fuel
        (if maybe_in_use
         then [StateName (u "creating"); StateNumber 3]
                ++ [StateName (u "in_use")]
         else [StateName (u "creating"); StateNumber 3])
        volume 0 w
      = (Ok (Some (final, polls)), w') ∧ 0 ≤ polls ≤ 11 ∧
      _wait_until_volume_available World list_volumes sleep fuel volume
        maybe_in_use w = (Ok (Some true), w')) ∨
   (∃ class w1 w',
      list_volumes w1 = (Fails class, w') ∧
      _wait_until_volume_available World list_volumes sleep fuel volume
        maybe_in_use w = (Raise (External class), w'))) as Hends.
  { unfold _wait_until_volume_available, bind.
    destruct (wait_loop_bounded fuel
                (if maybe_in_use
                 then [StateName (u "creating"); StateNumber 3]
                        ++ [StateName (u "in_use")]
                 else [StateName (u "creating"); StateNumber 3])
                volume 0 w ltac:(lia) ltac:(lia))
      as [(final & polls & w' & Hloop & Hpolls)
         | (class & w1 & w' & Hfails & Hloop)].
    - left. exists final, polls, w'. rewrite Hloop.
      split_and!; [done | lia | lia |].
      by destruct (negb _).
    - right. exists class, w1, w'. by rewrite Hloop. }
  split; [done |].
  intros Hlists.
  destruct Hends as [(final & polls & w' & _ & _ & ->)
                    | (class & w1 & w' & Hfails & _)]; [eauto |].
  destruct (Hlists w1) as (volumes & w2 & Hreturns). congruence.
Qed.

End OpenStackFacts.


Lemma cloud_list_volumes_returns (w : cloud) :
  ∃ volumes w', cloud_list_volumes w = (Returns volumes, w').
Proof. unfold cloud_list_volumes. destruct (volume_polls w); eauto. Qed.

(** The wait for a volume that stays in the state [creating]. *)
Lemma wait_until_volume_available_stuck_creating :
  ∃ w',
    _wait_until_volume_available cloud cloud_list_volumes cloud_sleep 11
      (data_volume (u "creating")) true cloud_stuck_creating
    = (Ok (Some true), w').
Proof.
  apply (wait_until_volume_available_terminates cloud cloud_list_volumes
           cloud_sleep 11 (data_volume (u "creating")) true
           cloud_stuck_creating).
  - lia.
  - apply cloud_list_volumes_returns.
Defined.

(** The eleven polls are reached: the counter of the loop ends at 11 for
    that volume. *)
Lemma wait_loop_eleven_polls :
  (wait_loop cloud cloud_list_volumes cloud_sleep 11
     [StateName (u "creating"); StateNumber 3; StateName (u "in_use")]
     (data_volume (u "creating")) 0 cloud_stuck_creating).1
  = Ok (Some (data_volume (u "creating"), 11)).
Proof. by vm_compute. Qed.

(** ** Destroying a node *)

Section DestroyFacts.

Variable World : Type.
Variable list_nodes : World → driver_result (list CloudNode) * World.
Variable driver_destroy_node : CloudNode → World → driver_result bool * World.
Variable list_volumes : World → driver_result (list Volume) * World.
Variable driver_destroy_volume : Volume → World → driver_result bool * World.
Variable node_destroy : CloudNode → World → driver_result bool * World.

Lemma destroy_volume_not_CloudNodeNotFound (name : str) (w : World) :
  (destroy_volume World list_volumes driver_destroy_volume name w).1
  ≠ Raise CloudNodeNotFound.
Proof.
  unfold destroy_volume, get_volume, bind, call, ret.
  destruct (list_volumes w) as [[volumes|class] w1]; [| done].
  destruct (List.filter _ volumes) as [|v rest].
  - by destruct (negb _); [destruct (driver_destroy_volume _ w1) as [[?|?] ?] |].
  - by destruct (negb _); [destruct (driver_destroy_volume _ w1) as [[?|?] ?] |].
Qed.

(** [destroy_node] after the nodes are listed. *)
Lemma destroy_node_listed (name : str) (w w' : World) (nodes : list CloudNode) :
  list_nodes w = (Returns nodes, w') →
  ((destroy_node World list_nodes driver_destroy_node list_volumes
      driver_destroy_volume name w).1 = Raise CloudNodeNotFound ↔
   ∀ node, node ∈ nodes → node_name node ≠ name).
Proof.
  intros Hlist. unfold destroy_node, bind at 1, call at 1. rewrite Hlist.
  clear Hlist. revert w'. induction nodes as [|node nodes IH]; intros w'.
  - split; [| done]. intros _ node Hnode. by apply elem_of_nil in Hnode.
  - case_bool_decide as Hname.
    + split.
      * unfold try_except, bind, call, raise, ret.
        destruct (driver_destroy_node node w') as [[[|]|class] w1];
          cbn [negb]; [| done | done].
        pose proof (destroy_volume_not_CloudNodeNotFound name w1) as Hvol.
        by destruct (destroy_volume _ _ _ name w1) as [[[]|e] w2].
      * intros Hall. exfalso. by apply (Hall node); [left |].
    + rewrite IH. split.
      * intros Hall other [-> | Hother]%elem_of_cons; auto.
      * intros Hall other Hother. apply Hall. by right.
Qed.

End DestroyFacts.

(** ** The orphan reaper *)

(** What [destroy_orphan] leaves behind: the request to destroy, then the
    removal of the record when, and only when, the provider raised
    [CloudNodeNotFound]; the loop goes on either way. *)
Lemma destroy_orphan_outcome (World : Type)
    (providers_get : str → Provider World) (node : Node) (w : World)
    (tr : list event) :
  destroy_orphan World providers_get node (w, tr)
  = let '(r, w1) :=
      provider_destroy_node (providers_get (provider node))
        (cloud_name node) w in
    (Ok tt,
     (w1,
      tr ++ DestroyNode (provider node) (cloud_name node) ::
        match r with
        | Raise CloudNodeNotFound => [NodeDelete node; Commit]
        | _ => []
        end)).
Proof.
  unfold destroy_orphan, try_except, bind, emit, in_world, ret. cbn [fst snd].
  destruct (provider_destroy_node _ _ w) as [[[]|e] w1]; [done |].
  destruct e; try done.
  cbn [fst snd]. by rewrite <- !app_assoc.
Qed.

(** C2: [destroy_node] of the OpenStack provider raises
    [CloudNodeNotFound] exactly when the driver lists the nodes and none of
    them has the name; the reaper, having asked for the destruction of a
    node, deletes its record exactly when the provider raised
    [CloudNodeNotFound], and after a destruction that succeeded or failed
    in another way it leaves the record alone and goes on. *)
Theorem orphan_record_deleted_iff_not_found (World : Type)
    (list_nodes : World → driver_result (list CloudNode) * World)
    (driver_destroy_node : CloudNode → World → driver_result bool * World)
    (list_volumes : World → driver_result (list Volume) * World)
    (driver_destroy_volume : Volume → World → driver_result bool * World)
    (node_destroy : CloudNode → World → driver_result bool * World) :
  (∀ name w,
     (destroy_node World list_nodes driver_destroy_node list_volumes
        driver_destroy_volume name w).1 = Raise CloudNodeNotFound ↔
     ∃ nodes w',
       list_nodes w = (Returns nodes, w') ∧
       ∀ node, node ∈ nodes → node_name node ≠ name) ∧
  (∀ (providers_get : str → Provider World) node w tr,
     ∃ w',
       (destroy_orphan World providers_get node (w, tr)
        = (Ok tt,
           (w', tr ++ [DestroyNode (provider node) (cloud_name node);
                       NodeDelete node; Commit])) ∧
        (provider_destroy_node (providers_get (provider node))
           (cloud_name node) w).1 = Raise CloudNodeNotFound) ∨
       (destroy_orphan World providers_get node (w, tr)
        = (Ok tt,
           (w', tr ++ [DestroyNode (provider node) (cloud_name node)])) ∧
        (provider_destroy_node (providers_get (provider node))
           (cloud_name node) w).1 ≠ Raise CloudNodeNotFound)) ∧
  (∀ node w,
     NodeDelete node ∈
       (destroy_orphan World
          (λ _, openstack list_nodes driver_destroy_node list_volumes
                  driver_destroy_volume node_destroy)
          node (w, [])).2.2 ↔
     ∃ nodes w',
       list_nodes w = (Returns nodes, w') ∧
       ∀ n, n ∈ nodes → node_name n ≠ cloud_name node).
Proof.
  assert (∀ name w,
     (destroy_node World list_nodes driver_destroy_node list_volumes
        driver_destroy_volume name w).1 = Raise CloudNodeNotFound ↔
     ∃ nodes w',
       list_nodes w = (Returns nodes, w') ∧
       ∀ node, node ∈ nodes → node_name node ≠ name) as Hdestroy.
  { intros name w. destruct (list_nodes w) as [[nodes|class] w'] eqn:Hlist.
    - rewrite (destroy_node_listed _ _ _ _ _ _ _ _ _ Hlist). split.
      + intros Hall. by exists nodes, w'.
      + by intros (nodes' & w'' & [= <- <-] & Hall).
    - split; [| by intros (? & ? & ? & _)].
      unfold destroy_node, bind, call. by rewrite Hlist. }
  assert (∀ (providers_get : str → Provider World) node w tr,
     ∃ w',
       (destroy_orphan World providers_get node (w, tr)
        = (Ok tt,
           (w', tr ++ [DestroyNode (provider node) (cloud_name node);
                       NodeDelete node; Commit])) ∧
        (provider_destroy_node (providers_get (provider node))
           (cloud_name node) w).1 = Raise CloudNodeNotFound) ∨
       (destroy_orphan World providers_get node (w, tr)
        = (Ok tt,
           (w', tr ++ [DestroyNode (provider node) (cloud_name node)])) ∧
        (provider_destroy_node (providers_get (provider node))
           (cloud_name node) w).1 ≠ Raise CloudNodeNotFound)) as Horphan.
  { intros providers_get node w tr. rewrite destroy_orphan_outcome.
    destruct (provider_destroy_node _ _ w) as [r w1]. exists w1.
    destruct (decide (r = Raise CloudNodeNotFound)) as [-> | Hr].
    - by left.
    - right. split; [| done]. destruct r as [[]|e]; [done |].
      by destruct e. }
  split_and!; [done | done |].
  intros node w. rewrite <- Hdestroy.
  destruct (Horphan
              (λ _, openstack list_nodes driver_destroy_node list_volumes
                      driver_destroy_volume node_destroy) node w [])
    as [w' [[-> Hr] | [-> Hr]]]; cbn [fst snd app].
  - split; [done |]. intros _. right. left.
  - split; [| done]. intros Hin. exfalso.
    apply elem_of_cons in Hin as [[=] | Hin]. by apply elem_of_nil in Hin.
Qed.

(** The [seconds] of a difference are the seconds of the age only for an
    age of less than a day. *)
Lemma seconds_within_a_day (us : Z) :
  0 ≤ us < 86400 * 1000000 →
  days (timedelta_of_microseconds us) = 0 ∧
  seconds (timedelta_of_microseconds us) = us / 1000000.
Proof.
  intros Hus. unfold timedelta_of_microseconds. cbn [days seconds].
  assert (0 ≤ us / 1000000 < 86400) as Hs.
  { split; [apply Z.div_pos; lia | apply Z.div_lt_upper_bound; lia]. }
  split; [by apply Z.div_small | by apply Z.mod_small].
Qed.

Lemma seconds_forget_days (us d : Z) :
  seconds (timedelta_of_microseconds (us + d * (86400 * 1000000)))
  = seconds (timedelta_of_microseconds us).
Proof.
  unfold timedelta_of_microseconds. cbn [seconds].
  replace (us + d * (86400 * 1000000)) with (us + (d * 86400) * 1000000) by lia.
  rewrite Z.div_add by lia. by rewrite Z.mod_add by lia.
Qed.

(** A node that Jenkins does not confirm: [reap] asks the provider to
    destroy it exactly when the [seconds] of its age exceed 900. *)
Lemma reap_unconfirmed (World : Type)
    (jenkins_node_exists : str → World → driver_result bool * World)
    (utcnow : World → datetime * World)
    (providers_get : str → Provider World)
    (node : Node) (w w1 w2 : World) (now : datetime) (tr : list event) :
  (truthy (jenkins_name node) = false ∧ w1 = w) ∨
  (∃ c name, jenkins_name node = Some (c :: name) ∧
             jenkins_node_exists (c :: name) w = (Returns false, w1)) →
  utcnow w1 = (now, w2) →
  reap World jenkins_node_exists utcnow providers_get node (w, tr)
  = if seconds (datetime_sub now (created node)) >? 900
    then destroy_orphan World providers_get node (w2, tr)
    else (Ok tt, (w2, tr)).
Proof.
  intros Hjenkins Hnow. unfold reap, bind at 1.
  assert ((match jenkins_name node with
           | Some (c :: name) =>
               in_world World (call World (jenkins_node_exists (c :: name)))
           | _ => ret false
           end) (w, tr) = (Ok false, (w1, tr))) as ->.
  { destruct Hjenkins as [[Hname ->] | (c & name & -> & Hexists)].
    - by destruct (jenkins_name node) as [[|? ?]|].
    - unfold in_world, call. cbn [fst snd]. by rewrite Hexists. }
  unfold bind at 1, in_world at 1. cbn [fst snd]. rewrite Hnow.
  by destruct (seconds _ >? 900).
Qed.

(** C1 at a node created a day and ten seconds ago that never joined
    Jenkins: the [seconds] of its age are 10, and a run of [check_orphaned]
    asks no provider to destroy it. *)
Theorem check_orphaned_spares_day_old_orphan :
  total_microseconds
    (datetime_sub example_now
       (created (orphan example_now (seconds_ago 86410))))
  = seconds_ago 86410 ∧
  seconds
    (datetime_sub example_now
       (created (orphan example_now (seconds_ago 86410)))) = 10 ∧
  run_check_orphaned
    (cloud_with example_now [orphan example_now (seconds_ago 86410)])
  = (Ok tt, [Purge (u "openstack")]).
Proof. split_and!; by vm_compute. Qed.

(** Within the first day the grace period is kept: 901 seconds, 899
    seconds. *)
Lemma check_orphaned_grace_period :
  run_check_orphaned
    (cloud_with example_now [orphan example_now (seconds_ago 901)])
  = (Ok tt, [DestroyNode (u "openstack") (u "centos6__b56d0e4a");
             Purge (u "openstack")]) ∧
  run_check_orphaned
    (cloud_with example_now [orphan example_now (seconds_ago 899)])
  = (Ok tt, [Purge (u "openstack")]).
Proof. split; by vm_compute. Qed.

(** A record is deleted when the machine is gone from the provider. *)
Lemma check_orphaned_machine_gone :
  (let '(r, s) :=
     check_orphaned cloud cloud_query_all cloud_node_exists cloud_utcnow
       (λ _, cloud_openstack) [u "openstack"]
       ({| clock := example_now;
           registry := [orphan example_now (seconds_ago 901)];
           jenkins_names := []; cloud_nodes := []; volume_polls := [] |}, [])
   in (r, s.2))
  = (Ok tt, [DestroyNode (u "openstack") (u "centos6__b56d0e4a");
             NodeDelete (orphan example_now (seconds_ago 901)); Commit;
             Purge (u "openstack")]).
Proof. by vm_compute. Qed.

(** ** The provisioner *)

Section QueueFacts.

Variable conf_nodes : Catalog.
Variable server_host server_port : str.
Variable jenkins_node_config : str → node_config_response.
Variable http_get_job_config : str → job_config_response.
Variable jenkins_has_job : str → bool.

Local Abbreviation needed :=
  (needed_node conf_nodes jenkins_node_config http_get_job_config
     jenkins_has_job).

Lemma lookup_count_node (needed_nodes : gmap str nat) (node_name k : str) :
  count_node needed_nodes node_name !! k
  = if decide (node_name = k)
    then Some (S (default 0%nat (needed_nodes !! node_name)))
    else needed_nodes !! k.
Proof.
  unfold count_node.
  destruct (needed_nodes !! node_name) as [[|n]|] eqn:Hn;
    rewrite lookup_insert; by case_decide.
Qed.

Lemma times_needed_cons (k : str) (task : Task) (tasks : list Task) :
  times_needed needed k (task :: tasks)
  = ((if bool_decide (needed task = Ok (Some k)) then 1 else 0)
     + times_needed needed k tasks)%nat.
Proof.
  unfold times_needed. cbn [List.filter].
  by destruct (bool_decide (needed task = Ok (Some k))).
Qed.

(** What the loop over the queue adds to [needed_nodes]. *)
Lemma scan_queue_counts (tasks : list Task) (m m' : gmap str nat) :
  scan_queue conf_nodes jenkins_node_config http_get_job_config
    jenkins_has_job m tasks = Ok m' →
  ∀ k,
    m' !! k
    = if decide (times_needed needed k tasks = 0%nat) then m !! k
      else Some (default 0 (m !! k) + times_needed needed k tasks)%nat.
Proof.
  revert m. induction tasks as [|task tasks IH]; intros m Hscan k.
  - by injection Hscan as <-.
  - cbn [scan_queue] in Hscan. rewrite times_needed_cons.
    destruct (needed task) as [[node_name|]|e] eqn:Htask;
      cbn [rbind] in Hscan; [| | done].
    + rewrite (IH _ Hscan k), lookup_count_node.
      destruct (decide (node_name = k)) as [-> | Hk].
      * rewrite bool_decide_true by done.
        cbn [default].
        destruct (decide (times_needed needed k tasks = 0%nat)) as [Ht | Ht];
          (destruct (decide _) as [? | _]; [exfalso; lia |]);
          f_equal; unfold id; lia.
      * rewrite bool_decide_false by congruence.
        by repeat case_decide.
    + rewrite bool_decide_false by done. by apply IH.
Qed.

Lemma scan_queue_from_empty (tasks : list Task) (m' : gmap str nat)
    (k : str) (c : nat) :
  scan_queue conf_nodes jenkins_node_config http_get_job_config
    jenkins_has_job ∅ tasks = Ok m' →
  m' !! k = Some c ↔ c = times_needed needed k tasks ∧ (0 < c)%nat.
Proof.
  intros Hscan. rewrite (scan_queue_counts _ _ _ Hscan k), lookup_empty.
  case_decide; cbn [default]; [split; [done | lia] |].
  split; [intros [= <-] | intros [-> _]]; [lia | done].
Qed.

(** A loop over the items that ends without an exception posts one
    request for each of them, in their order. *)
Lemma post_needed_each (node_endpoint : str) (items : list (str * nat))
    (posts : list post) :
  post_needed conf_nodes node_endpoint items = (posts, None) →
  Forall2
    (λ p item,
       ∃ config,
         p = {| post_url := node_endpoint;
                post_data := Some (config, item.1, item.2) |} ∧
         (item.1, config) ∈ conf_nodes)
    posts items.
Proof.
  revert posts. induction items as [|[node_name count] items IH];
    intros posts Hposts.
  - injection Hposts as <-. constructor.
  - cbn [post_needed] in Hposts.
    destruct (List.find _ conf_nodes) as [[found config]|] eqn:Hfind; [| done].
    destruct (post_needed conf_nodes node_endpoint items) as [posted e].
    injection Hposts as <- ->.
    apply find_Some_first in Hfind as (before & after & -> & Hname & _).
    apply bool_decide_eq_true in Hname. cbn [fst] in Hname. subst found.
    constructor; [| by apply IH].
    exists config. split; [done |]. apply elem_of_app. right. left.
Qed.

Lemma post_needed_names (node_endpoint : str) (items : list (str * nat))
    (posts : list post) :
  post_needed conf_nodes node_endpoint items = (posts, None) →
  post_node_name <$> posts = Some <$> items.*1.
Proof.
  intros H%post_needed_each.
  induction H as [|p item posts items (config & -> & _) _ IH]; [done |].
  rewrite !fmap_cons. by rewrite IH.
Qed.

(** The run of [check_queue] on a list of entries: the scan, then the
    requests. *)
Lemma check_queue_items (tasks : list Task) :
  check_queue conf_nodes server_host server_port jenkins_node_config
    http_get_job_config jenkins_has_job (QueueItems tasks)
  = match scan_queue conf_nodes jenkins_node_config http_get_job_config
            jenkins_has_job ∅ tasks with
    | Raise e => ([], Some e)
    | Ok needed_nodes =>
        post_needed conf_nodes (api_nodes server_host server_port [])
          (map_to_list needed_nodes)
    end.
Proof.
  unfold check_queue. rewrite get_mita_api_nodes. by destruct tasks.
Qed.

(** X24: a run of [check_queue] on an empty queue posts nothing (nor does
    one on a failed query); a run on a queue that goes through to the end
    posts requests for distinct node types, each with the number of
    entries of the queue that need that node type, and posts one for every
    node type some entry needs. *)
Theorem check_queue_one_request_per_node_type :
  check_queue conf_nodes server_host server_port jenkins_node_config
    http_get_job_config jenkins_has_job (QueueItems []) = ([], None) ∧
  check_queue conf_nodes server_host server_port jenkins_node_config
    http_get_job_config jenkins_has_job QueueOther = ([], None) ∧
  ∀ tasks posts,
    check_queue conf_nodes server_host server_port jenkins_node_config
      http_get_job_config jenkins_has_job (QueueItems tasks)
    = (posts, None) →
    NoDup (post_node_name <$> posts) ∧
    (∀ p, p ∈ posts →
       ∃ config node_name,
         p = {| post_url := api_nodes server_host server_port [];
                post_data :=
                  Some (config, node_name,
                        times_needed needed node_name tasks) |} ∧
         (node_name, config) ∈ conf_nodes ∧
         (0 < times_needed needed node_name tasks)%nat) ∧
    (∀ node_name,
       (0 < times_needed needed node_name tasks)%nat →
       ∃ p, p ∈ posts ∧ post_node_name p = Some node_name).
Proof.
  split_and!.
  - unfold check_queue. by rewrite get_mita_api_nodes, map_to_list_empty.
  - unfold check_queue. by rewrite get_mita_api_nodes, map_to_list_empty.
  - intros tasks posts. rewrite check_queue_items.
    destruct (scan_queue _ _ _ _ ∅ tasks) as [needed_nodes|e] eqn:Hscan;
      [| done].
    intros Hposts. pose proof (post_needed_each _ _ _ Hposts) as Heach.
    split_and!.
    + rewrite (post_needed_names _ _ _ Hposts).
      apply (NoDup_fmap_2 _), NoDup_fst_map_to_list.
    + intros p (i & Hi)%list_elem_of_lookup.
      destruct (Forall2_lookup_l _ _ _ _ _ Heach Hi)
        as ([node_name count] & Hitem & config & -> & Hin).
      apply list_elem_of_lookup_2, elem_of_map_to_list in Hitem.
      apply (scan_queue_from_empty _ _ _ _ Hscan) in Hitem as [-> Hpos].
      by exists config, node_name.
    + intros node_name Hpos.
      assert (needed_nodes !! node_name
              = Some (times_needed needed node_name tasks)) as Hlookup
        by by apply (scan_queue_from_empty _ _ _ _ Hscan).
      apply elem_of_map_to_list, list_elem_of_lookup in Hlookup as (i & Hi).
      destruct (Forall2_lookup_r _ _ _ _ _ Heach Hi)
        as (p & Hp & config & -> & _).
      eexists. split; [by eapply list_elem_of_lookup_2 | done].
Qed.

End QueueFacts.

(** The requests for [example_queue]: two entries need [centos6], one
    needs [trusty]. *)
Lemma check_queue_example_queue :
  NoDup
    (post_node_name <$>
     (check_queue example_nodes api_host api_port no_node_config
        no_job_config no_job (QueueItems example_queue)).1) ∧
  (∀ p,
     p ∈ (check_queue example_nodes api_host api_port no_node_config
            no_job_config no_job (QueueItems example_queue)).1 →
     ∃ config node_name,
       p = {| post_url := api_nodes api_host api_port [];
              post_data :=
                Some (config, node_name,
                      times_needed
                        (needed_node example_nodes no_node_config
                           no_job_config no_job)
                        node_name example_queue) |} ∧
       (node_name, config) ∈ example_nodes ∧
       (0 < times_needed
              (needed_node example_nodes no_node_config no_job_config no_job)
              node_name example_queue)%nat) ∧
  (∀ node_name,
     (0 < times_needed
            (needed_node example_nodes no_node_config no_job_config no_job)
            node_name example_queue)%nat →
     ∃ p,
       p ∈ (check_queue example_nodes api_host api_port no_node_config
              no_job_config no_job (QueueItems example_queue)).1 ∧
       post_node_name p = Some node_name).
Proof.
  destruct (check_queue_one_request_per_node_type example_nodes api_host
              api_port no_node_config no_job_config no_job)
    as (_ & _ & Hposts).
  apply (Hposts example_queue). by vm_compute.
Defined.

Lemma check_queue_example_counts :
  (check_queue example_nodes api_host api_port no_node_config
     no_job_config no_job (QueueItems example_queue))
  = ([ {| post_url := api_nodes api_host api_port [];
          post_data := Some (trusty, u "trusty", 1%nat) |};
       {| post_url := api_nodes api_host api_port [];
          post_data := Some (centos6, u "centos6", 2%nat) |} ], None) ∧
  times_needed
    (needed_node example_nodes no_node_config no_job_config no_job)
    (u "centos6") example_queue = 2%nat.
Proof. split; by vm_compute. Qed.

(** C8 at a queue with an entry that nothing resolves: a run is cut short
    when an entry matches no node type and its job, unknown to Jenkins, has
    a name that is not a list of [KEY=VALUE]. The first entry of
    [unmatched_queue] is
    stuck and needs [centos6], and a run on that entry alone posts the
    request for one [centos6]; the second entry is stuck, matches no node
    type, and the matrix reading of the name [build] of its job raises
    [IndexError]; the run on both entries ends with that exception and
    posts nothing, not even the request for the entry read before. *)
Theorem check_queue_unresolvable_entry_loses_all_requests :
  unmatched_queue
  = [waiting_for (u "centos6"); waiting_for (u "static-slave")] ∧
  needed_node example_nodes no_node_config no_job_config no_job
    (waiting_for (u "centos6")) = Ok (Some (u "centos6")) ∧
  check_queue example_nodes api_host api_port no_node_config no_job_config
    no_job (QueueItems [waiting_for (u "centos6")])
  = ([ {| post_url := api_nodes api_host api_port [];
          post_data := Some (centos6, u "centos6", 1%nat) |} ], None) ∧
  is_stuck (u "Waiting for next available executor on static-slave") = true ∧
  match_node example_nodes no_node_config
    (u "Waiting for next available executor on static-slave") = Ok None ∧
  job_from_url (task_url (waiting_for (u "static-slave"))) = u "build" ∧
  no_job (u "build") = false ∧
  match_node_from_matrix_job_name example_nodes (u "build")
  = Raise IndexError ∧
  check_queue example_nodes api_host api_port no_node_config no_job_config
    no_job (QueueItems unmatched_queue) = ([], Some IndexError).
Proof. split_and!; by vm_compute. Qed.

(** The same run with a Jenkins whose nodes have a [label] element
    without text: reading the labels of [static-slave] raises
    [AttributeError], and nothing is posted. *)
Lemma check_queue_empty_label_cut_short :
  match_node example_nodes empty_label_config
    (u "Waiting for next available executor on static-slave")
  = Raise AttributeError ∧
  check_queue example_nodes api_host api_port empty_label_config
    no_job_config no_job (QueueItems unmatched_queue)
  = ([], Some AttributeError).
Proof. split; by vm_compute. Qed.

(** ** What the resolvers return is a key of the catalog *)

Lemma Ok_inj {A} (a b : A) : Ok a = Ok b → a = b.
Proof. by intros [= ->]. Qed.

Lemma find_Some_elem_of {A} (f : A → bool) (l : list A) (x : A) :
  List.find f l = Some x → x ∈ l.
Proof.
  intros (before & after & -> & _)%find_Some_first.
  apply elem_of_app. right. left.
Qed.

Lemma split_go_nonempty (sep : str) (skip : nat) (cur s : str) :
  split_go sep skip cur s ≠ [].
Proof.
  revert skip cur. induction s as [|c s IH]; intros skip cur; [done |].
  cbn [split_go]. destruct skip; [| apply IH].
  destruct (startswith (c :: s) sep); [done | apply IH].
Qed.

Section Keys.

Variable conf_nodes : Catalog.
Variable jenkins_node_config : str → node_config_response.
Variable http_get_job_config : str → job_config_response.
Variable jenkins_has_job : str → bool.

Lemma get_key_elem_of (key : option str) (fallback : bool) (k : str) :
  get_key conf_nodes key fallback = Some k → k ∈ conf_nodes.*1.
Proof.
  unfold get_key. destruct key as [[|c key]|]; [done | | done].
  case_bool_decide as Hin; [by intros [= <-] |].
  destruct fallback; [apply find_Some_elem_of | done].
Qed.

Lemma or_get_nodes_configured (configured_nodes : option Catalog) :
  configured_nodes = None ∨ configured_nodes = Some conf_nodes →
  or_get_nodes conf_nodes configured_nodes = conf_nodes.
Proof. intros [-> | ->]; [done | by destruct conf_nodes]. Qed.

Lemma fst_find_elem_of (f : str * NodeConfig → bool) (k : str) :
  fst <$> List.find f conf_nodes = Some k → k ∈ conf_nodes.*1.
Proof.
  intros (entry & Hfind%find_Some_elem_of & ->)%fmap_Some.
  by apply list_elem_of_fmap_2.
Qed.

Lemma match_node_from_label_elem_of (label : str)
    (configured_nodes : option Catalog) (k : str) :
  configured_nodes = None ∨ configured_nodes = Some conf_nodes →
  match_node_from_label conf_nodes label configured_nodes = Some k →
  k ∈ conf_nodes.*1.
Proof.
  intros Hconf. unfold match_node_from_label.
  rewrite or_get_nodes_configured by done. apply fst_find_elem_of.
Qed.

Lemma match_node_from_labels_elem_of (labels_ : option (list str))
    (configured_nodes : option Catalog) (k : str) :
  configured_nodes = None ∨ configured_nodes = Some conf_nodes →
  match_node_from_labels conf_nodes labels_ configured_nodes = Some k →
  k ∈ conf_nodes.*1.
Proof.
  intros Hconf. unfold match_node_from_labels.
  destruct labels_ as [[|l labels_]|]; [done | | done].
  rewrite or_get_nodes_configured by done. apply fst_find_elem_of.
Qed.

Lemma match_node_from_label_expr_elem_of (expr : option str)
    (configured_nodes : option Catalog) (k : str) :
  configured_nodes = None ∨ configured_nodes = Some conf_nodes →
  match_node_from_label_expr conf_nodes expr configured_nodes = Some k →
  k ∈ conf_nodes.*1.
Proof.
  intros Hconf. destruct expr as [[|c expr]|]; [done | | done].
  rewrite match_node_from_label_expr_find, or_get_nodes_configured by done.
  apply fst_find_elem_of.
Qed.

Lemma from_label_elem_of (string k : str) :
  from_label conf_nodes jenkins_node_config string = Ok (Some k) →
  k ∈ conf_nodes.*1.
Proof.
  unfold from_label.
  destruct (py_index (split_ws string) (-1)) as [token|e]; [| done].
  unfold get_nodes.
  set (word := sanitize_string token false).
  destruct (py_or _ _) as [found|] eqn:Hor.
  - intros [= <-]. unfold py_or in Hor.
    destruct (truthy (get_key conf_nodes (Some word) true));
      by apply get_key_elem_of in Hor.
  - destruct (get_key conf_nodes (Some (hd [] (split word (u "__")))) true)
      as [found|] eqn:Hclean.
    + intros [= <-]. by apply get_key_elem_of in Hclean.
    + destruct (truthy _).
      * intros H%Ok_inj.
        eapply match_node_from_label_expr_elem_of; [| eassumption]. by right.
      * destruct (get_node_labels jenkins_node_config word)
          as [labels_|e]; [cbn [rbind] | done].
        intros H%Ok_inj.
        eapply match_node_from_labels_elem_of; [| eassumption]. by left.
Qed.

Lemma from_offline_node_label_elem_of (string k : str) :
  from_offline_node_label conf_nodes string = Ok (Some k) →
  k ∈ conf_nodes.*1.
Proof.
  unfold from_offline_node_label.
  destruct (py_index _ (-1)) as [label|e]; [cbn [rbind] | done].
  destruct (match_node_from_label conf_nodes label None) as [found|] eqn:Hl.
  - intros [= <-]. eapply match_node_from_label_elem_of; [| eassumption]; by left.
  - unfold get_nodes. destruct (truthy _); intros H%Ok_inj;
      (eapply match_node_from_label_expr_elem_of; [| eassumption]; by right).
Qed.

Lemma from_offline_label_elem_of (string k : str) :
  from_offline_label conf_nodes string = Ok (Some k) → k ∈ conf_nodes.*1.
Proof.
  unfold from_offline_label.
  destruct (py_index _ (-3)) as [label|e]; [cbn [rbind] | done].
  destruct (negb _).
  - apply from_offline_node_label_elem_of.
  - intros H%Ok_inj.
    eapply match_node_from_label_elem_of; [| eassumption]; by left.
Qed.

Lemma from_offline_node_elem_of (string k : str) :
  from_offline_node conf_nodes string = Ok (Some k) → k ∈ conf_nodes.*1.
Proof.
  unfold from_offline_node.
  destruct (py_index _ 0) as [node|e]; [cbn [rbind] | done].
  unfold get_nodes.
  destruct (get_key conf_nodes (Some node) true) as [found|] eqn:Hkey.
  - intros [= <-]. by apply get_key_elem_of in Hkey.
  - case_bool_decide; by intros [= <-].
Qed.

Lemma from_node_without_label_elem_of (string k : str) :
  from_node_without_label conf_nodes jenkins_node_config string
  = Ok (Some k) →
  k ∈ conf_nodes.*1.
Proof.
  unfold from_node_without_label.
  induction (split string (u ";")) as [|message messages IH]; [done |].
  destruct (contains message doesnt_have_label); [| done].
  destruct (from_label conf_nodes jenkins_node_config message)
    as [node|e] eqn:Hnode; [cbn [rbind] | done].
  destruct (negb _); [done |].
  intros [= ->]. by eapply from_label_elem_of.
Qed.

Lemma match_node_elem_of (string k : str) :
  match_node conf_nodes jenkins_node_config string = Ok (Some k) →
  k ∈ conf_nodes.*1.
Proof.
  unfold match_node.
  destruct (match_node_processor string) as [[]|]; cbn [run_processor];
    [ apply from_label_elem_of
    | apply from_offline_label_elem_of
    | apply from_offline_node_elem_of
    | apply from_offline_node_label_elem_of
    | apply from_node_without_label_elem_of
    | done ].
Qed.

(** Every node type an entry of the queue needs is a key of the catalog. *)
Lemma needed_node_elem_of (task : Task) (k : str) :
  needed_node conf_nodes jenkins_node_config http_get_job_config
    jenkins_has_job task = Ok (Some k) →
  k ∈ conf_nodes.*1.
Proof.
  unfold needed_node. destruct (why task) as [why_|]; [| done].
  destruct (is_stuck why_); [| done].
  destruct (match_node conf_nodes jenkins_node_config why_)
    as [node_name|e] eqn:Hmatch; [cbn [rbind] | done].
  destruct (negb (truthy node_name)) eqn:Htruthy.
  - destruct (jenkins_has_job _).
    + cbn [rbind]. unfold match_node_from_job_config.
      destruct (http_get_job_config _) as [|[expr|]]; [done | | done].
      destruct (match_node_from_label_expr conf_nodes expr None)
        as [found|] eqn:Hexpr; [| done].
      destruct (truthy (Some found)); intros [= <-].
      eapply match_node_from_label_expr_elem_of; [| eassumption]; by left.
    + unfold match_node_from_matrix_job_name.
      destruct (matrix_job_labels _) as [labels_|e]; [cbn [rbind] | done].
      destruct (match_node_from_labels conf_nodes (Some labels_) None)
        as [found|] eqn:Hlabels; [| done].
      destruct (truthy (Some found)); intros [= <-].
      eapply match_node_from_labels_elem_of; [| eassumption]; by left.
  - cbn [rbind]. destruct (truthy node_name); [| done].
    intros [= ->]. by eapply match_node_elem_of.
Qed.

End Keys.

(** ** A scan that ends is followed by all its requests *)

Section QueueEnds.

Variable conf_nodes : Catalog.
Variable server_host server_port : str.
Variable jenkins_node_config : str → node_config_response.
Variable http_get_job_config : str → job_config_response.
Variable jenkins_has_job : str → bool.

Local Abbreviation needed :=
  (needed_node conf_nodes jenkins_node_config http_get_job_config
     jenkins_has_job).

Lemma times_needed_pos (k : str) (tasks : list Task) :
  (0 < times_needed needed k tasks)%nat →
  ∃ task, task ∈ tasks ∧ needed task = Ok (Some k).
Proof.
  induction tasks as [|task tasks IH]; [cbn; lia |].
  rewrite times_needed_cons. case_bool_decide as Htask.
  - intros _. exists task. split; [left | done].
  - intros (task' & Hin & Htask')%IH. exists task'. split; [by right | done].
Qed.

Lemma find_key_is_Some (k : str) :
  k ∈ conf_nodes.*1 →
  is_Some (List.find (λ kv : str * NodeConfig, bool_decide (kv.1 = k))
             conf_nodes).
Proof.
  intros ([k' config] & -> & Hin)%list_elem_of_fmap.
  destruct (List.find _ conf_nodes) as [found|] eqn:Hfind; [done |].
  rewrite find_None_all in Hfind. specialize (Hfind _ Hin).
  by rewrite bool_decide_true in Hfind.
Qed.

(** The loop over the items raises no [KeyError] when they name keys of
    the catalog. *)
Lemma post_needed_ends (node_endpoint : str) (items : list (str * nat)) :
  (∀ item, item ∈ items → item.1 ∈ conf_nodes.*1) →
  (post_needed conf_nodes node_endpoint items).2 = None.
Proof.
  induction items as [|[node_name count] items IH]; intros Hitems; [done |].
  cbn [post_needed].
  destruct (find_key_is_Some node_name) as [[found config] ->].
  { apply (Hitems (node_name, count)). left. }
  destruct (post_needed conf_nodes node_endpoint items) as [posted e] eqn:Hrest.
  cbn [snd] in *. apply IH. intros item Hitem. apply Hitems. by right.
Qed.

(** A run of [check_queue] goes through to the end exactly when its scan
    of the queue does, and the scan is cut short only by an entry on which
    [needed_node] raises. *)
Lemma check_queue_ends_iff_scan_ends (tasks : list Task) :
  ((check_queue conf_nodes server_host server_port jenkins_node_config
      http_get_job_config jenkins_has_job (QueueItems tasks)).2 = None ↔
   ∃ needed_nodes,
     scan_queue conf_nodes jenkins_node_config http_get_job_config
       jenkins_has_job ∅ tasks = Ok needed_nodes) ∧
  ((∀ task, task ∈ tasks → ∃ node_name, needed task = Ok node_name) →
   ∀ m, ∃ needed_nodes,
     scan_queue conf_nodes jenkins_node_config http_get_job_config
       jenkins_has_job m tasks = Ok needed_nodes).
Proof.
  split.
  - rewrite check_queue_items.
    destruct (scan_queue _ _ _ _ ∅ tasks) as [needed_nodes|e] eqn:Hscan.
    + split; [eauto |]. intros _. apply post_needed_ends.
      intros [node_name count] Hitem%elem_of_map_to_list. cbn [fst].
      apply (scan_queue_from_empty _ _ _ _ _ _ _ _ Hscan) in Hitem
        as [-> Hpos].
      apply times_needed_pos in Hpos as (task & _ & Htask).
      by eapply needed_node_elem_of.
    + split; [done | by intros [? ?]].
  - induction tasks as [|task tasks IH]; intros Hall m; [by exists m |].
    cbn [scan_queue].
    destruct (Hall task) as [node_name ->]; [left |]. cbn [rbind].
    destruct node_name; apply IH; intros task' Hin; apply Hall; by right.
Qed.

End QueueEnds.

(** ** The processors find the words they index *)

Lemma py_index_elem_of {A} (l : list A) (i : Z) (x : A) :
  py_index l i = Ok x → x ∈ l.
Proof.
  unfold py_index. destruct (_ <? 0); [done |].
  destruct (l !! _) as [y|] eqn:Hy; [| done].
  intros [= <-]. by eapply list_elem_of_lookup_2.
Qed.

Lemma py_index_in_range {A} (l : list A) (i : Z) :
  - Z.of_nat (length l) ≤ i < Z.of_nat (length l) → ∃ x, py_index l i = Ok x.
Proof.
  intros Hi. unfold py_index.
  set (j := if i <? 0 then i + Z.of_nat (length l) else i).
  assert (0 ≤ j < Z.of_nat (length l)) as Hj.
  { unfold j. destruct (Z.ltb_spec i 0); lia. }
  destruct (Z.ltb_spec j 0); [lia |].
  destruct (lookup_lt_is_Some_2 l (Z.to_nat j)) as [x ->]; [lia | eauto].
Qed.

Lemma split_ws_go_started (cur s : str) :
  cur ≠ [] → split_ws_go cur s ≠ [].
Proof.
  revert cur. induction s as [|c s IH]; intros cur Hcur.
  - by destruct cur.
  - cbn [split_ws_go]. destruct (isspace c); [by destruct cur | by apply IH].
Qed.

(** A string with a character that is no whitespace has a word. *)
Lemma split_ws_go_nonempty (cur s : str) (c : N) :
  c ∈ s → isspace c = false → split_ws_go cur s ≠ [].
Proof.
  revert cur. induction s as [|d s IH]; intros cur Hc Hspace.
  - by apply elem_of_nil in Hc.
  - cbn [split_ws_go]. apply elem_of_cons in Hc as [<- | Hc].
    + rewrite Hspace. by apply split_ws_go_started.
    + destruct (isspace d); [| by apply IH].
      destruct cur; [by apply IH | done].
Qed.

(** The words hold no whitespace, are not empty and are made of
    characters of the string. *)
Lemma split_ws_go_words (cur s word : str) :
  (∀ c, c ∈ cur → isspace c = false) →
  word ∈ split_ws_go cur s →
  word ≠ [] ∧ ∀ c, c ∈ word → isspace c = false ∧ (c ∈ cur ∨ c ∈ s).
Proof.
  revert cur. induction s as [|d s IH]; intros cur Hcur Hword.
  - destruct cur as [|c cur]; [by apply elem_of_nil in Hword |].
    apply list_elem_of_singleton in Hword as ->. split.
    + intros H%(f_equal length). rewrite length_reverse in H. done.
    + intros c' Hc'. rewrite elem_of_reverse in Hc'. split; [by apply Hcur | by left].
  - cbn [split_ws_go] in Hword. destruct (isspace d) eqn:Hd.
    + destruct cur as [|c cur].
      * destruct (IH [] Hcur Hword) as [Hne Hchars]. split; [done |].
        intros c' Hc'. destruct (Hchars c' Hc') as [? [? | ?]];
          split; [done | by left | done | right; by right].
      * apply elem_of_cons in Hword as [-> | Hword].
        -- split.
           ++ intros H%(f_equal length). rewrite length_reverse in H. done.
           ++ intros c' Hc'. rewrite elem_of_reverse in Hc'. split; [by apply Hcur | by left].
        -- destruct (IH [] ltac:(by intros ? ?%elem_of_nil) Hword)
             as [Hne Hchars].
           split; [done |]. intros c' Hc'.
           destruct (Hchars c' Hc') as [? [?%elem_of_nil | ?]];
             [done | split; [done | right; by right]].
    + destruct (IH (d :: cur)) as [Hne Hchars]; [| done |].
      { intros c' [-> | Hc']%elem_of_cons; [done | by apply Hcur]. }
      split; [done |]. intros c' Hc'.
      destruct (Hchars c' Hc') as [? [[-> | ?]%elem_of_cons | ?]];
        split; [done | right; left | done | by left | done | right; by right].
Qed.

Lemma elem_of_replace_char (c x : N) (s : str) :
  x ∈ replace_char c [] s ↔ x ∈ s ∧ x ≠ c.
Proof.
  unfold replace_char. rewrite list_elem_of_bind. split.
  - intros (y & Hx & Hy). destruct (y =? c)%N eqn:Hyc.
    + by apply elem_of_nil in Hx.
    + apply N.eqb_neq in Hyc. by apply list_elem_of_singleton in Hx as ->.
  - intros [Hx Hne]. exists x. split; [| done].
    rewrite (proj2 (N.eqb_neq x c)) by done. left.
Qed.

(** [sanitize_string] keeps every character but the two quotes. *)
Lemma elem_of_sanitize_string (x : N) (s : str) :
  x ∈ sanitize_string s false ↔ x ∈ s ∧ x ≠ lsquo ∧ x ≠ rsquo.
Proof.
  unfold sanitize_string. cbn [foldl].
  rewrite !elem_of_replace_char. tauto.
Qed.

Lemma sanitize_string_app (a b : str) :
  sanitize_string (a ++ b) false
  = sanitize_string a false ++ sanitize_string b false.
Proof.
  unfold sanitize_string, replace_char. cbn [foldl]. by rewrite !bind_app.
Qed.

Section Total.

Variable conf_nodes : Catalog.
Variable jenkins_node_config : str → node_config_response.

Lemma from_offline_node_label_Ok (string : str) (c : N) :
  c ∈ string → isspace c = false → c ≠ lsquo → c ≠ rsquo →
  ∃ r, from_offline_node_label conf_nodes string = Ok r.
Proof.
  intros Hc Hspace Hl Hr. unfold from_offline_node_label.
  destruct (py_index_in_range
              (split_ws (sanitize_string string false)) (-1)) as [label ->].
  { assert (split_ws (sanitize_string string false) ≠ []) as Hne.
    { apply (split_ws_go_nonempty _ _ c); [| done].
      by apply elem_of_sanitize_string. }
    destruct (split_ws _); [done | cbn [length]; lia]. }
  cbn [rbind]. destruct (match_node_from_label _ _ _); [eauto |].
  destruct (truthy _); eauto.
Qed.

Lemma from_offline_label_Ok (string : str) :
  u "All nodes of label" `prefix_of` string →
  ∃ r, from_offline_label conf_nodes string = Ok r.
Proof.
  intros [rest ->]. unfold from_offline_label.
  rewrite sanitize_string_app.
  change (sanitize_string (u "All nodes of label") false)
    with (u "All nodes of label").
  set (words := split_ws (u "All nodes of label" ++ sanitize_string rest false)).
  assert (3 < length words)%nat as Hlen.
  { unfold words, split_ws. change (u "All nodes of label")
      with ([65; 108; 108; 32; 110; 111; 100; 101; 115; 32; 111; 102; 32;
             108; 97; 98; 101; 108]%N).
    cbn [app split_ws_go isspace N.leb N.eqb N.compare Pos.compare
         Pos.compare_cont Pos.eqb andb orb reverse rev_append length].
    pose proof (split_ws_go_started [108; 101; 98; 97; 108]%N
                  (sanitize_string rest false) ltac:(done)) as Hne.
    destruct (split_ws_go _ _); [done | cbn [length]; lia]. }
  destruct (py_index_in_range words (-3)) as [label Hlabel]; [lia |].
  rewrite Hlabel. cbn [rbind].
  destruct (negb _); [| eauto].
  apply py_index_elem_of in Hlabel.
  apply split_ws_go_words in Hlabel as [Hne Hchars];
    [| by intros ? ?%elem_of_nil].
  destruct label as [|c label]; [done |].
  destruct (Hchars c ltac:(left)) as [Hspace [Hc%elem_of_nil | Hc]]; [done |].
  apply (from_offline_node_label_Ok _ c); [left | done | |].
  - intros ->. apply elem_of_app in Hc as [Hc | Hc].
    + revert Hc. apply (proj1 (bool_decide_eq_false _)). by vm_compute.
    + by apply elem_of_sanitize_string in Hc as (_ & ? & _).
  - intros ->. apply elem_of_app in Hc as [Hc | Hc].
    + revert Hc. apply (proj1 (bool_decide_eq_false _)). by vm_compute.
    + by apply elem_of_sanitize_string in Hc as (_ & _ & ?).
Qed.

Lemma from_offline_node_Ok (string : str) :
  u "is offline" `suffix_of` string →
  ∃ r, from_offline_node conf_nodes string = Ok r.
Proof.
  intros [before ->]. unfold from_offline_node.
  destruct (py_index_in_range (split_ws (before ++ u "is offline")) 0)
    as [node ->].
  { assert (split_ws (before ++ u "is offline") ≠ []) as Hne.
    { apply (split_ws_go_nonempty _ _ 105%N); [| done].
      apply elem_of_app. right. left. }
    destruct (split_ws _); [done | cbn [length]; lia]. }
  cbn [rbind]. destruct (get_key _ _ _); eauto.
Qed.

(** Reading the labels of a node raises only what its configuration
    gives rise to. *)
Lemma get_node_labels_raises (node_name : str) (e : exn) :
  get_node_labels jenkins_node_config node_name = Raise e →
  raised_by_node_config jenkins_node_config e.
Proof.
  unfold get_node_labels.
  destruct (jenkins_node_config (encode_ascii_ignore node_name))
    as [|class|xml_object] eqn:Hconfig; [done | |].
  - intros [= <-]. right. by exists (encode_ascii_ignore node_name), class.
  - destruct (List.find _ xml_object) as [[tag [text|]]|] eqn:Hfind;
      [done | | done].
    intros [= <-]. left. split; [done |].
    exists (encode_ascii_ignore node_name), xml_object. split; [done |].
    apply find_Some_first in Hfind as (before & after & -> & Htag & Hbefore).
    apply bool_decide_eq_true in Htag. cbn [fst] in Htag. subst tag.
    exists before, after. split; [done |]. intros child Hchild.
    specialize (Hbefore child Hchild).
    by apply bool_decide_eq_false in Hbefore.
Qed.

Lemma from_label_raises (string : str) (e : exn) :
  from_label conf_nodes jenkins_node_config string = Raise e →
  raised_by_node_config jenkins_node_config e.
Proof.
  unfold from_label.
  destruct (py_index (split_ws string) (-1)) as [token|e']; [| done].
  unfold get_nodes.
  destruct (py_or _ _); [done |].
  destruct (get_key conf_nodes (Some (hd [] _)) true); [done |].
  destruct (truthy _); [done |].
  destruct (get_node_labels jenkins_node_config (sanitize_string token false))
    as [labels_|e'] eqn:Hlabels; [done |].
  cbn [rbind]. intros [= <-]. by eapply get_node_labels_raises.
Qed.

Lemma from_node_without_label_raises (string : str) (e : exn) :
  from_node_without_label conf_nodes jenkins_node_config string = Raise e →
  raised_by_node_config jenkins_node_config e.
Proof.
  unfold from_node_without_label.
  induction (split string (u ";")) as [|message messages IH]; [done |].
  destruct (contains message doesnt_have_label); [| done].
  destruct (from_label conf_nodes jenkins_node_config message)
    as [node|e'] eqn:Hnode; cbn [rbind].
  - by destruct (negb _).
  - intros [= <-]. by eapply from_label_raises.
Qed.

(** [match_node] raises only what reading the configuration of a node
    raises: each processor is called on a reason that has the words it
    reads. *)
Lemma match_node_raises (string : str) (e : exn) :
  match_node conf_nodes jenkins_node_config string = Raise e →
  raised_by_node_config jenkins_node_config e.
Proof.
  unfold match_node. unfold_summaries.
  destruct (startswith string (u "Waiting for")).
  { apply from_label_raises. }
  destruct (startswith string (u "All nodes of label")) eqn:Hlabel.
  { destruct (from_offline_label_Ok string) as [r Hr];
      [by apply startswith_prefix |].
    cbn [run_processor]. by rewrite Hr. }
  destruct (endswith string (u "is offline")) eqn:Hnode.
  { destruct (from_offline_node_Ok string) as [r Hr];
      [by apply endswith_suffix |].
    cbn [run_processor]. by rewrite Hr. }
  destruct (startswith string (u "There are no nodes")) eqn:Hnone.
  { apply startswith_prefix in Hnone as [rest ->].
    destruct (from_offline_node_label_Ok (u "There are no nodes" ++ rest)
                84%N) as [r Hr]; [left | done | done | done |].
    cbn [run_processor]. by rewrite Hr. }
  destruct (contains string doesnt_have_label); [| done].
  apply from_node_without_label_raises.
Qed.

End Total.

Lemma py_index_raises {A} (l : list A) (i : Z) (e : exn) :
  py_index l i = Raise e → e = IndexError.
Proof.
  unfold py_index. destruct (_ <? 0); [by intros [= <-] |].
  destruct (l !! _); [done | by intros [= <-]].
Qed.

Lemma matrix_job_labels_raises (job_name : str) (e : exn) :
  matrix_job_labels job_name = Raise e → e = IndexError.
Proof.
  unfold matrix_job_labels.
  induction (split job_name (u ",")) as [|label labels_ IH]; [done |].
  cbn [mapM_result].
  destruct (py_index (split label (u "=")) 1) as [value|e'] eqn:Hvalue.
  - cbn [rbind]. destruct (mapM_result _ labels_) as [values|e'']; [done |].
    cbn [rbind] in *. intros [= <-]. by apply IH.
  - cbn [rbind]. intros [= <-]. by eapply py_index_raises.
Qed.

(** The loop of [check_queue] is cut short by two things only: an entry
    that matches no node type, of a job Jenkins does not know, whose name
    is not a list of [KEY=VALUE], and the configuration of a node that
    cannot be read. *)
Lemma needed_node_raises (conf_nodes : Catalog)
    (jenkins_node_config : str → node_config_response)
    (http_get_job_config : str → job_config_response)
    (jenkins_has_job : str → bool) (task : Task) (e : exn) :
  needed_node conf_nodes jenkins_node_config http_get_job_config
    jenkins_has_job task = Raise e →
  (e = IndexError ∧
   jenkins_has_job (job_from_url (task_url task)) = false ∧
   matrix_job_labels (job_from_url (task_url task)) = Raise IndexError) ∨
  raised_by_node_config jenkins_node_config e.
Proof.
  unfold needed_node. destruct (why task) as [why_|]; [| done].
  destruct (is_stuck why_); [| done].
  destruct (match_node conf_nodes jenkins_node_config why_)
    as [node_name|e'] eqn:Hmatch; cbn [rbind].
  2: { intros [= <-]. right. by eapply match_node_raises. }
  destruct (negb (truthy node_name)).
  - destruct (jenkins_has_job _).
    + cbn [rbind]. by destruct (truthy _).
    + unfold match_node_from_matrix_job_name.
      destruct (matrix_job_labels _) as [labels_|e'] eqn:Hlabels.
      * cbn [rbind]. by destruct (truthy _).
      * cbn [rbind]. intros [= <-]. left.
        by rewrite (matrix_job_labels_raises _ _ Hlabels).
  - cbn [rbind]. by destruct (truthy _).
Qed.

(** ** Further properties of mita/util.py *)

Lemma replace_char_filter (c : N) (s : str) :
  replace_char c [] s = filter (λ x, x ≠ c) s.
Proof.
  unfold replace_char. induction s as [|x s IH]; [done |].
  cbn [mbind list_bind]. rewrite filter_cons.
  fold (mbind (M := list) (λ x0 : N, if (x0 =? c)%N then [] else [x0]) s).
  rewrite IH.
  destruct (N.eqb_spec x c) as [-> | Hne].
  - by rewrite decide_False by (intros H; by apply H).
  - by rewrite decide_True.
Qed.

(** X1: [sanitize_string] without [strip] keeps the characters that are
    none of the two curly quotes, in their order; sanitizing twice changes
    nothing more, and a string without these quotes is returned as it
    is. *)
Theorem sanitize_string_keeps_all_but_quotes (string : str) :
  sanitize_string string false
  = filter (λ c, c ≠ lsquo ∧ c ≠ rsquo) string ∧
  sanitize_string (sanitize_string string false) false
  = sanitize_string string false ∧
  (((lsquo ∉ string) ∧ (rsquo ∉ string)) ↔
   sanitize_string string false = string).
Proof.
  assert (∀ s, sanitize_string s false
               = filter (λ c, c ≠ lsquo ∧ c ≠ rsquo) s) as Hfilter.
  { intros s. unfold sanitize_string. cbn [foldl].
    rewrite !replace_char_filter, list_filter_filter.
    apply list_filter_iff. intros c. tauto. }
  split_and!.
  - apply Hfilter.
  - rewrite !Hfilter, list_filter_filter. apply list_filter_iff. tauto.
  - rewrite Hfilter. split.
    + intros [Hl Hr]. induction string as [|c s IH]; [done |].
      apply not_elem_of_cons in Hl as [? ?].
      apply not_elem_of_cons in Hr as [? ?].
      rewrite filter_cons, decide_True by done. f_equal. by apply IH.
    + intros Hsame.
      assert (∀ c, c ∈ string → c ≠ lsquo ∧ c ≠ rsquo) as Hall.
      { intros c Hc. rewrite <- Hsame in Hc.
        by apply list_elem_of_filter in Hc as [? _]. }
      split; intros Hin; by destruct (Hall _ Hin).
Qed.

(** X2: whatever [get_key] returns is a key of the catalog; for a missing
    or empty lookup key it returns [None], and without the fallback it
    returns a name exactly when that name is the lookup key, not empty and
    a key of the catalog. *)
Theorem get_key_returns_only_catalog_keys (_dict : Catalog)
    (key : option str) (fallback : bool) :
  (∀ name, get_key _dict key fallback = Some name → name ∈ _dict.*1) ∧
  (truthy key = false → get_key _dict key fallback = None) ∧
  (∀ lookup name,
     get_key _dict (Some lookup) false = Some name ↔
     name = lookup ∧ lookup ≠ [] ∧ lookup ∈ _dict.*1).
Proof.
  split_and!.
  - intros name. apply get_key_elem_of.
  - by destruct key as [[|c key]|].
  - intros lookup name. unfold get_key. destruct lookup as [|c lookup].
    + split; [done | by intros (_ & ? & _)].
    + case_bool_decide as Hin.
      * split; [by intros [= <-] | by intros (-> & _ & _)].
      * split; [done | by intros (_ & _ & ?)].
Qed.

(** The lookup of [centos6] in the catalog of the examples, without the
    fallback. *)
Lemma get_key_centos6_no_fallback :
  u "centos6" ∈ example_nodes.*1.
Proof.
  apply (get_key_returns_only_catalog_keys example_nodes
           (Some (u "centos6")) false).
  by vm_compute.
Defined.

(** X3: a node type [match_node] returns is a key of the configured
    catalog, and [match_node] raises only what reading the configuration
    of a Jenkins node raises: [AttributeError] when the first [label]
    element of the configuration has no text, or the exception of the
    library. With a Jenkins whose nodes are not found, or have a text in
    their first [label] element, it never raises. *)
Theorem match_node_returns_catalog_key_or_none (conf_nodes : Catalog)
    (jenkins_node_config : str → node_config_response) (string : str) :
  (∀ node,
     match_node conf_nodes jenkins_node_config string = Ok (Some node) →
     node ∈ conf_nodes.*1) ∧
  (∀ e,
     match_node conf_nodes jenkins_node_config string = Raise e →
     raised_by_node_config jenkins_node_config e) ∧
  ((∀ name,
      jenkins_node_config name = NodeNotFound ∨
      ∃ xml_object,
        jenkins_node_config name = NodeConfigXml xml_object ∧
        ¬ first_label_without_text xml_object) →
   ∃ r, match_node conf_nodes jenkins_node_config string = Ok r).
Proof.
  split_and!.
  - intros node. apply match_node_elem_of.
  - intros e. apply match_node_raises.
  - intros Hread.
    destruct (match_node conf_nodes jenkins_node_config string)
      as [r|e] eqn:Hmatch; [by exists r |].
    apply match_node_raises in Hmatch
      as [(_ & name & xml_object & Hconfig & Hempty)
         | (name & class & _ & Hconfig)];
      destruct (Hread name) as [Hname | (xml_object' & Hname & Htext)];
      congruence.
Qed.

Lemma find_ext {A} (f g : A → bool) (l : list A) :
  (∀ x, x ∈ l → f x = g x) → List.find f l = List.find g l.
Proof.
  induction l as [|x l IH]; intros Hfg; [done |]. cbn [List.find].
  rewrite <- (Hfg x) by left. destruct (f x); [done |].
  apply IH. intros y Hy. apply Hfg. by right.
Qed.

Lemma forallb_same_elements {A} (f : A → bool) (l1 l2 : list A) :
  (∀ x, x ∈ l1 ↔ x ∈ l2) → forallb f l1 = forallb f l2.
Proof.
  intros Hsame. apply eq_true_iff_eq. rewrite !forallb_forall.
  setoid_rewrite <- list_elem_of_In. by setoid_rewrite Hsame.
Qed.

(** X4: [match_node_from_labels] looks at the labels as a set: two lists
    with the same elements give the same node type, so the order in which
    [list(set(labels))] lists the labels of a matrix job, and the
    duplicates it drops, do not change what
    [match_node_from_matrix_job_name] returns. *)
Theorem match_node_from_labels_same_elements (conf_nodes : Catalog)
    (labels1 labels2 : list str) (configured_nodes : option Catalog) :
  (∀ l, l ∈ labels1 ↔ l ∈ labels2) →
  match_node_from_labels conf_nodes (Some labels1) configured_nodes
  = match_node_from_labels conf_nodes (Some labels2) configured_nodes ∧
  ∀ job_name values,
    mapM_result (λ label, py_index (split label (u "=")) 1)
      (split job_name (u ","))
    = Ok values →
    match_node_from_matrix_job_name conf_nodes job_name
    = Ok (match_node_from_labels conf_nodes (Some values) None).
Proof.
  assert (∀ l1 l2 configured,
            (∀ l, l ∈ l1 ↔ l ∈ l2) →
            match_node_from_labels conf_nodes (Some l1) configured
            = match_node_from_labels conf_nodes (Some l2) configured)
    as Hsame.
  { intros l1 l2 configured Hl. unfold match_node_from_labels.
    destruct l1 as [|a l1], l2 as [|b l2]; [done | | |].
    - exfalso. by apply (elem_of_nil b), Hl; left.
    - exfalso. by apply (elem_of_nil a), Hl; left.
    - f_equal. apply find_ext. intros entry _.
      by apply forallb_same_elements. }
  intros Hl. split; [by apply Hsame |].
  intros job_name values Hvalues.
  unfold match_node_from_matrix_job_name, matrix_job_labels.
  rewrite Hvalues. cbn [rbind]. f_equal. apply Hsame.
  intros l. rewrite elem_of_elements. apply elem_of_list_to_set.
Qed.

(** Two orders of the labels of [trusty]. *)
Lemma match_node_from_labels_two_orders :
  match_node_from_labels example_nodes (Some [u "amd64"; u "trusty"]) None
  = match_node_from_labels example_nodes
      (Some [u "trusty"; u "amd64"; u "trusty"]) None.
Proof.
  apply (match_node_from_labels_same_elements example_nodes
           [u "amd64"; u "trusty"] [u "trusty"; u "amd64"; u "trusty"] None).
  intros l. rewrite !elem_of_cons. tauto.
Defined.

Lemma hd_split_go_prefix (sep cur s : str) :
  ∃ p, hd [] (split_go sep 0 cur s) = reverse cur ++ p ∧ p `prefix_of` s.
Proof.
  revert cur. induction s as [|c s IH]; intros cur.
  - exists []. by rewrite app_nil_r.
  - cbn [split_go]. destruct (startswith (c :: s) sep).
    + exists []. split; [by rewrite app_nil_r | apply prefix_nil].
    + destruct (IH (c :: cur)) as (p & -> & Hp). exists (c :: p). split.
      * by rewrite reverse_cons, <- app_assoc.
      * by apply prefix_cons.
Qed.

Lemma hd_split_infix (s sep : str) : infix_of (hd [] (split s sep)) s.
Proof.
  unfold split. destruct (hd_split_go_prefix sep [] s) as (p & -> & [k ->]).
  by exists [], k.
Qed.

(** Once the lookup with the fallback finds nothing, the name cut at its
    first [__] is no key of the catalog either. *)
Lemma get_key_None_clean (conf_nodes : Catalog) (c : N) (node : str) :
  get_key conf_nodes (Some (c :: node)) true = None →
  hd [] (split (c :: node) (u "__")) ∉ conf_nodes.*1.
Proof.
  unfold get_key. case_bool_decide; [done |].
  rewrite find_None_all. intros Hnone Hin.
  specialize (Hnone _ Hin). apply contains_false_infix in Hnone.
  apply Hnone, hd_split_infix.
Qed.

(** X5: [from_offline_node] returns what [get_key] finds, with its
    fallback, for the first word of the reason, and
    [from_offline_executor] what it finds for a non-empty node name: the
    second try, with the name cut at its first [__], never adds a match. *)
Theorem from_offline_node_is_get_key (conf_nodes : Catalog) (string : str) :
  (∀ r,
     from_offline_node conf_nodes string = Ok r →
     ∃ word,
       head (split_ws string) = Some word ∧
       r = get_key conf_nodes (Some word) true) ∧
  (∀ c node,
     from_offline_executor conf_nodes (Some (c :: node))
     = get_key conf_nodes (Some (c :: node)) true).
Proof.
  split.
  - intros r. unfold from_offline_node, get_nodes.
    destruct (py_index (split_ws string) 0) as [word|e] eqn:Hword; [| done].
    cbn [rbind].
    assert (head (split_ws string) = Some word) as Hhead.
    { unfold py_index in Hword. cbn in Hword.
      destruct (split_ws string); [done | by injection Hword as ->]. }
    assert (word ≠ []) as Hne.
    { apply head_Some_elem_of in Hhead.
      by apply split_ws_go_words in Hhead as [? _]; [| intros ? ?%elem_of_nil]. }
    destruct word as [|c word]; [done |].
    destruct (get_key conf_nodes (Some (c :: word)) true) as [found|] eqn:Hkey.
    + intros [= <-]. by exists (c :: word).
    + rewrite bool_decide_false by by apply get_key_None_clean.
      intros [= <-]. by exists (c :: word).
  - intros c node. unfold from_offline_executor, get_nodes.
    destruct (get_key conf_nodes (Some (c :: node)) true) eqn:Hkey; [done |].
    by rewrite bool_decide_false by by apply get_key_None_clean.
Qed.

(** The reason [10.0.0.1__trusty__huge is offline]. *)
Lemma from_offline_node_trusty :
  ∃ word,
    head (split_ws (u "10.0.0.1__trusty__huge is offline")) = Some word ∧
    Some (u "trusty") = get_key example_nodes (Some word) true.
Proof.
  apply (from_offline_node_is_get_key example_nodes
           (u "10.0.0.1__trusty__huge is offline")).
  by vm_compute.
Defined.

(** ** Reading the label out of a reason *)

Lemma split_ws_go_word (cur word rest : str) :
  (∀ c, c ∈ word → isspace c = false) →
  split_ws_go cur (word ++ rest) = split_ws_go (reverse word ++ cur) rest.
Proof.
  revert cur. induction word as [|c word IH]; intros cur Hword; [done |].
  cbn [app split_ws_go]. rewrite (Hword c) by left.
  rewrite IH by (intros d Hd; apply Hword; by right).
  by rewrite reverse_cons, <- app_assoc.
Qed.

Lemma split_ws_go_space (cur rest : str) (c : N) :
  cur ≠ [] → isspace c = true →
  split_ws_go cur (c :: rest) = reverse cur :: split_ws_go [] rest.
Proof. intros Hcur Hc. cbn [split_ws_go]. rewrite Hc. by destruct cur. Qed.

Lemma split_ws_go_end (cur : str) :
  cur ≠ [] → split_ws_go cur [] = [reverse cur].
Proof. by destruct cur. Qed.

Lemma sanitize_string_word (word : str) :
  (∀ c, c ∈ word → c ≠ lsquo ∧ c ≠ rsquo) →
  sanitize_string word false = word.
Proof.
  intros Hword. unfold sanitize_string. cbn [foldl].
  rewrite !replace_char_filter, list_filter_filter.
  induction word as [|c word IH]; [done |].
  destruct (Hword c ltac:(left)) as [? ?].
  rewrite filter_cons, decide_True by done. f_equal.
  apply IH. intros d Hd. apply Hword. by right.
Qed.

Section Reasons.

Variable conf_nodes : Catalog.
Variable jenkins_node_config : str → node_config_response.
Variable label : str.
Hypothesis label_not_empty : label ≠ [].
Hypothesis label_is_word :
  ∀ c, c ∈ label → isspace c = false ∧ c ≠ lsquo ∧ c ≠ rsquo.

Lemma reverse_label_not_empty : reverse label ++ [] ≠ [].
Proof.
  rewrite app_nil_r. intros H%(f_equal length).
  rewrite length_reverse in H. by destruct label.
Qed.

Lemma reverse_reverse_label : reverse (reverse label ++ []) = label.
Proof. by rewrite app_nil_r, reverse_involutive. Qed.

Lemma from_offline_node_label_word :
  from_offline_node_label conf_nodes label
  = Ok (match match_node_from_label conf_nodes label None with
        | Some node => Some node
        | None =>
            match_node_from_label_expr conf_nodes (Some label)
              (Some conf_nodes)
        end).
Proof.
  unfold from_offline_node_label.
  rewrite sanitize_string_word by (intros c Hc; by apply label_is_word).
  unfold split_ws. rewrite <- (app_nil_r label) at 1.
  rewrite split_ws_go_word by (intros c Hc; by apply label_is_word).
  rewrite split_ws_go_end by apply reverse_label_not_empty.
  rewrite reverse_reverse_label.
  rewrite (py_index_last [label] label) by done. cbn [rbind].
  unfold get_nodes.
  destruct (match_node_from_label conf_nodes label None); [done |].
  by destruct (truthy _).
Qed.

Lemma from_offline_node_label_reason :
  from_offline_node_label conf_nodes (no_nodes_reason label)
  = Ok (match match_node_from_label conf_nodes label None with
        | Some node => Some node
        | None =>
            match_node_from_label_expr conf_nodes (Some label)
              (Some conf_nodes)
        end).
Proof.
  unfold from_offline_node_label, no_nodes_reason.
  rewrite !sanitize_string_app.
  rewrite (sanitize_string_word label) by (intros c Hc; by apply label_is_word).
  change (sanitize_string (u "There are no nodes with the label ") false)
    with (u "There are no nodes with the label ").
  change (sanitize_string [lsquo] false) with (@nil N).
  change (sanitize_string [rsquo] false) with (@nil N).
  cbn [app]. rewrite app_nil_r.
  assert (split_ws (u "There are no nodes with the label " ++ label)
          = [u "There"; u "are"; u "no"; u "nodes"; u "with"; u "the";
             u "label"; label]) as ->.
  { unfold split_ws.
    change (u "There are no nodes with the label ")
      with ([84; 104; 101; 114; 101; 32; 97; 114; 101; 32; 110; 111; 32; 110;
             111; 100; 101; 115; 32; 119; 105; 116; 104; 32; 116; 104; 101;
             32; 108; 97; 98; 101; 108; 32]%N).
    cbn [app split_ws_go isspace N.leb N.eqb N.compare Pos.compare
         Pos.compare_cont Pos.eqb andb orb].
    rewrite <- (app_nil_r label) at 1.
    rewrite split_ws_go_word by (intros c Hc; by apply label_is_word).
    rewrite split_ws_go_end by apply reverse_label_not_empty.
    by rewrite reverse_reverse_label. }
  rewrite (py_index_last _ label) by done. cbn [rbind].
  unfold get_nodes.
  destruct (match_node_from_label conf_nodes label None); [done |].
  by destruct (truthy _).
Qed.

End Reasons.

Lemma from_offline_label_reason (conf_nodes : Catalog) (label : str) :
  label ≠ [] →
  (∀ c, c ∈ label → isspace c = false ∧ c ≠ lsquo ∧ c ≠ rsquo) →
  from_offline_label conf_nodes (offline_label_reason label)
  = Ok (match match_node_from_label conf_nodes label None with
        | Some node => Some node
        | None =>
            match_node_from_label_expr conf_nodes (Some label)
              (Some conf_nodes)
        end).
Proof.
  intros Hne Hword. unfold from_offline_label, offline_label_reason.
  rewrite !sanitize_string_app.
  rewrite (sanitize_string_word label) by (intros c Hc; by apply Hword).
  change (sanitize_string (u "All nodes of label ") false)
    with (u "All nodes of label ").
  change (sanitize_string (u " are offline") false) with (u " are offline").
  change (sanitize_string [lsquo] false) with (@nil N).
  change (sanitize_string [rsquo] false) with (@nil N).
  cbn [app].
  assert (split_ws (u "All nodes of label " ++ label ++ u " are offline")
          = [u "All"; u "nodes"; u "of"; u "label"; label; u "are";
             u "offline"]) as ->.
  { unfold split_ws.
    change (u "All nodes of label ")
      with ([65; 108; 108; 32; 110; 111; 100; 101; 115; 32; 111; 102; 32;
             108; 97; 98; 101; 108; 32]%N).
    cbn [app split_ws_go isspace N.leb N.eqb N.compare Pos.compare
         Pos.compare_cont Pos.eqb andb orb].
    rewrite split_ws_go_word by (intros c Hc; by apply Hword).
    change (u " are offline") with (32%N :: u "are offline").
    rewrite split_ws_go_space;
      [| by apply reverse_label_not_empty | done].
    by rewrite reverse_reverse_label. }
  change (py_index _ (-3)) with (Ok label). cbn [rbind].
  rewrite from_offline_node_label_word by done.
  by destruct (match_node_from_label conf_nodes label None) as [[|c node]|].
Qed.

(** X6: for a label that is one word without curly quotes, the reasons
    [All nodes of label ‘label’ are offline] and
    [There are no nodes with the label ‘label’] both go to the first node
    type of the catalog that has the label, and, when none has it, to what
    the label gives as an expression. *)
Theorem label_reasons_read_the_label (conf_nodes : Catalog)
    (jenkins_node_config : str → node_config_response) (label : str) :
  label ≠ [] →
  (∀ c, c ∈ label → isspace c = false ∧ c ≠ lsquo ∧ c ≠ rsquo) →
  match_node conf_nodes jenkins_node_config (offline_label_reason label)
  = Ok (match match_node_from_label conf_nodes label None with
        | Some node => Some node
        | None =>
            match_node_from_label_expr conf_nodes (Some label)
              (Some conf_nodes)
        end) ∧
  match_node conf_nodes jenkins_node_config (no_nodes_reason label)
  = Ok (match match_node_from_label conf_nodes label None with
        | Some node => Some node
        | None =>
            match_node_from_label_expr conf_nodes (Some label)
              (Some conf_nodes)
        end).
Proof.
  intros Hne Hword. split.
  - rewrite <- from_offline_label_reason by done.
    unfold match_node. unfold_summaries.
    assert (startswith (offline_label_reason label) (u "Waiting for")
            = false) as -> by reflexivity.
    assert (startswith (offline_label_reason label) (u "All nodes of label")
            = true) as -> by reflexivity.
    done.
  - rewrite <- from_offline_node_label_reason by done.
    unfold match_node. unfold_summaries.
    assert (startswith (no_nodes_reason label) (u "Waiting for")
            = false) as -> by reflexivity.
    assert (startswith (no_nodes_reason label) (u "All nodes of label")
            = false) as -> by reflexivity.
    assert (endswith (no_nodes_reason label) (u "is offline") = false) as ->.
    { destruct (endswith _ _) eqn:Hends; [| done].
      apply endswith_suffix in Hends as [k Hk].
      apply (f_equal last) in Hk.
      unfold no_nodes_reason in Hk.
      rewrite !app_assoc, last_snoc in Hk.
      change (u "is offline") with (u "is offlin" ++ [101%N]) in Hk.
      by rewrite app_assoc, last_snoc in Hk. }
    assert (startswith (no_nodes_reason label) (u "There are no nodes")
            = true) as -> by reflexivity.
    done.
Qed.

(** The label [x86_64] in both reasons, against the catalog of the
    examples. *)
Lemma label_reasons_x86_64 :
  match_node example_nodes no_node_config (offline_label_reason (u "x86_64"))
  = Ok (Some (u "centos6")) ∧
  match_node example_nodes no_node_config (no_nodes_reason (u "x86_64"))
  = Ok (Some (u "centos6")).
Proof.
  apply (label_reasons_read_the_label example_nodes no_node_config
           (u "x86_64")).
  - done.
  - intros c Hc.
    repeat (apply elem_of_cons in Hc as [-> | Hc]; [done |]).
    by apply elem_of_nil in Hc.
Defined.

(** ** Splitting on a separator *)

(** A split has more than one piece exactly when the separator occurs. *)
Lemma split_go_length_contains (c : N) (sep cur s : str) :
  (1 < length (split_go (c :: sep) 0 cur s))%nat ↔
  contains s (c :: sep) = true.
Proof.
  revert cur. induction s as [|d s IH]; intros cur.
  - cbn. split; [lia | done].
  - cbn [split_go contains].
    destruct (startswith (d :: s) (c :: sep)) eqn:Hstart.
    + cbn [orb length]. split; [done | intros _].
      pose proof (split_go_nonempty (c :: sep)
                    (length (c :: sep) - 1) [] s) as Hne.
      destruct (split_go _ _ _ s); [done | cbn [length]; lia].
    + cbn [orb]. apply IH.
Qed.

Lemma contains_singleton (s : str) (c : N) :
  contains s [c] = true ↔ c ∈ s.
Proof.
  rewrite contains_infix. split.
  - intros (before & after & ->). apply elem_of_app. right. left.
  - intros (before & after & ->)%list_elem_of_split. by exists before, after.
Qed.

Lemma py_index_1_Ok {A} (l : list A) :
  (∃ x, py_index l 1 = Ok x) ↔ (1 < length l)%nat.
Proof.
  unfold py_index. cbn. destruct l as [|a [|b l]]; cbn.
  - split; [by intros [? ?] | lia].
  - split; [by intros [? ?] | lia].
  - split; [lia | eauto].
Qed.

Lemma mapM_result_Ok {A B} (f : A → result B) (l : list A) :
  (∃ ys, mapM_result f l = Ok ys) ↔ ∀ x, x ∈ l → ∃ y, f x = Ok y.
Proof.
  induction l as [|a l IH]; cbn [mapM_result].
  - split; [intros _ x Hx; by apply elem_of_nil in Hx | eauto].
  - split.
    + intros [ys Hys]. destruct (f a) as [y|e] eqn:Ha; [| done].
      cbn [rbind] in Hys.
      destruct (mapM_result f l) as [ys'|e] eqn:Hl; [| done].
      intros x [-> | Hx]%elem_of_cons; [eauto |].
      apply IH; eauto.
    + intros Hall. destruct (Hall a ltac:(left)) as [y ->]. cbn [rbind].
      destruct (proj2 IH) as [ys ->]; [| cbn; eauto].
      intros x Hx. apply Hall. by right.
Qed.

(** X7: reading the labels off a matrix job name raises [IndexError]
    exactly when one of the parts between the commas has no [=] (the empty
    name has one such part), and raises nothing else; then
    [match_node_from_matrix_job_name] raises the same. *)
Theorem matrix_job_labels_raises_iff_part_without_equals (conf_nodes : Catalog)
    (job_name : str) :
  (matrix_job_labels job_name = Raise IndexError ↔
   ∃ part, part ∈ split job_name (u ",") ∧ 61%N ∉ part) ∧
  (∀ e, matrix_job_labels job_name = Raise e → e = IndexError) ∧
  (match_node_from_matrix_job_name conf_nodes job_name = Raise IndexError ↔
   ∃ part, part ∈ split job_name (u ",") ∧ 61%N ∉ part) ∧
  matrix_job_labels [] = Raise IndexError.
Proof.
  assert (matrix_job_labels job_name = Raise IndexError ↔
          ∃ part, part ∈ split job_name (u ",") ∧ 61%N ∉ part) as Hiff.
  { assert ((∃ labels_, matrix_job_labels job_name = Ok labels_) ↔
            ∀ part, part ∈ split job_name (u ",") → 61%N ∈ part) as Hok.
    { unfold matrix_job_labels.
      transitivity (∃ values,
                      mapM_result (λ label, py_index (split label (u "=")) 1)
                        (split job_name (u ",")) = Ok values).
      - split.
        + intros [labels_ H].
          destruct (mapM_result _ _) as [values|e]; [eauto | done].
        + intros [values ->]. cbn [rbind]. eauto.
      - rewrite mapM_result_Ok.
        apply forall_proper. intros part.
        rewrite py_index_1_Ok. unfold split.
        change (u "=") with [61%N].
        by rewrite split_go_length_contains, contains_singleton. }
    split.
    - intros Hraise.
      destruct (decide (Forall (λ part, 61%N ∈ part) (split job_name (u ","))))
        as [Hall | Hnot].
      + rewrite Forall_forall in Hall. apply Hok in Hall as [labels_ Hl].
        congruence.
      + apply not_Forall_Exists in Hnot; [| apply _].
        by apply Exists_exists in Hnot.
    - intros (part & Hpart & Hno).
      destruct (matrix_job_labels job_name) as [labels_|e] eqn:Hl.
      + exfalso. apply Hno. apply Hok; eauto.
      + by rewrite (matrix_job_labels_raises _ _ Hl). }
  split_and!.
  - done.
  - apply matrix_job_labels_raises.
  - rewrite <- Hiff. unfold match_node_from_matrix_job_name.
    destruct (matrix_job_labels job_name); cbn [rbind];
      [by split | split; by intros [= ->]].
  - reflexivity.
Qed.

(** ** Further properties of mita/async.py *)




(** X9: entries of the queue without a reason, or with a reason that is
    none of the five that [is_stuck] knows, are passed over: a run of
    [check_queue] on a queue of such entries ends without an exception and
    posts nothing. *)
Theorem check_queue_passes_over_unstuck (conf_nodes : Catalog)
    (server_host server_port : str)
    (jenkins_node_config : str → node_config_response)
    (http_get_job_config : str → job_config_response)
    (jenkins_has_job : str → bool) (tasks : list Task) :
  (∀ task, task ∈ tasks →
           why task = None ∨
           ∃ reason, why task = Some reason ∧ is_stuck reason = false) →
  check_queue conf_nodes server_host server_port jenkins_node_config
    http_get_job_config jenkins_has_job (QueueItems tasks) = ([], None).
Proof.
  intros Hunstuck. rewrite check_queue_items.
  assert (scan_queue conf_nodes jenkins_node_config http_get_job_config
            jenkins_has_job ∅ tasks = Ok ∅) as ->.
  { induction tasks as [|task tasks IH]; [done |]. cbn [scan_queue].
    assert (needed_node conf_nodes jenkins_node_config http_get_job_config
              jenkins_has_job task = Ok None) as ->.
    { unfold needed_node.
      destruct (Hunstuck task ltac:(left)) as [-> | (reason & -> & ->)]; done. }
    cbn [rbind]. apply IH. intros task' Hin. apply Hunstuck. by right. }
  by rewrite map_to_list_empty.
Qed.

(** A queue of an entry that is settling and one that waits for a
    checkout. *)
Lemma check_queue_settling_queue :
  check_queue example_nodes api_host api_port no_node_config no_job_config
    no_job
    (QueueItems
       [settling;
        {| why := Some (u "Build #12 is already in progress");
           task_name := u "build";
           task_url := u "http://jenkins/job/build/" |}])
  = ([], None).
Proof.
  apply check_queue_passes_over_unstuck.
  intros task [-> | [-> | []%elem_of_nil]%elem_of_cons]%elem_of_cons.
  - by left.
  - right. eexists. split; [done | by vm_compute].
Defined.

(** ** Further properties of the orphan reaper *)

Lemma reaped_app (a b : list event) : reaped a → reaped b → reaped (a ++ b).
Proof.
  induction 1; intros Hb; cbn [app]; [done | by constructor; auto ..].
Qed.

Section ReaperTrace.

Variable World : Type.
Variable query_all : World → result (list Node) * World.
Variable jenkins_node_exists : str → World → driver_result bool * World.
Variable utcnow : World → datetime * World.
Variable providers_get : str → Provider World.
Variable providers_conf : list str.

(** What [reap] adds to the requests: nothing, the request to destroy the
    node, or that request with the deletion of the record and the commit;
    it raises only what the query to Jenkins raises. *)
Lemma reap_requests (node : Node) (w : World) (tr : list event) :
  ∃ w' new,
    ((reap World jenkins_node_exists utcnow providers_get node (w, tr)
      = (Ok tt, (w', tr ++ new))) ∨
     (∃ class,
        reap World jenkins_node_exists utcnow providers_get node (w, tr)
        = (Raise (External class), (w', tr ++ new)) ∧ new = [])) ∧
    (new = [] ∨
     new = [DestroyNode (provider node) (cloud_name node)] ∨
     new = [DestroyNode (provider node) (cloud_name node);
            NodeDelete node; Commit]).
Proof.
  remember (reap World jenkins_node_exists utcnow providers_get node (w, tr))
    as res eqn:Hres.
  assert (∀ now w1,
            ∃ w' new,
              ((if seconds (datetime_sub now (created node)) >? 900
                then destroy_orphan World providers_get node
                else (λ s, (Ok tt, s))) (w1, tr)
               = (Ok tt, (w', tr ++ new))) ∧
              (new = [] ∨
               new = [DestroyNode (provider node) (cloud_name node)] ∨
               new = [DestroyNode (provider node) (cloud_name node);
                      NodeDelete node; Commit])) as Hlate.
  { intros now w1. destruct (seconds _ >? 900).
    - rewrite destroy_orphan_outcome.
      destruct (provider_destroy_node _ _ _) as [r w2].
      exists w2. eexists. split; [reflexivity |].
      destruct r as [[]|[]]; auto.
    - exists w1, []. by rewrite app_nil_r; auto. }
  unfold reap, bind, in_world, call, ret in Hres.
  cbv beta iota delta [fst snd] in Hres.
  destruct (jenkins_name node) as [[|c name]|].
  - destruct (utcnow w) as [now w1].
    destruct (Hlate now w1) as (w' & new & Heq & Hnew).
    rewrite Heq in Hres. exists w', new. subst res. auto.
  - destruct (jenkins_node_exists (c :: name) w) as [[[|]|class] w1].
    + exists w1, []. rewrite app_nil_r. subst res. auto.
    + destruct (utcnow w1) as [now w2].
      destruct (Hlate now w2) as (w' & new & Heq & Hnew).
      rewrite Heq in Hres. exists w', new. subst res. auto.
    + exists w1, []. rewrite app_nil_r. subst res. split; [right | auto].
      by exists class.
  - destruct (utcnow w) as [now w1].
    destruct (Hlate now w1) as (w' & new & Heq & Hnew).
    rewrite Heq in Hres. exists w', new. subst res. auto.
Qed.

Lemma for_each_reap_requests (nodes : list Node) (w : World)
    (tr : list event) :
  ∃ r w' new,
    for_each (reap World jenkins_node_exists utcnow providers_get) nodes
      (w, tr) = (r, (w', tr ++ new)) ∧
    reaped new ∧
    (∀ e, e ∈ new →
          ∃ node, node ∈ nodes ∧
                  (e = DestroyNode (provider node) (cloud_name node) ∨
                   e = NodeDelete node ∨ e = Commit)).
Proof.
  revert w tr. induction nodes as [|node nodes IH]; intros w tr.
  - exists (Ok tt), w, []. rewrite app_nil_r.
    split_and!; [done | constructor |]. by intros e ?%elem_of_nil.
  - cbn [for_each]. unfold bind at 1.
    destruct (reap_requests node w tr)
      as (w1 & new1 & [Hreap | (class & Hreap & ->)] & Hnew1);
      rewrite Hreap.
    + destruct (IH w1 (tr ++ new1)) as (r & w2 & new2 & Hrest & Hreaped & Hin).
      exists r, w2, (new1 ++ new2). rewrite app_assoc. split_and!.
      * exact Hrest.
      * apply reaped_app; [| done].
        destruct Hnew1 as [-> | [-> | ->]];
          [ constructor
          | apply reaped_destroy; constructor
          | apply reaped_delete; constructor ].
      * intros e [He | He]%elem_of_app.
        -- exists node. split; [left |].
           destruct Hnew1 as [-> | [-> | ->]].
           ++ by apply elem_of_nil in He.
           ++ apply list_elem_of_singleton in He. auto.
           ++ repeat (apply elem_of_cons in He as [-> | He]; [auto |]).
              by apply elem_of_nil in He.
        -- destruct (Hin e He) as (node' & Hnode' & Hshape).
           exists node'. split; [by right | done].
    + exists (Raise (External class)), w1, [].
      split_and!; [done | constructor |]. by intros e ?%elem_of_nil.
Qed.

Lemma for_each_purge_requests (names : list str) (w : World)
    (tr : list event) :
  ∃ r w' new,
    for_each
      (λ provider_name,
         do_ emit World (Purge provider_name);
         do_ in_world World (provider_purge (providers_get provider_name));
         ret tt)
      names (w, tr) = (r, (w', tr ++ new)) ∧
    reaped new ∧ ∀ e, e ∈ new → ∃ name, name ∈ names ∧ e = Purge name.
Proof.
  set (body := λ provider_name : str,
         do_ emit World (Purge provider_name);
         do_ in_world World (provider_purge (providers_get provider_name));
         ret (S := pass World) tt).
  assert (∀ name w tr,
            body name (w, tr)
            = match provider_purge (providers_get name) w with
              | (Ok _, w1) => (Ok tt, (w1, tr ++ [Purge name]))
              | (Raise e, w1) => (Raise e, (w1, tr ++ [Purge name]))
              end) as Hbody.
  { intros name w0 tr0. unfold body, bind, emit, in_world, ret.
    cbv beta iota delta [fst snd].
    by destruct (provider_purge (providers_get name) w0) as [[b|e] w1]. }
  revert w tr. induction names as [|name names IH]; intros w tr.
  - exists (Ok tt), w, []. rewrite app_nil_r.
    split_and!; [done | constructor |]. by intros e ?%elem_of_nil.
  - cbn [for_each]. unfold bind at 1. rewrite Hbody.
    destruct (provider_purge (providers_get name) w) as [[b|e] w1].
    + destruct (IH w1 (tr ++ [Purge name]))
        as (r & w2 & new & Hrest & Hreaped & Hin).
      exists r, w2, (Purge name :: new).
      split_and!.
      * rewrite Hrest. by rewrite <- app_assoc.
      * by constructor.
      * intros e' [-> | He']%elem_of_cons.
        -- exists name. split; [left | done].
        -- destruct (Hin e' He') as (name' & Hname' & ->).
           exists name'. split; [by right | done].
    + exists (Raise e), w1, [Purge name].
      split_and!; [done | repeat constructor |].
      intros e' ->%list_elem_of_singleton. exists name. split; [left | done].
Qed.

(** X10: in the requests of a run of [check_orphaned], however the
    services answer and however the run ends, a record is deleted only
    right after the request to destroy that very node, and the deletion is
    committed at once; the nodes named are nodes of the registry, the
    providers purged are the configured ones. *)
Theorem check_orphaned_deletes_only_after_destroy (w : World) :
  ∃ r w' tr,
    check_orphaned World query_all jenkins_node_exists utcnow providers_get
      providers_conf (w, []) = (r, (w', tr)) ∧
    reaped tr ∧
    ∀ nodes w1,
      query_all w = (Ok nodes, w1) →
      ∀ e, e ∈ tr →
           (∃ node, node ∈ nodes ∧
                    (e = DestroyNode (provider node) (cloud_name node) ∨
                     e = NodeDelete node ∨ e = Commit)) ∨
           (∃ name, name ∈ providers_conf ∧ e = Purge name).
Proof.
  unfold check_orphaned, bind at 1, try_except, bind at 1, in_world at 1.
  cbv beta iota delta [fst snd].
  destruct (query_all w) as [[nodes|e] w1].
  - unfold ret at 1. unfold bind at 1.
    destruct (for_each_reap_requests nodes w1 [])
      as (r & w2 & new & Hloop & Hreaped & Hin).
    rewrite Hloop. cbn [app].
    destruct r as [[]|e].
    + destruct (for_each_purge_requests providers_conf w2 new)
        as (r' & w3 & new' & Hpurge & Hreaped' & Hin').
      rewrite Hpurge. exists r', w3, (new ++ new').
      split_and!; [done | by apply reaped_app |].
      intros nodes' w1' [= <- <-] e [He | He]%elem_of_app; [left | right]; auto.
    + exists (Raise e), w2, new. split_and!; [done | done |].
      intros nodes' w1' [= <- <-] e' He. left. auto.
  - destruct (decide (e = InvalidRequestError)) as [-> | Hne].
    + exists (Ok tt), w1, [Rollback].
      split_and!; [done | repeat constructor | done].
    + exists (Raise e), w1, [].
      split_and!; [by destruct e | constructor | done].
Qed.

End ReaperTrace.

(** ** Further properties of the OpenStack provider *)

Section PurgeFacts.

Variable World : Type.
Variable list_nodes : World → driver_result (list CloudNode) * World.
Variable node_destroy : CloudNode → World → driver_result bool * World.

(** X11: [purge], when the driver lists the nodes and every [destroy]
    returns, returns [True] exactly when a listed node is in error state
    (state 7, state [error], or [state=ERROR] in its [str]) and [None]
    exactly when none is, and then it has only listed the nodes. *)
Theorem purge_returns_true_iff_error_node (w w1 : World)
    (nodes : list CloudNode) :
  list_nodes w = (Returns nodes, w1) →
  (∀ node w0, ∃ b w0', node_destroy node w0 = (Returns b, w0')) →
  ∃ r w2,
    purge World list_nodes node_destroy w = (Ok r, w2) ∧
    (r = Some true ↔
     ∃ node, node ∈ nodes ∧
             (node_state node = StateNumber 7 ∨
              infix_of (u "state=ERROR") (node_str node) ∨
              node_state node = StateName (u "error"))) ∧
    (r = None ↔
     ∀ node, node ∈ nodes →
             ¬ (node_state node = StateNumber 7 ∨
                infix_of (u "state=ERROR") (node_str node) ∨
                node_state node = StateName (u "error"))) ∧
    (r = None → w2 = w1).
Proof.
  intros Hlist Hdestroy. unfold purge, bind at 1, call at 1. rewrite Hlist.
  unfold bind at 1.
  match goal with
  | |- context [?f nodes 0 w1] => set (loop := f)
  end.
  assert (∀ node,
            bool_decide (node_state node = StateNumber 7)
            || contains (node_str node) (u "state=ERROR")
            || bool_decide (node_state node = StateName (u "error")) = true ↔
            (node_state node = StateNumber 7 ∨
             infix_of (u "state=ERROR") (node_str node) ∨
             node_state node = StateName (u "error"))) as Herror.
  { intros node.
    rewrite !orb_true_iff, !bool_decide_eq_true, contains_infix. tauto. }
  assert (∀ l d w0,
            0 ≤ d →
            ∃ d' w',
              loop l d w0 = (Ok d', w') ∧ d ≤ d' ∧
              (d' = d ↔
               ∀ node, node ∈ l →
                       ¬ (node_state node = StateNumber 7 ∨
                          infix_of (u "state=ERROR") (node_str node) ∨
                          node_state node = StateName (u "error"))) ∧
              (d' = d → w' = w0)) as Hloop.
  { induction l as [|node l IH]; intros d w0 Hd.
    - exists d, w0. split_and!; [done | lia | | done].
      split; [intros _ node Hnode; by apply elem_of_nil in Hnode | done].
    - cbn [loop]. fold loop.
      destruct (bool_decide (node_state node = StateNumber 7)
                || contains (node_str node) (u "state=ERROR")
                || bool_decide (node_state node = StateName (u "error")))
        eqn:Hnode.
      + unfold bind at 1, call at 1.
        destruct (Hdestroy node w0) as (b & w0' & ->).
        destruct (IH (d + 1) w0' ltac:(lia)) as (d' & w' & -> & Hle & _ & _).
        exists d', w'. split_and!; [done | lia | | lia].
        split; [lia |]. intros Hnone. exfalso.
        apply (Hnone node); [left | by apply Herror].
      + destruct (IH d w0 Hd) as (d' & w' & -> & Hle & Hiff & Hsame).
        exists d', w'. split_and!; [done | done | | done].
        rewrite Hiff. split.
        * intros Hrest node' [-> | Hin]%elem_of_cons; [| by apply Hrest].
          rewrite <- Herror. by rewrite Hnode.
        * intros Hall node' Hin. apply Hall. by right. }
  destruct (Hloop nodes 0 w1 ltac:(lia)) as (d' & w' & -> & Hle & Hiff & Hsame).
  destruct (Z.eqb_spec d' 0) as [-> | Hne].
  - exists None, w'. unfold ret. split_and!; [done | | | auto].
    + split; [done |]. intros (node & Hin & Hnode). exfalso.
      by apply (proj1 Hiff eq_refl node).
    + split; [intros _; by apply Hiff | done].
  - exists (Some true), w'. unfold ret. split_and!; [done | | | done].
    + split; [intros _ | done].
      destruct (decide (Exists (λ node,
                  bool_decide (node_state node = StateNumber 7)
                  || contains (node_str node) (u "state=ERROR")
                  || bool_decide (node_state node = StateName (u "error"))
                  = true) nodes)) as [Hex | Hnot].
      * apply Exists_exists in Hex as (node & Hin & Hnode).
        exists node. split; [done | by apply Herror].
      * exfalso. apply Hne, Hiff. intros node Hin Hnode.
        apply Hnot, Exists_exists. exists node. split; [done |].
        by apply Herror.
    + split; [done |]. intros Hnone. exfalso. by apply Hne, Hiff.
Qed.

End PurgeFacts.

(** The purge of a cloud with a machine in the state [error]. *)
Lemma purge_failed_machine :
  ∃ r w2,
    purge cloud cloud_list_nodes cloud_destroy_node
      (cloud_running [running_machine; failed_machine] []) = (Ok r, w2) ∧
    (r = Some true ↔
     ∃ node, node ∈ [running_machine; failed_machine] ∧
             (node_state node = StateNumber 7 ∨
              infix_of (u "state=ERROR") (node_str node) ∨
              node_state node = StateName (u "error"))) ∧
    (r = None ↔
     ∀ node, node ∈ [running_machine; failed_machine] →
             ¬ (node_state node = StateNumber 7 ∨
                infix_of (u "state=ERROR") (node_str node) ∨
                node_state node = StateName (u "error"))) ∧
    (r = None →
     w2 = cloud_running [running_machine; failed_machine] []).
Proof.
  apply (purge_returns_true_iff_error_node cloud cloud_list_nodes
           cloud_destroy_node
           (cloud_running [running_machine; failed_machine] [])).
  - reflexivity.
  - intros node w0. eexists _, _. reflexivity.
Defined.

Section OpenStackMore.

Variable World : Type.
Variable list_nodes : World → driver_result (list CloudNode) * World.
Variable driver_destroy_node : CloudNode → World → driver_result bool * World.
Variable list_volumes : World → driver_result (list Volume) * World.
Variable driver_destroy_volume : Volume → World → driver_result bool * World.
Variable sleep : Z → World → World.

(** [get_volume] after the volumes are listed. *)
Lemma get_volume_listed (name : str) (w w1 : World) (volumes : list Volume) :
  list_volumes w = (Returns volumes, w1) →
  get_volume World list_volumes name w
  = (Ok (default (UnavailableVolume name)
           (List.find (λ v, bool_decide (volume_name v = name)) volumes)),
     w1).
Proof.
  intros Hlist. unfold get_volume, bind, call. rewrite Hlist.
  rewrite <- head_filter_find. by destruct (List.filter _ volumes).
Qed.

Lemma get_volume_name (name : str) (w w' : World) (v : Volume) :
  get_volume World list_volumes name w = (Ok v, w') → volume_name v = name.
Proof.
  unfold get_volume, bind, call.
  destruct (list_volumes w) as [[volumes|class] w1]; [| done].
  destruct (List.filter _ volumes) as [|v' rest] eqn:Hfilter.
  - by intros [= <- _].
  - intros [= <- _].
    assert (In v' (List.filter (λ v, bool_decide (volume_name v = name))
                     volumes)) as Hin by (rewrite Hfilter; by left).
    apply filter_In in Hin as [_ Hname]. by apply bool_decide_eq_true in Hname.
Qed.

(** X12: [destroy_node] asks the driver to destroy the first listed node of
    that name and no other: when the driver answers with a false value it
    raises [RuntimeError] and leaves the volume alone, when the driver
    raises so does it, and otherwise it goes on to [destroy_volume]. *)
Theorem destroy_node_destroys_first_of_name (name : str) (w w1 : World)
    (before after : list CloudNode) (node : CloudNode) :
  list_nodes w = (Returns (before ++ node :: after), w1) →
  (∀ other, other ∈ before → node_name other ≠ name) →
  node_name node = name →
  destroy_node World list_nodes driver_destroy_node list_volumes
    driver_destroy_volume name w
  = match driver_destroy_node node w1 with
    | (Returns true, w2) =>
        destroy_volume World list_volumes driver_destroy_volume name w2
    | (Returns false, w2) => (Raise RuntimeError, w2)
    | (Fails class, w2) => (Raise (External class), w2)
    end.
Proof.
  intros Hlist Hbefore Hnode.
  unfold destroy_node, bind at 1, call at 1. rewrite Hlist. clear Hlist.
  induction before as [|other before IH].
  - cbn [app]. rewrite bool_decide_eq_true_2 by done.
    unfold try_except, bind, call, raise, ret.
    destruct (driver_destroy_node node w1) as [[[|]|class] w2];
      cbn [negb]; [| done | done].
    by destruct (destroy_volume _ _ _ name w2) as [[[]|e] w3].
  - cbn [app]. rewrite bool_decide_eq_false_2 by (apply Hbefore; left).
    apply IH. intros other' Hin. apply Hbefore. by right.
Qed.

(** X13: [get_volume] always gives a volume of the name it was asked for:
    the first listed volume of that name, or, when none is listed, a
    volume in the state [notfound]. *)
Theorem get_volume_first_of_name_or_notfound (name : str) (w w1 : World)
    (volumes : list Volume) :
  list_volumes w = (Returns volumes, w1) →
  ∃ v,
    get_volume World list_volumes name w = (Ok v, w1) ∧
    volume_name v = name ∧
    ((∃ before after,
        volumes = before ++ v :: after ∧
        ∀ other, other ∈ before → volume_name other ≠ name) ∨
     (v = UnavailableVolume name ∧
      volume_state v = StateName (u "notfound") ∧
      ∀ other, other ∈ volumes → volume_name other ≠ name)).
Proof.
  intros Hlist. rewrite (get_volume_listed name w w1 volumes Hlist).
  destruct (List.find (λ v, bool_decide (volume_name v = name)) volumes)
    as [v|] eqn:Hfind.
  - exists v. cbn [default].
    apply find_Some_first in Hfind as (before & after & -> & Hv & Hbefore).
    apply bool_decide_eq_true in Hv.
    split_and!; [done | done |]. left. exists before, after.
    split; [done |]. intros other Hin.
    specialize (Hbefore other Hin). by apply bool_decide_eq_false in Hbefore.
  - exists (UnavailableVolume name). cbn [default].
    split_and!; [done | done |]. right. split_and!; [done | done |].
    intros other Hin. rewrite find_None_all in Hfind.
    specialize (Hfind other Hin). by apply bool_decide_eq_false in Hfind.
Qed.

(** X14: [destroy_volume] asks the driver to destroy nothing when no
    listed volume has the name; otherwise it asks for the first listed
    volume of that name, and returns whatever the driver answers, a false
    value too: only an exception of the driver is passed on. *)
Theorem destroy_volume_only_a_listed_volume (name : str) (w w1 : World)
    (volumes : list Volume) :
  list_volumes w = (Returns volumes, w1) →
  ((∀ other, other ∈ volumes → volume_name other ≠ name) →
   destroy_volume World list_volumes driver_destroy_volume name w
   = (Ok tt, w1)) ∧
  (∀ before v after,
     volumes = before ++ v :: after →
     (∀ other, other ∈ before → volume_name other ≠ name) →
     volume_name v = name →
     volume_state v ≠ StateName (u "notfound") →
     destroy_volume World list_volumes driver_destroy_volume name w
     = match driver_destroy_volume v w1 with
       | (Returns _, w2) => (Ok tt, w2)
       | (Fails class, w2) => (Raise (External class), w2)
       end).
Proof.
  intros Hlist. split.
  - intros Hnone. unfold destroy_volume, bind at 1.
    rewrite (get_volume_listed name w w1 volumes Hlist).
    rewrite (proj2 (find_None_all _ volumes)); [done |].
    intros other Hin. apply bool_decide_eq_false. by apply Hnone.
  - intros before v after Hvolumes Hbefore Hname Hstate.
    unfold destroy_volume, bind at 1.
    rewrite (get_volume_listed name w w1 volumes Hlist). subst volumes.
    rewrite (proj2 (find_Some_first _ (before ++ v :: after) v)).
    + cbn [default]. rewrite bool_decide_eq_false_2 by done. cbn [negb].
      unfold bind, call, ret, id.
      by destruct (driver_destroy_volume v w1) as [[b|class] w2].
    + exists before, after. split_and!; [done | |].
      * by apply bool_decide_eq_true.
      * intros other Hin. apply bool_decide_eq_false. by apply Hbefore.
Qed.

(** The loop of the wait, from any value of the counter. *)
Lemma wait_loop_ends (fuel : nat) (ok_states : list state_value)
    (volume : Volume) (tries : Z) (w : World) :
  0 ≤ tries ≤ 10 → 11 - tries ≤ Z.of_nat fuel →
  (∃ final polls w',
     wait_loop World list_volumes sleep fuel ok_states volume tries w
     = (Ok (Some (final, polls)), w') ∧
     volume_name final = volume_name volume ∧
     tries ≤ polls ≤ 11 ∧
     ((volume_state final ∉ ok_states) ∨
      volume_state final = StateName (u "notfound") ∨ polls = 11) ∧
     (polls = tries ↔ (volume_state volume ∉ ok_states)) ∧
     (polls = tries → final = volume ∧ w' = w)) ∨
  (∃ class w1 w',
     list_volumes w1 = (Fails class, w') ∧
     wait_loop World list_volumes sleep fuel ok_states volume tries w
     = (Raise (External class), w')).
Proof.
  revert volume tries w.
  induction fuel as [|fuel IH]; intros volume tries w Htries Hfuel; [lia |].
  rewrite wait_loop_step. case_bool_decide as Hstate.
  2: { left. exists volume, tries, w. split_and!; try done; try lia.
       by left. }
  destruct (get_volume_outcome World list_volumes (volume_name volume)
              (sleep 3 w))
    as [(v & w' & Hv) | (class & w' & Hfails & Hv)]; rewrite Hv.
  2: { right. by exists class, (sleep 3 w), w'. }
  pose proof (get_volume_name _ _ _ _ Hv) as Hname.
  destruct (Z.gtb_spec (tries + 1) 10) as [Hmax | Hmore].
  { left. exists v, (tries + 1), w'.
    split_and!; [done | done | lia | lia | right; right; lia | | lia].
    split; [lia | done]. }
  case_bool_decide as Hnotfound.
  { left. exists v, (tries + 1), w'.
    split_and!; [done | done | lia | lia | by right; left | | lia].
    split; [lia | done]. }
  destruct (IH v (tries + 1) w' ltac:(lia) ltac:(lia))
    as [(final & polls & w'' & -> & Hfinal & Hpolls & Hends & _ & _)
       | (class & w1 & w'' & H & ->)].
  - left. exists final, polls, w''.
    split_and!; [done | congruence | lia | lia | done | | lia].
    split; [lia | done].
  - right. by exists class, w1, w''.
Qed.

(** X15: the loop of [_wait_until_volume_available] polls the volume of
    the same name each time and ends when the state polled is not one to
    wait for, when the volume is not found, or with the eleventh poll; it
    does not poll at all, and leaves the world as it is, exactly when the
    volume it is given is not in a state to wait for. Only an exception of
    the driver ends it otherwise. *)
Theorem wait_loop_ends_on_state_or_eleventh_poll (fuel : nat)
    (ok_states : list state_value) (volume : Volume) (w : World) :
  (11 ≤ fuel)%nat →
  (∃ final polls w',
     wait_loop World list_volumes sleep fuel ok_states volume 0 w
     = (Ok (Some (final, polls)), w') ∧
     volume_name final = volume_name volume ∧
     0 ≤ polls ≤ 11 ∧
     ((volume_state final ∉ ok_states) ∨
      volume_state final = StateName (u "notfound") ∨ polls = 11) ∧
     (polls = 0 ↔ (volume_state volume ∉ ok_states)) ∧
     (polls = 0 → final = volume ∧ w' = w)) ∨
  (∃ class w1 w',
     list_volumes w1 = (Fails class, w') ∧
     wait_loop World list_volumes sleep fuel ok_states volume 0 w
     = (Raise (External class), w')).
Proof.
  intros Hfuel. apply wait_loop_ends; lia.
Qed.

End OpenStackMore.

(** The second of two machines is the one of the name. *)
Lemma destroy_node_second_machine :
  destroy_node cloud cloud_list_nodes cloud_destroy_node cloud_list_volumes
    cloud_destroy_volume (u "centos6__b56d0e4a")
    (cloud_running [failed_machine; running_machine] [])
  = match cloud_destroy_node running_machine
            (cloud_running [failed_machine; running_machine] []) with
    | (Returns true, w2) =>
        destroy_volume cloud cloud_list_volumes cloud_destroy_volume
          (u "centos6__b56d0e4a") w2
    | (Returns false, w2) => (Raise RuntimeError, w2)
    | (Fails class, w2) => (Raise (External class), w2)
    end.
Proof.
  apply (destroy_node_destroys_first_of_name cloud cloud_list_nodes
           cloud_destroy_node cloud_list_volumes cloud_destroy_volume
           (u "centos6__b56d0e4a")
           (cloud_running [failed_machine; running_machine] [])
           (cloud_running [failed_machine; running_machine] [])
           [failed_machine] [] running_machine).
  - reflexivity.
  - intros other Hin. apply list_elem_of_singleton in Hin as ->.
    by vm_compute.
  - reflexivity.
Defined.

(** The volume of a machine, listed and available. *)
Lemma get_volume_available_volume :
  ∃ v,
    get_volume cloud cloud_list_volumes (u "centos6__b56d0e4a")
      (cloud_running [] [[data_volume (u "available")]])
    = (Ok v, cloud_running [] []) ∧
    volume_name v = u "centos6__b56d0e4a" ∧
    ((∃ before after,
        [data_volume (u "available")] = before ++ v :: after ∧
        ∀ other, other ∈ before →
                 volume_name other ≠ u "centos6__b56d0e4a") ∨
     (v = UnavailableVolume (u "centos6__b56d0e4a") ∧
      volume_state v = StateName (u "notfound") ∧
      ∀ other, other ∈ [data_volume (u "available")] →
               volume_name other ≠ u "centos6__b56d0e4a")).
Proof.
  apply (get_volume_first_of_name_or_notfound cloud cloud_list_volumes
           (u "centos6__b56d0e4a")
           (cloud_running [] [[data_volume (u "available")]])
           (cloud_running [] []) [data_volume (u "available")]).
  reflexivity.
Defined.

(** The volume of a machine is destroyed when it is listed. *)
Lemma destroy_volume_available_volume :
  destroy_volume cloud cloud_list_volumes cloud_destroy_volume
    (u "centos6__b56d0e4a")
    (cloud_running [] [[data_volume (u "available")]])
  = (Ok tt, cloud_running [] []).
Proof.
  destruct (destroy_volume_only_a_listed_volume cloud cloud_list_volumes
              cloud_destroy_volume (u "centos6__b56d0e4a")
              (cloud_running [] [[data_volume (u "available")]])
              (cloud_running [] []) [data_volume (u "available")]
              eq_refl) as [_ Hlisted].
  rewrite (Hlisted [] (data_volume (u "available")) []).
  - reflexivity.
  - reflexivity.
  - intros other Hin. by apply elem_of_nil in Hin.
  - reflexivity.
  - by vm_compute.
Defined.

(** The loop for a volume that stays in the state [creating]. *)
Lemma wait_loop_stuck_creating :
  (∃ final polls w',
     wait_loop cloud cloud_list_volumes cloud_sleep 11
       [StateName (u "creating"); StateNumber 3; StateName (u "in_use")]
       (data_volume (u "creating")) 0 cloud_stuck_creating
     = (Ok (Some (final, polls)), w') ∧
     volume_name final = volume_name (data_volume (u "creating")) ∧
     0 ≤ polls ≤ 11 ∧
     ((volume_state final
       ∉ [StateName (u "creating"); StateNumber 3; StateName (u "in_use")]) ∨
      volume_state final = StateName (u "notfound") ∨ polls = 11) ∧
     (polls = 0 ↔
      (volume_state (data_volume (u "creating"))
       ∉ [StateName (u "creating"); StateNumber 3;
          StateName (u "in_use")])) ∧
     (polls = 0 →
      final = data_volume (u "creating") ∧ w' = cloud_stuck_creating)) ∨
  (∃ class w1 w',
     cloud_list_volumes w1 = (Fails class, w') ∧
     wait_loop cloud cloud_list_volumes cloud_sleep 11
       [StateName (u "creating"); StateNumber 3; StateName (u "in_use")]
       (data_volume (u "creating")) 0 cloud_stuck_creating
     = (Raise (External class), w')).
Proof.
  apply (wait_loop_ends_on_state_or_eleventh_poll cloud cloud_list_volumes
           cloud_sleep 11
           [StateName (u "creating"); StateNumber 3; StateName (u "in_use")]
           (data_volume (u "creating")) cloud_stuck_creating).
  lia.
Defined.

(** ** Creating a node *)

Lemma filter_cons_elem_of {A} (f : A → bool) (l : list A) (x : A)
    (rest : list A) :
  List.filter f l = x :: rest → x ∈ l ∧ f x = true.
Proof.
  intros Hfilter.
  assert (In x (List.filter f l)) as Hin by (rewrite Hfilter; by left).
  apply filter_In in Hin as [Hin Hx]. split; [| done].
  by apply list_elem_of_In.
Qed.

Section CreateFacts.

Variable World : Type.
Variable list_images : World → driver_result (list NodeImage) * World.
Variable list_sizes : World → driver_result (list NodeSize) * World.
Variable driver_create_node :
  str → NodeImage → NodeSize → str → str →
  World → driver_result (option CloudNode) * World.
Variable create_volume : Z → str → World → driver_result Volume * World.
Variable list_volumes : World → driver_result (list Volume) * World.
Variable wait_until_running :
  list CloudNode → World → driver_result unit * World.
Variable attach_volume :
  CloudNode → Volume → str → World → driver_result bool * World.
Variable sleep : Z → World → World.
Variable subclass_of_SSLError : str → bool.

(** The wait returns [True] or passes on an exception of the driver. *)
Lemma wait_until_volume_available_outcome (fuel : nat) (volume : Volume)
    (maybe_in_use : bool) (w : World) :
  (11 ≤ fuel)%nat →
  (∃ w', _wait_until_volume_available World list_volumes sleep fuel volume
           maybe_in_use w = (Ok (Some true), w')) ∨
  (∃ class w', _wait_until_volume_available World list_volumes sleep fuel
                 volume maybe_in_use w = (Raise (External class), w')).
Proof.
  intros Hfuel. unfold _wait_until_volume_available, bind.
  destruct (wait_loop_bounded World list_volumes sleep fuel
              (if maybe_in_use
               then [StateName (u "creating"); StateNumber 3]
                      ++ [StateName (u "in_use")]
               else [StateName (u "creating"); StateNumber 3])
              volume 0 w ltac:(lia) ltac:(lia))
    as [(final & polls & w' & -> & _) | (class & w1 & w' & _ & ->)].
  - left. exists w'. by destruct (negb _).
  - right. by exists class, w'.
Qed.

(** X16: [create_node] asks the provider for a machine only when a size
    and an image of the names asked for are listed: when either is
    missing it returns after the two listings, and nothing is created. *)
Theorem create_node_needs_size_and_image (fuel : nat) (kw : create_kw)
    (w w1 w2 : World) (images : list NodeImage) (sizes : list NodeSize) :
  list_images w = (Returns images, w1) →
  list_sizes w1 = (Returns sizes, w2) →
  (∀ size, size ∈ sizes → size_name size ≠ kw_size kw) ∨
  (∀ image, image ∈ images → image_name image ≠ kw_image_name kw) →
  create_node World list_images list_sizes driver_create_node create_volume
    list_volumes wait_until_running attach_volume sleep
    subclass_of_SSLError fuel kw w
  = (Ok (Some tt), w2).
Proof.
  intros Himages Hsizes Hmissing.
  unfold create_node, bind at 1, call at 1. rewrite Himages.
  unfold bind at 1, call at 1. rewrite Hsizes.
  destruct (List.filter _ sizes) as [|size ?] eqn:Hsize; [done |].
  apply filter_cons_elem_of in Hsize as [Hsize Hname].
  apply bool_decide_eq_true in Hname.
  destruct (List.filter _ images) as [|image ?] eqn:Himage; [done |].
  apply filter_cons_elem_of in Himage as [Himage Hname'].
  apply bool_decide_eq_true in Hname'.
  destruct Hmissing as [Hnone | Hnone]; exfalso; by eapply Hnone.
Qed.

(** X17: with fuel for the eleven polls of the wait, [create_node] returns
    or raises; what it raises is an exception of the driver or
    [RuntimeError], and [RuntimeError] only when storage was asked for and
    the driver did not answer [True] to attaching the volume. *)
Theorem create_node_raises_only_on_attach (fuel : nat) (kw : create_kw)
    (w : World) :
  (11 ≤ fuel)%nat →
  ∃ r w',
    create_node World list_images list_sizes driver_create_node
      create_volume list_volumes wait_until_running attach_volume sleep
      subclass_of_SSLError fuel kw w = (r, w') ∧
    r ≠ Ok None ∧
    (r = Raise RuntimeError →
     (∃ gb, kw_storage kw = Some gb ∧ gb ≠ 0) ∧
     ∃ node volume w1,
       attach_volume node volume (u "/dev/vdb") w1 = (Returns false, w')) ∧
    (∀ e, r = Raise e → e = RuntimeError ∨ ∃ class, e = External class).
Proof.
  intros Hfuel.
  unfold create_node, bind at 1, call at 1.
  destruct (list_images w) as [[images|class] w1].
  2: { eexists _, _. split; [reflexivity |]. split_and!; [done | done |].
       intros e [= <-]. right. by eexists. }
  unfold bind at 1, call at 1.
  destruct (list_sizes w1) as [[sizes|class] w2].
  2: { eexists _, _. split; [reflexivity |]. split_and!; [done | done |].
       intros e [= <-]. right. by eexists. }
  destruct (List.filter _ sizes) as [|size ?].
  { eexists _, _. split; [reflexivity |]. by split_and!. }
  destruct (List.filter _ images) as [|image ?].
  { eexists _, _. split; [reflexivity |]. by split_and!. }
  unfold bind at 1, try_except, call at 1.
  destruct (driver_create_node _ image size _ _ w2)
    as [[[new_node|]|class] w3].
  3: { destruct (bool_decide (class = u "SSLError")
                 || subclass_of_SSLError class).
       - eexists _, _. split; [reflexivity |]. by split_and!.
       - eexists _, _. split; [reflexivity |]. split_and!; [done | done |].
         intros e [= <-]. right. by eexists. }
  2: { eexists _, _. split; [reflexivity |]. by split_and!. }
  destruct (kw_storage kw) as [gb|] eqn:Hstorage.
  2: { eexists _, _. split; [reflexivity |]. by split_and!. }
  destruct (Z.eqb_spec gb 0) as [Hzero | Hgb].
  { eexists _, _. split; [reflexivity |]. by split_and!. }
  unfold bind at 1, call at 1.
  destruct (create_volume gb _ w3) as [[new_volume|class] w4].
  2: { eexists _, _. split; [reflexivity |]. split_and!; [done | done |].
       intros e [= <-]. right. by eexists. }
  unfold bind at 1.
  destruct (wait_until_volume_available_outcome fuel new_volume true w4
              Hfuel) as [(w5 & ->) | (class & w5 & ->)].
  2: { eexists _, _. split; [reflexivity |]. split_and!; [done | done |].
       intros e [= <-]. right. by eexists. }
  unfold bind at 1, call at 1.
  destruct (wait_until_running [new_node] w5) as [[[]|class] w6].
  2: { eexists _, _. split; [reflexivity |]. split_and!; [done | done |].
       intros e [= <-]. right. by eexists. }
  unfold bind at 1, call at 1.
  destruct (attach_volume new_node new_volume _ w6)
    as [[[|]|class] w7] eqn:Hattach.
  - eexists _, _. split; [reflexivity |]. by split_and!.
  - eexists _, _. split; [reflexivity |]. split_and!; [done | |].
    + intros _. split; [by exists gb |]. by exists new_node, new_volume, w6.
    + intros e [= <-]. by left.
  - eexists _, _. split; [reflexivity |]. split_and!; [done | done |].
    intros e [= <-]. right. by eexists.
Qed.

End CreateFacts.

(** A size the provider does not list: nothing is created. *)
Lemma create_node_huge_centos6 :
  create_node cloud cloud_list_images cloud_list_sizes cloud_create_node
    cloud_create_volume cloud_list_volumes cloud_wait_until_running
    cloud_attach_volume cloud_sleep ssl_subclass 11 huge_centos6
    (cloud_running [] [])
  = (Ok (Some tt), cloud_running [] []).
Proof.
  apply (create_node_needs_size_and_image cloud cloud_list_images
           cloud_list_sizes cloud_create_node cloud_create_volume
           cloud_list_volumes cloud_wait_until_running cloud_attach_volume
           cloud_sleep ssl_subclass 11 huge_centos6 (cloud_running [] [])
           (cloud_running [] []) (cloud_running [] [])
           [{| image_name := u "CentOS 6" |}]
           [{| size_name := u "m1.small" |}]).
  - reflexivity.
  - reflexivity.
  - left. intros size Hin. apply list_elem_of_singleton in Hin as ->.
    by vm_compute.
Defined.

(** A machine with storage, created in a cloud that attaches volumes. *)
Lemma create_node_small_centos6 :
  ∃ r w',
    create_node cloud cloud_list_images cloud_list_sizes cloud_create_node
      cloud_create_volume cloud_list_volumes cloud_wait_until_running
      cloud_attach_volume cloud_sleep ssl_subclass 11 small_centos6
      (cloud_running [] []) = (r, w') ∧
    r ≠ Ok None ∧
    (r = Raise RuntimeError →
     (∃ gb, kw_storage small_centos6 = Some gb ∧ gb ≠ 0) ∧
     ∃ node volume w1,
       cloud_attach_volume node volume (u "/dev/vdb") w1
       = (Returns false, w')) ∧
    (∀ e, r = Raise e → e = RuntimeError ∨ ∃ class, e = External class).
Proof.
  apply (create_node_raises_only_on_attach cloud cloud_list_images
           cloud_list_sizes cloud_create_node cloud_create_volume
           cloud_list_volumes cloud_wait_until_running cloud_attach_volume
           cloud_sleep ssl_subclass 11 small_centos6 (cloud_running [] [])).
  lia.
Defined.

(** ** Deleting a node of a provider *)

Section DeleteFacts.

Variable World : Type.
Variable list_nodes : World → driver_result (list CloudNode) * World.
Variable driver_destroy_node : CloudNode → World → driver_result bool * World.
Variable list_volumes : World → driver_result (list Volume) * World.
Variable driver_destroy_volume : Volume → World → driver_result bool * World.
Variable node_destroy : CloudNode → World → driver_result bool * World.

(** [destroy_node] when no listed node has the name: the listing is all
    it asks for. *)
Lemma destroy_node_not_listed (name : str) (w w1 : World)
    (nodes : list CloudNode) :
  list_nodes w = (Returns nodes, w1) →
  (∀ node, node ∈ nodes → node_name node ≠ name) →
  destroy_node World list_nodes driver_destroy_node list_volumes
    driver_destroy_volume name w = (Raise CloudNodeNotFound, w1).
Proof.
  intros Hlist Hnone. unfold destroy_node, bind at 1, call at 1.
  rewrite Hlist. clear Hlist.
  induction nodes as [|node nodes IH]; [done |].
  rewrite bool_decide_eq_false_2 by (apply Hnone; left).
  apply IH. intros other Hin. apply Hnone. by right.
Qed.

(** X18: [delete_provider_node] on the OpenStack provider never raises,
    whatever the driver does: a node that is not found, a refusal of the
    driver and an exception of the library are all passed over. When no
    listed node has the name, the listing is the only request made. *)
Theorem delete_provider_node_never_raises (name : str) (w : World) :
  ∃ w',
    delete_provider_node World
      (openstack list_nodes driver_destroy_node list_volumes
         driver_destroy_volume node_destroy) name w = (Ok tt, w') ∧
    (destroy_node World list_nodes driver_destroy_node list_volumes
       driver_destroy_volume name w).2 = w' ∧
    (∀ nodes w1,
       list_nodes w = (Returns nodes, w1) →
       (∀ node, node ∈ nodes → node_name node ≠ name) →
       w' = w1).
Proof.
  unfold delete_provider_node, try_except.
  cbn [openstack provider_destroy_node].
  destruct (destroy_node World list_nodes driver_destroy_node list_volumes
              driver_destroy_volume name w) as [[[]|e] w'] eqn:Hdestroy.
  - exists w'. split_and!; [done | done |].
    intros nodes w1 Hlist Hnone.
    rewrite (destroy_node_not_listed name w w1 nodes Hlist Hnone) in Hdestroy.
    by injection Hdestroy.
  - exists w'. split_and!; [by destruct e | done |].
    intros nodes w1 Hlist Hnone.
    rewrite (destroy_node_not_listed name w w1 nodes Hlist Hnone) in Hdestroy.
    by injection Hdestroy.
Qed.

End DeleteFacts.

(** ** The map of node states *)

(** X19: [node_state_map] maps each name of a state to its value and the
    value back to the name, when the names differ from one another, the
    values differ from one another and no value is itself one of the
    names. *)
Theorem node_state_map_round_trip (items : list (str * state_value))
    (k : str) (v : state_value) :
  NoDup items.*1 →
  NoDup items.*2 →
  (∀ k' v', k' ∈ items.*1 → v' ∈ items.*2 → v' ≠ StateName k') →
  (k, v) ∈ items →
  node_state_map items !! StateName k = Some v ∧
  node_state_map items !! v = Some (StateName k).
Proof.
  unfold node_state_map.
  induction items as [|[k0 v0] items IH] using rev_ind; intros Hk Hv Hkv Hin.
  { by apply elem_of_nil in Hin. }
  rewrite foldl_app. cbn [foldl fst snd].
  rewrite fmap_app in Hk. rewrite fmap_app in Hv.
  rewrite !fmap_app in Hkv. cbn [fmap list_fmap fst snd] in Hk, Hv, Hkv.
  apply NoDup_app in Hk as (Hk & Hk0 & _).
  apply NoDup_app in Hv as (Hv & Hv0 & _).
  assert (v0 ≠ StateName k0) as Hname0.
  { apply Hkv; apply elem_of_app; right; left. }
  apply elem_of_app in Hin as [Hin | Hin].
  - assert (k ∈ items.*1) as Hkin.
    { apply list_elem_of_fmap. by exists (k, v). }
    assert (v ∈ items.*2) as Hvin.
    { apply list_elem_of_fmap. by exists (k, v). }
    assert (k ≠ k0) as Hkne.
    { intros ->. apply (Hk0 k0 Hkin). left. }
    assert (v ≠ v0) as Hvne.
    { intros ->. apply (Hv0 v0 Hvin). left. }
    assert (v0 ≠ StateName k) as Hv0k.
    { apply Hkv; apply elem_of_app; [by left | right; left]. }
    assert (v ≠ StateName k0) as Hvk0.
    { apply Hkv; apply elem_of_app; [right; left | by left]. }
    destruct IH as [IHk IHv]; [done | done | | done |].
    { intros k' v' Hk' Hv'. apply Hkv; apply elem_of_app; by left. }
    split.
    + rewrite lookup_insert_ne by done.
      rewrite lookup_insert_ne by congruence. done.
    + rewrite lookup_insert_ne by done.
      by rewrite lookup_insert_ne by done.
  - apply list_elem_of_singleton in Hin as [= -> ->]. split.
    + rewrite lookup_insert_ne by done. by rewrite lookup_insert_eq.
    + by rewrite lookup_insert_eq.
Qed.

(** The state [RUNNING] and its number. *)
Lemma node_state_map_running :
  node_state_map example_states !! StateName (u "RUNNING")
  = Some (StateNumber 0) ∧
  node_state_map example_states !! StateNumber 0
  = Some (StateName (u "RUNNING")).
Proof.
  apply (node_state_map_round_trip example_states (u "RUNNING")
           (StateNumber 0)).
  - apply (bool_decide_unpack _). by vm_compute.
  - apply (bool_decide_unpack _). by vm_compute.
  - intros k' v' Hk' Hv' ->. revert Hk'.
    apply list_elem_of_In in Hv'.
    destruct Hv' as [Hv' | [Hv' | [Hv' | [Hv' | []]]]]; try discriminate.
    injection Hv' as <-.
    apply (proj1 (bool_decide_eq_false _)). by vm_compute.
  - left.
Defined.

(** ** The last piece of a split *)

Lemma last_cons_nonempty {A} (x d : A) (l : list A) :
  l ≠ [] → List.last (x :: l) d = List.last l d.
Proof. by destruct l. Qed.

(** The last piece of a split is the end of the string. *)
Lemma last_split_go_suffix (sep : str) (s : str) :
  (∀ cur, List.last (split_go sep 0 cur s) [] `suffix_of` reverse cur ++ s) ∧
  (∀ skip, List.last (split_go sep skip [] s) [] `suffix_of` s).
Proof.
  induction s as [|c s [IH0 IHskip]].
  - split; [intros cur | intros skip]; cbn.
    + by rewrite app_nil_r.
    + by destruct skip.
  - assert (∀ cur, List.last (split_go sep 0 cur (c :: s)) []
                   `suffix_of` reverse cur ++ c :: s) as H0.
    { intros cur. cbn [split_go].
      destruct (startswith (c :: s) sep).
      - rewrite last_cons_nonempty by apply split_go_nonempty.
        apply suffix_app_r, suffix_cons_r, IHskip.
      - specialize (IH0 (c :: cur)).
        by rewrite reverse_cons, <- app_assoc in IH0. }
    split; [done |]. intros [|skip].
    + apply (H0 []).
    + cbn [split_go]. apply suffix_cons_r, IHskip.
Qed.

(** X20: for a node named as this service names them, the identifier
    [check_idling] reads off the name, its last part after [__], is one
    [get_jenkins_name] finds a node for whenever Jenkins lists that name:
    the first listed name that contains the identifier. *)
Theorem get_jenkins_name_finds_managed_node (nodes : list str)
    (name uuid : str) :
  name ∈ nodes →
  List.last (split name (u "__")) [] = uuid →
  ∃ found before after,
    get_jenkins_name nodes uuid = Some found ∧
    nodes = before ++ found :: after ∧
    infix_of uuid found ∧
    ∀ other, other ∈ before → ¬ infix_of uuid other.
Proof.
  intros Hin Huuid. unfold get_jenkins_name.
  assert (infix_of uuid name) as Hinfix.
  { destruct (proj1 (last_split_go_suffix (u "__") name) []) as [k Hk].
    unfold split in Huuid. rewrite Huuid in Hk. exists k, [].
    by rewrite app_nil_r. }
  destruct (List.find (λ name0, contains name0 uuid) nodes) as [found|]
    eqn:Hfind.
  - apply find_Some_first in Hfind as (before & after & -> & Hfound & Hbefore).
    exists found, before, after. split_and!; [done | done | |].
    + by apply contains_infix.
    + intros other Hother. apply contains_false_infix. by apply Hbefore.
  - rewrite find_None_all in Hfind. specialize (Hfind name Hin).
    by apply contains_false_infix in Hfind.
Qed.

(** A managed node among the nodes of Jenkins. *)
Lemma get_jenkins_name_managed_name :
  ∃ found before after,
    get_jenkins_name [u "master"; managed_name] (u "b56d0e4a") = Some found ∧
    [u "master"; managed_name] = before ++ found :: after ∧
    infix_of (u "b56d0e4a") found ∧
    ∀ other, other ∈ before → ¬ infix_of (u "b56d0e4a") other.
Proof.
  apply (get_jenkins_name_finds_managed_node [u "master"; managed_name]
           managed_name (u "b56d0e4a")).
  - right. left.
  - by vm_compute.
Defined.

(** ** The name of a job in its address *)

Lemma dropwhile_b_replicate {A} (f : A → bool) (d : A) (k : nat)
    (l : list A) :
  f d = true → dropwhile_b f (replicate k d ++ l) = dropwhile_b f l.
Proof.
  intros Hd. induction k as [|k IH]; [done |].
  cbn [replicate app dropwhile_b]. by rewrite Hd.
Qed.

(** A string without the separator is one piece. *)
Lemma split_go_no_separator (d : N) (sep cur s : str) :
  d ∉ s → split_go (d :: sep) 0 cur s = [reverse cur ++ s].
Proof.
  intros Hd. rewrite <- (app_nil_r s) at 1.
  rewrite split_go_passes by done. cbn [split_go].
  by rewrite reverse_app, reverse_involutive.
Qed.

(** What follows the last separator is the last piece. *)
Lemma split_go_single_last (d : N) (name s cur : str) :
  d ∉ name → List.last (split_go [d] 0 cur (s ++ d :: name)) [] = name.
Proof.
  intros Hd. revert cur. induction s as [|c s IH]; intros cur.
  - cbn [app split_go startswith length Nat.sub].
    rewrite N.eqb_refl. cbn [andb].
    by rewrite split_go_no_separator.
  - cbn [app split_go startswith length Nat.sub].
    destruct (d =? c)%N; cbn [andb].
    + rewrite last_cons_nonempty by apply split_go_nonempty. apply IH.
    + apply IH.
Qed.

(** Stripping the slashes of an address that ends with a name. *)
Lemma strip_slashes_of_address (prefix name : str) (k : nat) :
  name ≠ [] → 47%N ∉ name →
  ∃ p, strip_chars (u "/") (prefix ++ u "/" ++ name ++ replicate k 47%N)
       = p ++ name ∧
       (p = [] ∨ ∃ q, p = q ++ [47%N]).
Proof.
  intros Hname Hslash. change (u "/") with [47%N]. unfold strip_chars.
  set (f := λ c : N, bool_decide (c ∈ [47%N])).
  assert (f 47%N = true) as Hf.
  { apply bool_decide_eq_true. left. }
  assert (∀ c, c ∈ name → f c = false) as Hfname.
  { intros c Hc. apply bool_decide_eq_false.
    intros ->%list_elem_of_singleton. done. }
  assert (∃ p, dropwhile_b f (prefix ++ [47%N] ++ name ++ replicate k 47%N)
               = p ++ name ++ replicate k 47%N ∧
               (p = [] ∨ ∃ q, p = q ++ [47%N])) as (p & -> & Hp).
  { induction prefix as [|c prefix IH].
    - exists []. split; [| by left].
      cbn [app dropwhile_b]. rewrite Hf.
      destruct name as [|c name]; [done |].
      cbn [app dropwhile_b]. by rewrite (Hfname c) by left.
    - cbn [app dropwhile_b]. destruct (f c) eqn:Hc; [apply IH |].
      exists ((c :: prefix) ++ [47%N]). split; [| right; by eexists].
      by rewrite <- !app_assoc. }
  exists p. split; [| done].
  rewrite !reverse_app, reverse_replicate, <- app_assoc.
  rewrite dropwhile_b_replicate by done.
  destruct name as [|c name _] using rev_ind; [done |].
  rewrite reverse_app, reverse_singleton. cbn [app dropwhile_b].
  rewrite (Hfname c) by (apply elem_of_app; right; left).
  rewrite reverse_cons, reverse_app, !reverse_involutive.
  by rewrite <- app_assoc.
Qed.

(** X21: [job_from_url] gives the name of the job at the end of the
    address: the part after the last slash, whatever comes before it and
    however many slashes follow it, when the name is not empty. *)
Theorem job_from_url_last_part (prefix name : str) (k : nat) :
  name ≠ [] →
  47%N ∉ name →
  job_from_url (prefix ++ u "/" ++ name ++ replicate k 47%N) = name.
Proof.
  intros Hname Hslash. unfold job_from_url.
  destruct (strip_slashes_of_address prefix name k Hname Hslash)
    as (p & -> & [-> | [q ->]]).
  - unfold split. change (u "/") with [47%N].
    by rewrite split_go_no_separator.
  - unfold split. change (u "/") with [47%N].
    rewrite <- app_assoc. by apply split_go_single_last.
Qed.

(** The job of the examples. *)
Lemma job_from_url_build :
  job_from_url (u "http://jenkins/job" ++ u "/" ++ u "build"
                ++ replicate 1 47%N) = u "build".
Proof.
  apply (job_from_url_last_part (u "http://jenkins/job") (u "build") 1).
  - done.
  - apply (proj1 (bool_decide_eq_false _)). by vm_compute.
Defined.

(** ** The address of the API *)

Lemma os_path_join_absolute (a b : str) :
  head b = Some 47%N → os_path_join a b = b.
Proof.
  intros Hb. unfold os_path_join. change (u "/") with [47%N].
  destruct b as [|c b]; [done |]. injection Hb as ->. done.
Qed.

Lemma os_path_join_relative (a b : str) :
  a ≠ [] → last a ≠ Some 47%N → head b ≠ Some 47%N →
  os_path_join a b = a ++ u "/" ++ b.
Proof.
  intros Ha Hlast Hb. unfold os_path_join. change (u "/") with [47%N].
  assert (startswith b [47%N] = false) as ->.
  { destruct b as [|c b]; [done |]. cbn [startswith].
    destruct (N.eqb_spec 47 c) as [<- | _]; [by destruct Hb | done]. }
  rewrite bool_decide_eq_false_2 by done.
  assert (endswith a [47%N] = false) as ->; [| done].
  unfold endswith. destruct a as [|c a _] using rev_ind; [done |].
  rewrite reverse_app, !reverse_singleton. cbn [app startswith].
  rewrite last_snoc in Hlast.
  destruct (N.eqb_spec 47 c) as [<- | _]; [by destruct Hlast | done].
Qed.

Lemma os_path_join_directory (a b : str) :
  head b ≠ Some 47%N → os_path_join (a ++ u "/") b = a ++ u "/" ++ b.
Proof.
  intros Hb. unfold os_path_join. change (u "/") with [47%N].
  assert (startswith b [47%N] = false) as ->.
  { destruct b as [|c b]; [done |]. cbn [startswith].
    destruct (N.eqb_spec 47 c) as [<- | _]; [by destruct Hb | done]. }
  assert (endswith (a ++ [47%N]) [47%N] = true) as ->.
  { apply endswith_suffix. by exists a. }
  by rewrite orb_true_r, <- app_assoc.
Qed.

(** Joining parts that are plain names. *)
Lemma foldl_os_path_join_names (url : str) (parts : list str) :
  url ≠ [] → last url ≠ Some 47%N →
  (∀ p, p ∈ parts → p ≠ [] ∧ head p ≠ Some 47%N ∧ last p ≠ Some 47%N) →
  foldl os_path_join url parts
  = url ++ mjoin ((λ p, u "/" ++ p) <$> parts).
Proof.
  revert url. induction parts as [|p parts IH]; intros url Hurl Hlast Hparts.
  - cbn. by rewrite app_nil_r.
  - destruct (Hparts p ltac:(left)) as (Hp & Hhead & Hend).
    cbn [foldl fmap list_fmap mjoin list_join].
    rewrite os_path_join_relative by done.
    rewrite IH.
    + by rewrite <- !app_assoc.
    + by destruct url.
    + rewrite !last_app.
      destruct (last p) as [c|] eqn:Hc; [done |].
      by apply last_None in Hc.
    + intros q Hq. apply Hparts. by right.
Qed.

(** X22: [get_mita_api] raises [KeyError] exactly for an endpoint that is
    not empty and is not [nodes], and raises nothing else; a part that
    begins with a slash replaces all that came before it. *)
Theorem get_mita_api_raises_KeyError_iff_unknown_endpoint
    (server_host server_port : str) (endpoint : option str)
    (args : list str) :
  (get_mita_api server_host server_port endpoint args = Raise KeyError ↔
   ∃ e, endpoint = Some e ∧ e ≠ [] ∧ e ≠ u "nodes") ∧
  (∀ e, get_mita_api server_host server_port endpoint args = Raise e →
        e = KeyError) ∧
  (∀ p, head p = Some 47%N →
        get_mita_api server_host server_port endpoint (args ++ [p])
        ≠ Raise KeyError →
        get_mita_api server_host server_port endpoint (args ++ [p]) = Ok p).
Proof.
  unfold get_mita_api. cbv zeta.
  destruct endpoint as [[|c e]|].
  - split_and!.
    + split; [done | by intros (e & [= <-] & He & _)].
    + done.
    + intros p Hp _. cbn [rbind]. rewrite foldl_app. cbn [foldl].
      by rewrite os_path_join_absolute.
  - cbn [List.find fst snd]. case_bool_decide as Hnodes.
    + split_and!.
      * split; [done | intros (e' & [= <-] & _ & He')]. by destruct He'.
      * done.
      * intros p Hp _. cbn [rbind]. rewrite foldl_app. cbn [foldl].
        by rewrite os_path_join_absolute.
    + split_and!.
      * split; [intros _ | done]. exists (c :: e). split_and!; [done | done |].
        intros He. by apply Hnodes.
      * by intros e' [= <-].
      * by intros p Hp Hraise.
  - split_and!.
    + split; [done | by intros (e & [=] & _)].
    + done.
    + intros p Hp _. cbn [rbind]. rewrite foldl_app. cbn [foldl].
      by rewrite os_path_join_absolute.
Qed.

(** X23: for parts that are plain names (not empty, no slash at either
    end) the address [get_mita_api] builds for the endpoint [nodes] is
    that of the endpoint followed by the parts, with one slash between
    them. *)
Theorem get_mita_api_nodes_address (server_host server_port : str)
    (first : str) (rest : list str) :
  (∀ p, p ∈ first :: rest →
        p ≠ [] ∧ head p ≠ Some 47%N ∧ last p ≠ Some 47%N) →
  get_mita_api server_host server_port (Some (u "nodes")) (first :: rest)
  = Ok (u "http://" ++ server_host ++ u ":" ++ server_port
          ++ u "/api/nodes/" ++ first
          ++ mjoin ((λ p, u "/" ++ p) <$> rest)).
Proof.
  intros Hparts.
  destruct (Hparts first ltac:(left)) as (Hfirst & Hhead & Hlast).
  change (get_mita_api server_host server_port (Some (u "nodes"))
            (first :: rest))
    with (Ok (foldl os_path_join
                (os_path_join
                   ((u "http://" ++ server_host ++ u ":" ++ server_port
                       ++ u "/api") ++ u "/nodes/") first)
                rest)).
  f_equal.
  replace ((u "http://" ++ server_host ++ u ":" ++ server_port ++ u "/api")
             ++ u "/nodes/")
    with (((u "http://" ++ server_host ++ u ":" ++ server_port ++ u "/api")
             ++ u "/nodes") ++ u "/")
    by (by rewrite <- (app_assoc _ (u "/nodes") (u "/"))).
  rewrite os_path_join_directory by done.
  rewrite foldl_os_path_join_names.
  - rewrite <- !app_assoc. done.
  - by destruct (u "http://" ++ server_host ++ u ":" ++ server_port
                   ++ u "/api").
  - rewrite !last_app. destruct (last first) as [c|] eqn:Hc; [done |].
    by apply last_None in Hc.
  - intros p Hp. apply Hparts. by right.
Qed.

(** The address that reports a node as idle. *)
Lemma get_mita_api_idle_address :
  get_mita_api api_host api_port (Some (u "nodes"))
    [u "b56d0e4a"; u "idle"]
  = Ok (u "http://" ++ api_host ++ u ":" ++ api_port
          ++ u "/api/nodes/" ++ u "b56d0e4a"
          ++ mjoin ((λ p, u "/" ++ p) <$> [u "idle"])).
Proof.
  apply (get_mita_api_nodes_address api_host api_port (u "b56d0e4a")
           [u "idle"]).
  intros p Hp. apply list_elem_of_In in Hp.
  destruct Hp as [<- | [<- | []]]; by vm_compute.
Defined.
